(** * Jarvis: intent router, validator, memory store and context composer

    A shallow embedding of
      - [app/enhanced_intent_router.py]  (class [EnhancedIntentRouter]),
      - [memory/enhanced_memory.py]      (class [EnhancedMemory]),
      - [app/enhanced_main.py]           ([EnhancedJarvis._build_context],
        [_execute_intent], [_should_confirm_action], [_handle_memory_query]),
      - [app/tools.py], [control/desktop.py]  (the desktop actions),
    together with the properties their specification states.

    Conventions of the embedding.
      - A Python [str] is a Rocq [string]; its characters are read as the
        code points 0..255 (Latin-1), with Python's own notion of case,
        white space and word character on that range.
      - A Python [dict] with string keys is an association list in
        insertion order ([dict]); [dict_set] overwrites in place.
      - A Python [float] that the code only builds from small integer
        quotients and decimal literals is a rational ([Q]).  For the
        quotients met here (numerator and denominator below 2^50)
        correctly rounded division orders floats exactly as the
        rationals are ordered, and maps equal rationals to equal floats.
      - [int()] is that of CPython 3.10.7 and later with its default
        limit: a string of more than 4300 digits raises [ValueError].
      - A Python exception is a value of [exn]; code that may raise
        returns a [result]. *)

From Stdlib Require Import String Ascii List Bool Arith ZArith QArith Lia.
From Stdlib Require Import Sorted Permutation.
Import ListNotations.

Set Implicit Arguments.
Set Warnings "-register-all".
Local Open Scope string_scope.
Local Open Scope list_scope.
Local Open Scope nat_scope.

Infix "^^" := String.append (at level 60, right associativity).

(* ================================================================== *)
(** * Python primitives *)
(* ================================================================== *)

Module Py.

(** ** Exceptions *)

Inductive exn : Type :=
| ZeroDivisionError
| TypeError
| ValueError
| IndexError
| AttributeError
| KeyError
| BackendError (msg : string).

Inductive result (A : Type) : Type :=
| Ok (a : A)
| Raise (e : exn).

Arguments Ok {A} a.
Arguments Raise {A} e.

Definition bind {A B : Type} (m : result A) (f : A -> result B) : result B :=
  match m with
  | Ok a => f a
  | Raise e => Raise e
  end.

Definition is_ok {A : Type} (m : result A) : bool :=
  match m with Ok _ => true | Raise _ => false end.

(** ** Characters (code points 0..255) *)

Definition code (c : ascii) : nat := nat_of_ascii c.

Definition in_range (lo hi : nat) (c : ascii) : bool :=
  (lo <=? code c) && (code c <=? hi).

(** [str.lower] on one character: A-Z, and the Latin-1 capitals
    U+00C0..U+00DE except the multiplication sign U+00D7. *)
Definition lower_char (c : ascii) : ascii :=
  if in_range 65 90 c || in_range 192 214 c || in_range 216 222 c
  then ascii_of_nat (code c + 32) else c.

(** Simple upper-case mapping, where the image stays below 256. *)
Definition upper_char (c : ascii) : ascii :=
  if in_range 97 122 c || in_range 224 246 c || in_range 248 254 c
  then ascii_of_nat (code c - 32) else c.

(** [str.isspace] and the regular-expression class [\s]. *)
Definition is_space (c : ascii) : bool :=
  in_range 9 13 c || in_range 28 32 c || (code c =? 133) || (code c =? 160).

(** The regular-expression class [\d] (decimal digits). *)
Definition is_digit (c : ascii) : bool := in_range 48 57 c.

(** The regular-expression class [\w], which decides [\b]. *)
Definition is_word (c : ascii) : bool :=
  is_digit c || in_range 65 90 c || in_range 97 122 c || (code c =? 95)
  || (code c =? 170) || (code c =? 178) || (code c =? 179) || (code c =? 181)
  || (code c =? 185) || (code c =? 186) || in_range 188 190 c
  || in_range 192 214 c || in_range 216 246 c || in_range 248 255 c.

(** ** Strings *)

Definition chars (s : string) : list ascii := list_ascii_of_string s.
Definition str (l : list ascii) : string := string_of_list_ascii l.

Definition len (s : string) : nat := String.length s.

(** [s.lower()] *)
Definition lower (s : string) : string := str (map lower_char (chars s)).

Fixpoint lstrip_chars (l : list ascii) : list ascii :=
  match l with
  | c :: l' => if is_space c then lstrip_chars l' else l
  | [] => []
  end.

(** [s.strip()] *)
Definition strip (s : string) : string :=
  str (rev (lstrip_chars (rev (lstrip_chars (chars s))))).

(** [s[a:b]] for [0 <= a <= b]. *)
Definition slice (a b : nat) (s : string) : string := substring a (b - a) s.

(** [s[:n]] for [0 <= n]. *)
Definition prefix_to (n : nat) (s : string) : string := substring 0 n s.

(** [sub in s] *)
Fixpoint contains (sub s : string) : bool :=
  if prefix sub s then true
  else match s with
       | EmptyString => false
       | String _ s' => contains sub s'
       end.

(** [sep.join(parts)] *)
Fixpoint join (sep : string) (parts : list string) : string :=
  match parts with
  | [] => ""
  | [p] => p
  | p :: ps => p ^^ sep ^^ join sep ps
  end.

(** [int(s)] on a string of decimal digits.  Any other string is
    reported as [ValueError]; the router only passes [\d+] captures.
    CPython (from 3.10.7 on; the installer asks for 3.10 or later)
    refuses to convert more than [sys.get_int_max_str_digits()] digits,
    4300 unless the interpreter is told otherwise, leading zeros
    counted: it raises [ValueError] on a longer string. *)
Fixpoint digits_value (acc : Z) (l : list ascii) : option Z :=
  match l with
  | [] => Some acc
  | c :: l' =>
      if is_digit c
      then digits_value (acc * 10 + Z.of_nat (code c - 48)) l'
      else None
  end.

Definition max_str_digits : nat := 4300.

Definition int_of_str (s : string) : result Z :=
  match chars s with
  | [] => Raise ValueError
  | l =>
      if max_str_digits <? length l then Raise ValueError
      else match digits_value 0 l with
           | Some z => Ok z
           | None => Raise ValueError
           end
  end.

(** ** Sequences: slicing with Python's index conventions *)

(** Position denoted by a slice bound [a] in a sequence of length [n]:
    negative bounds count from the end, and everything is clamped. *)
Definition slice_bound (n : nat) (a : Z) : nat :=
  if (a <? 0)%Z then Z.to_nat (Z.max 0 (Z.of_nat n + a))
  else Nat.min (Z.to_nat a) n.

(** [l[a:]] *)
Definition slice_from {A : Type} (a : Z) (l : list A) : list A :=
  skipn (slice_bound (length l) a) l.

(** [l[:b]] *)
Definition slice_to {A : Type} (b : Z) (l : list A) : list A :=
  firstn (slice_bound (length l) b) l.

(** ** Values and dictionaries *)

Inductive value : Type :=
| VNone
| VBool (b : bool)
| VInt (z : Z)
| VNum (q : Q)
| VStr (s : string)
| VTuple (l : list value)
| VList (l : list value)
| VDict (d : list (string * value)).

Definition dict : Type := list (string * value).

Fixpoint dict_get (k : string) (d : dict) : option value :=
  match d with
  | [] => None
  | (k', v) :: d' => if String.eqb k k' then Some v else dict_get k d'
  end.

(** [d.get(k)], with Python's default [None]. *)
Definition get (k : string) (d : dict) : value :=
  match dict_get k d with Some v => v | None => VNone end.

(** [d.get(k, dflt)] *)
Definition get_default (k : string) (dflt : value) (d : dict) : value :=
  match dict_get k d with Some v => v | None => dflt end.

(** [d[k] = v] *)
Fixpoint dict_set (k : string) (v : value) (d : dict) : dict :=
  match d with
  | [] => [(k, v)]
  | (k', v') :: d' =>
      if String.eqb k k' then (k', v) :: d' else (k', v') :: dict_set k v d'
  end.

(** [d.update(e)] *)
Definition dict_update (d e : dict) : dict :=
  fold_left (fun acc kv => dict_set (fst kv) (snd kv) acc) e d.

Definition has_key (k : string) (d : dict) : bool :=
  match dict_get k d with Some _ => true | None => false end.

(** Truth value of an object, as [if v:] reads it. *)
Definition truthy (v : value) : bool :=
  match v with
  | VNone => false
  | VBool b => b
  | VInt z => negb (z =? 0)%Z
  | VNum q => negb (Qeq_bool q 0)
  | VStr s => negb (String.eqb s "")
  | VTuple l | VList l => negb (Nat.eqb (length l) 0)
  | VDict d => negb (Nat.eqb (length d) 0)
  end.

(** [len(v)] *)
Definition py_len (v : value) : result nat :=
  match v with
  | VStr s => Ok (len s)
  | VTuple l | VList l => Ok (length l)
  | VDict d => Ok (length d)
  | _ => Raise TypeError
  end.

(** Numbers, for the ordering comparisons. *)
Definition as_number (v : value) : option Q :=
  match v with
  | VInt z => Some (inject_Z z)
  | VNum q => Some q
  | VBool b => Some (if b then 1 else 0)%Q
  | _ => None
  end.

Definition Qlt_bool (a b : Q) : bool := negb (Qle_bool b a).

(** [a <= v] for a number [a]: a number on the right is compared, any
    other object raises [TypeError]. *)
Definition num_le_value (a : Q) (v : value) : result bool :=
  match as_number v with
  | Some q => Ok (Qle_bool a q)
  | None => Raise TypeError
  end.

(** [v <= b] for a number [b]. *)
Definition value_le_num (v : value) (b : Q) : result bool :=
  match as_number v with
  | Some q => Ok (Qle_bool q b)
  | None => Raise TypeError
  end.

(** [a / b] on two lengths (true division). *)
Definition true_div (a b : nat) : result Q :=
  match b with
  | O => Raise ZeroDivisionError
  | S _ => Ok (Z.of_nat a # Pos.of_nat b)
  end.

(** Whether an object can be a dictionary key. *)
Fixpoint hashable (v : value) : bool :=
  match v with
  | VList _ | VDict _ => false
  | VTuple l => forallb hashable l
  | _ => true
  end.

End Py.

Import Py.

Declare Scope py_scope.
Notation "x <- m ;; k" := (bind m (fun x => k))
  (at level 61, m at next level, right associativity) : py_scope.
Local Open Scope py_scope.

(* ================================================================== *)
(** * Regular expressions: the part of Python's [re] the catalog uses *)
(* ================================================================== *)

(** A backtracking matcher in the style of a list of successes: the
    matches of a pattern at a position are listed in the order in which
    Python's engine would try them (first alternative first, greedy
    repetition longest first), so the head of the list is the match
    [re] reports.  Every pattern is compiled with [re.IGNORECASE]. *)

Module Regex.

Inductive set_item : Type :=
| SChar (c : ascii)          (* a literal member *)
| SRange (lo hi : ascii)     (* lo-hi *)
| SSpace                     (* \s *)
| SDigit.                    (* \d *)

Inductive regex : Type :=
| Empty
| Lit (c : ascii)                              (* a literal character *)
| Dot                                          (* .  (any but newline) *)
| CharSet (negated : bool) (items : list set_item)   (* [...] / [^...] *)
| WordBoundary                                 (* \b *)
| Seq (r1 r2 : regex)
| Alt (r1 r2 : regex)                          (* r1|r2 *)
| Repeat (r : regex) (lo : nat) (hi : option nat)    (* greedy {lo,hi} *)
| Group (n : nat) (r : regex).                 (* n-th capturing group, from 0 *)

(** A compiled pattern: the source text as it stands in the program,
    its syntax tree and the number of capturing groups. *)
Record pattern : Type := Pattern {
  source : string;
  tree : regex;
  ngroups : nat
}.

(** Spans of the capturing groups; [None] for a group that took no part. *)
Definition captures : Type := list (option (nat * nat)).

Fixpoint set_capture (n : nat) (sp : nat * nat) (caps : captures) : captures :=
  match caps, n with
  | [], _ => []
  | _ :: cs, O => Some sp :: cs
  | c :: cs, S n' => c :: set_capture n' sp cs
  end.

(** Case-insensitive comparison of a text character with a literal. *)
Definition char_eq_nocase (c d : ascii) : bool :=
  Ascii.eqb (lower_char c) (lower_char d).

Definition between (lo hi d : ascii) : bool :=
  (code lo <=? code d) && (code d <=? code hi).

Definition item_matches (d : ascii) (it : set_item) : bool :=
  match it with
  | SChar c => char_eq_nocase c d
  | SRange lo hi =>
      between lo hi d || between lo hi (lower_char d)
      || between lo hi (upper_char d)
  | SSpace => is_space d
  | SDigit => is_digit d
  end.

Definition newline : ascii := ascii_of_nat 10.

(** Whether position [i] of [s] is a word boundary. *)
Definition at_boundary (s : string) (i : nat) : bool :=
  let before :=
    match i with
    | O => false
    | S i' => match String.get i' s with Some c => is_word c | None => false end
    end in
  let after :=
    match String.get i s with Some c => is_word c | None => false end in
  xorb before after.

Definition under (cnt : nat) (hi : option nat) : bool :=
  match hi with
  | None => true
  | Some h => cnt <? h
  end.

Section Matcher.

Variable s : string.

(** One character at position [i], accepted by [ok]. *)
Definition step_char (ok : ascii -> bool) (i : nat) (caps : captures)
  : list (nat * captures) :=
  match String.get i s with
  | Some d => if ok d then [(S i, caps)] else []
  | None => []
  end.

(** The rounds of a greedy repetition [{lo,hi}] of [body], [cnt]
    rounds being done: one more round first, then stopping here.  A
    round must consume text, and [fuel] bounds the number of rounds. *)
Fixpoint rounds (body : nat -> captures -> list (nat * captures))
  (lo : nat) (hi : option nat) (fuel cnt i : nat) (caps : captures)
  {struct fuel} : list (nat * captures) :=
  (match fuel with
   | O => []
   | S fuel' =>
       if under cnt hi
       then flat_map
              (fun m => if i <? fst m
                        then rounds body lo hi fuel' (S cnt) (fst m) (snd m)
                        else [])
              (body i caps)
       else []
   end)
  ++ (if lo <=? cnt then [(i, caps)] else []).

(** [matches r i caps]: every way for [r] to match from position [i],
    as (end position, captures), in the engine's order of preference.
    A repetition is given the remaining length + 1 as fuel, which its
    rounds cannot use up (see [rounds_fuel]). *)
Fixpoint matches (r : regex) (i : nat) (caps : captures) {struct r}
  : list (nat * captures) :=
  match r with
  | Empty => [(i, caps)]
  | Lit c => step_char (char_eq_nocase c) i caps
  | Dot => step_char (fun d => negb (Ascii.eqb d newline)) i caps
  | CharSet neg items =>
      step_char (fun d => xorb neg (existsb (item_matches d) items)) i caps
  | WordBoundary => if at_boundary s i then [(i, caps)] else []
  | Seq r1 r2 =>
      flat_map (fun m => matches r2 (fst m) (snd m)) (matches r1 i caps)
  | Alt r1 r2 => matches r1 i caps ++ matches r2 i caps
  | Group n r1 =>
      map (fun m => (fst m, set_capture n (i, fst m) (snd m)))
          (matches r1 i caps)
  | Repeat r1 lo hi => rounds (matches r1) lo hi (S (len s - i)) 0 i caps
  end.

End Matcher.

(** The object [re.search] returns. *)
Record rmatch : Type := RMatch {
  m_start : nat;
  m_end : nat;
  m_caps : captures
}.

(** A match of [p] that starts exactly at [start]. *)
Definition match_at (p : pattern) (s : string) (start : nat) : option rmatch :=
  match matches s (tree p) start (repeat None (ngroups p)) with
  | m :: _ => Some (RMatch start (fst m) (snd m))
  | [] => None
  end.

(** The leftmost match starting at [start], [start+1], ..., [start+n]. *)
Fixpoint scan (p : pattern) (s : string) (n start : nat) : option rmatch :=
  match match_at p s start with
  | Some m => Some m
  | None => match n with
            | O => None
            | S n' => scan p s n' (S start)
            end
  end.

(** [re.search(p, s, re.IGNORECASE)] *)
Definition search (p : pattern) (s : string) : option rmatch :=
  scan p s (len s) 0.

(** [m.group(0)] *)
Definition group0 (s : string) (m : rmatch) : string :=
  slice (m_start m) (m_end m) s.

(** [m.groups()]: one entry per capturing group, [None] when unset. *)
Definition groups (s : string) (m : rmatch) : list (option string) :=
  map (fun c => match c with
                | Some sp => Some (slice (fst sp) (snd sp) s)
                | None => None
                end) (m_caps m).

(** What [re.findall] lists for one match: the whole match when the
    pattern has no group, the group when it has one, the tuple of
    groups otherwise; an unset group reads as the empty string. *)
Definition findall_item (p : pattern) (s : string) (m : rmatch) : value :=
  let g := map (fun o => match o with Some x => VStr x | None => VStr "" end)
               (groups s m) in
  match g with
  | [] => VStr (group0 s m)
  | [x] => x
  | _ => VTuple g
  end.

(** The successive non-overlapping matches, left to right. *)
Fixpoint finditer (p : pattern) (s : string) (fuel pos : nat) : list rmatch :=
  match fuel with
  | O => []
  | S fuel' =>
      if len s <? pos then []
      else match scan p s (len s - pos) pos with
           | None => []
           | Some m =>
               m :: finditer p s fuel'
                      (if m_start m <? m_end m then m_end m else S (m_end m))
           end
  end.

(** [re.findall(p, s, re.IGNORECASE)] *)
Definition findall (p : pattern) (s : string) : list value :=
  map (findall_item p s) (finditer p s (S (len s)) 0).

(** ** Building patterns *)

Fixpoint lit_chars (l : list ascii) : regex :=
  match l with
  | [] => Empty
  | [c] => Lit c
  | c :: l' => Seq (Lit c) (lit_chars l')
  end.

(** A run of literal characters. *)
Definition lit (w : string) : regex := lit_chars (chars w).

Fixpoint seq (rs : list regex) : regex :=
  match rs with
  | [] => Empty
  | [r] => r
  | r :: rs' => Seq r (seq rs')
  end.

Fixpoint alt (rs : list regex) : regex :=
  match rs with
  | [] => Empty
  | [r] => r
  | r :: rs' => Alt r (alt rs')
  end.

Definition star (r : regex) : regex := Repeat r 0 None.        (* r*  *)
Definition plus (r : regex) : regex := Repeat r 1 None.        (* r+  *)
Definition opt (r : regex) : regex := Repeat r 0 (Some 1).     (* r?  *)
Definition times (r : regex) (n : nat) : regex := Repeat r n (Some n).
Definition space : regex := CharSet false [SSpace].            (* \s *)
Definition digit : regex := CharSet false [SDigit].            (* \d *)
Definition one_of (cs : string) : regex :=                     (* [cs] *)
  CharSet false (map SChar (chars cs)).

(** Words separated by [\s+], as in [turn\s+off]. *)
Fixpoint phrase_of (ws : list string) : regex :=
  match ws with
  | [] => Empty
  | [w] => lit w
  | w :: ws' => Seq (lit w) (Seq (plus space) (phrase_of ws'))
  end.

(** An alternative [w1\s+w2...|...] written as lists of words. *)
Definition any_phrase (alts : list (list string)) : regex :=
  alt (map phrase_of alts).

(** An alternative of plain words [w1|w2|...]. *)
Definition any_word (ws : list string) : regex := alt (map lit ws).

(** Least number of characters a match of [r] spans. *)
Fixpoint min_width (r : regex) : nat :=
  match r with
  | Empty | WordBoundary => 0
  | Lit _ | Dot | CharSet _ _ => 1
  | Seq r1 r2 => min_width r1 + min_width r2
  | Alt r1 r2 => Nat.min (min_width r1) (min_width r2)
  | Repeat r1 lo _ => lo * min_width r1
  | Group _ r1 => min_width r1
  end.

(** [always_sets n r]: every match of [r] records the group [n]. *)
Fixpoint always_sets (n : nat) (r : regex) : bool :=
  match r with
  | Group k r1 => (n =? k) || always_sets n r1
  | Seq r1 r2 => always_sets n r1 || always_sets n r2
  | Alt r1 r2 => always_sets n r1 && always_sets n r2
  | Repeat r1 lo _ => (1 <=? lo) && always_sets n r1
  | _ => false
  end.


(** [repeats_consume r]: every repeated sub-pattern of [r] spans at
    least one character, so that the rule "a round must consume text"
    of [rounds] never cuts a repetition short. *)
Fixpoint repeats_consume (r : regex) : bool :=
  match r with
  | Repeat r1 _ _ => (1 <=? min_width r1) && repeats_consume r1
  | Seq r1 r2 | Alt r1 r2 => repeats_consume r1 && repeats_consume r2
  | Group _ r1 => repeats_consume r1
  | _ => true
  end.

(** ** Properties of matchers *)

(** A matcher [body] spans at least [w] characters and stays in [s]. *)
Definition spans (s : string) (w : nat)
  (body : nat -> captures -> list (nat * captures)) : Prop :=
  forall i caps m, i <= len s -> In m (body i caps) ->
    i + w <= fst m /\ fst m <= len s.

Definition is_set (n : nat) (caps : captures) : Prop :=
  exists sp, nth_error caps n = Some (Some sp).

(** A matcher keeps the number of groups and the groups already set,
    and when [sure] it sets group [n]. *)
Definition records (n : nat) (sure : bool)
  (body : nat -> captures -> list (nat * captures)) : Prop :=
  forall i caps m, In m (body i caps) ->
    length (snd m) = length caps
    /\ (is_set n caps -> is_set n (snd m))
    /\ (sure = true -> n < length caps -> is_set n (snd m)).

End Regex.

(* ================================================================== *)
(** * The pattern catalog ([EnhancedIntentRouter.__init__]) *)
(* ================================================================== *)

Module Catalog.

Import Regex.

(** [(w1|w2|...)] as capturing group [n]. *)
Definition G (n : nat) (ws : list string) : regex := Group n (any_word ws).

(** [(...)] with some alternatives of several words, as group [n]. *)
Definition GP (n : nat) (alts : list (list string)) : regex :=
  Group n (any_phrase alts).

(** [.*] *)
Definition anything : regex := star Dot.

(** [(.+)] as capturing group [n]. *)
Definition rest (n : nat) : regex := Group n (plus Dot).

(** [w1.*w2] and [w1.*w2.*w3] over capturing word groups. *)
Definition two (src : string) (a b : list string) : pattern :=
  Pattern src (seq [G 0 a; anything; G 1 b]) 2.

Definition three (src : string) (a b c : list string) : pattern :=
  Pattern src (seq [G 0 a; anything; G 1 b; anything; G 2 c]) 3.

(** [(w1|w2|...)] alone. *)
Definition one (src : string) (alts : list (list string)) : pattern :=
  Pattern src (GP 0 alts) 1.

(** [verb\s*[:.]?\s*(.+)] *)
Definition typed (src verb : string) : pattern :=
  Pattern src
    (seq [lit verb; star space; opt (one_of ":."); star space; rest 0]) 1.

(** [(\d+)\s*[,.]?\s*(\d+)], the two coordinates. *)
Definition coords : regex :=
  seq [Group 0 (plus digit); star space; opt (one_of ",."); star space;
       Group 1 (plus digit)].

(** [(?:word\s+)?] *)
Definition opt_word (w : string) : regex := opt (Seq (lit w) (plus space)).

(** [verb\s+(?:w1\s+)?(?:w2\s+)?...(\d+)\s*[,.]?\s*(\d+)] *)
Definition pointed (src verb : string) (fillers : list string) : pattern :=
  Pattern src
    (seq ([lit verb; plus space] ++ map opt_word fillers ++ [coords])) 2.

(** [verb\s+(.+)] *)
Definition launch (src verb : string) : pattern :=
  Pattern src (seq [lit verb; plus space; rest 0]) 1.

(** [(w1|w2)\s+(.+)] *)
Definition on_target (src : string) (verbs : list string) : pattern :=
  Pattern src (seq [G 0 verbs; plus space; rest 1]) 2.

(** [(a|b c).*(.+)] *)
Definition engine (src : string) (alts : list (list string)) : pattern :=
  Pattern src (seq [GP 0 alts; anything; rest 1]) 2.

Definition intent_patterns : list (string * list pattern) :=
  [ ("screen_read",
     [ three "(what|show|tell).*(on|in).*(screen|display)"
         ["what"; "show"; "tell"] ["on"; "in"] ["screen"; "display"];
       two "(read|scan).*(screen|display)"
         ["read"; "scan"] ["screen"; "display"];
       two "(what).*(see|visible)" ["what"] ["see"; "visible"];
       two "(screen|display).*(content|text|information)"
         ["screen"; "display"] ["content"; "text"; "information"] ]);
    ("webcam_analyze",
     [ three "(what|show|tell).*(see|visible).*(camera|webcam)"
         ["what"; "show"; "tell"] ["see"; "visible"] ["camera"; "webcam"];
       two "(analyze|check).*(camera|webcam|video)"
         ["analyze"; "check"] ["camera"; "webcam"; "video"];
       three "(who|what).*(front|back).*(camera)"
         ["who"; "what"] ["front"; "back"] ["camera"];
       two "(camera|webcam).*(scene|view)"
         ["camera"; "webcam"] ["scene"; "view"] ]);
    ("type_text",
     [ typed "type\s*[:.]?\s*(.+)" "type";
       typed "write\s*[:.]?\s*(.+)" "write";
       typed "enter\s*[:.]?\s*(.+)" "enter";
       typed "input\s*[:.]?\s*(.+)" "input" ]);
    ("click",
     [ pointed "click\s+(?:at\s+)?(\d+)\s*[,.]?\s*(\d+)" "click" ["at"];
       pointed "click\s+(?:position\s+)?(\d+)\s*[,.]?\s*(\d+)"
         "click" ["position"];
       pointed "click\s+(?:coordinates\s+)?(\d+)\s*[,.]?\s*(\d+)"
         "click" ["coordinates"] ]);
    ("move_mouse",
     [ pointed "move\s+(?:mouse\s+)?(?:to\s+)?(\d+)\s*[,.]?\s*(\d+)"
         "move" ["mouse"; "to"];
       pointed "position\s+(?:mouse\s+)?(?:at\s+)?(\d+)\s*[,.]?\s*(\d+)"
         "position" ["mouse"; "at"];
       pointed "go\s+(?:to\s+)?(\d+)\s*[,.]?\s*(\d+)" "go" ["to"] ]);
    ("search_web",
     [ Pattern "(search|find|look\s+up).*(?:for\s+)?(.+)"
         (seq [GP 0 [["search"]; ["find"]; ["look"; "up"]]; anything;
               opt_word "for"; rest 1]) 2;
       engine "(google|bing|search\s+engine).*(.+)"
         [["google"]; ["bing"]; ["search"; "engine"]];
       engine "(web\s+search|internet\s+search).*(.+)"
         [["web"; "search"]; ["internet"; "search"]] ]);
    ("open_app",
     [ launch "open\s+(.+)" "open";
       launch "launch\s+(.+)" "launch";
       launch "start\s+(.+)" "start";
       launch "run\s+(.+)" "run" ]);
    ("file_operation",
     [ Pattern "(create|make|new)\s+(file|document|folder).*(.+)"
         (seq [G 0 ["create"; "make"; "new"]; plus space;
               G 1 ["file"; "document"; "folder"]; anything; rest 2]) 3;
       on_target "(save|store)\s+(.+)" ["save"; "store"];
       on_target "(delete|remove)\s+(.+)" ["delete"; "remove"];
       on_target "(copy|duplicate)\s+(.+)" ["copy"; "duplicate"] ]);
    ("system_control",
     [ one "(shutdown|turn\s+off|power\s+down)"
         [["shutdown"]; ["turn"; "off"]; ["power"; "down"]];
       one "(restart|reboot)" [["restart"]; ["reboot"]];
       one "(sleep|suspend)" [["sleep"]; ["suspend"]];
       one "(volume|sound|mute|unmute)"
         [["volume"]; ["sound"]; ["mute"]; ["unmute"]];
       one "(brightness|screen\s+brightness)"
         [["brightness"]; ["screen"; "brightness"]] ]);
    ("memory_query",
     [ Pattern "(remember|recall|what\s+did).*(we\s+talk|conversation)"
         (seq [GP 0 [["remember"]; ["recall"]; ["what"; "did"]]; anything;
               GP 1 [["we"; "talk"]; ["conversation"]]]) 2;
       two "(history|past|previous).*(conversation|talk)"
         ["history"; "past"; "previous"] ["conversation"; "talk"];
       two "(memory|memories).*(search|find)"
         ["memory"; "memories"] ["search"; "find"] ]);
    ("preference_setting",
     [ two "(set|change|update).*(preference|setting)"
         ["set"; "change"; "update"] ["preference"; "setting"];
       two "(voice|speech|tts).*(rate|speed|volume)"
         ["voice"; "speech"; "tts"] ["rate"; "speed"; "volume"];
       two "(camera|webcam).*(resolution|quality)"
         ["camera"; "webcam"] ["resolution"; "quality"] ]);
    ("help_request",
     [ one "(help|assist|support)" [["help"]; ["assist"]; ["support"]];
       one "(what\s+can\s+you\s+do|capabilities|features)"
         [["what"; "can"; "you"; "do"]; ["capabilities"]; ["features"]];
       one "(how\s+to|instructions|guide)"
         [["how"; "to"]; ["instructions"]; ["guide"]] ]);
    ("general_chat",
     [ one "(hello|hi|hey|greetings)"
         [["hello"]; ["hi"]; ["hey"]; ["greetings"]];
       one "(how\s+are\s+you|how\s+you\s+doing)"
         [["how"; "are"; "you"]; ["how"; "you"; "doing"]];
       one "(thank\s+you|thanks|appreciate)"
         [["thank"; "you"]; ["thanks"]; ["appreciate"]];
       one "(goodbye|bye|see\s+you|later)"
         [["goodbye"]; ["bye"]; ["see"; "you"]; ["later"]] ]) ].

(** Entity extraction patterns. *)

Definition bounded (r : regex) : regex := seq [WordBoundary; r; WordBoundary].

Definition digits_between (lo hi : nat) : regex := Repeat digit lo (Some hi).

Definition entity_patterns : list (string * pattern) :=
  [ ("coordinates", Pattern "(\d+)\s*[,.]?\s*(\d+)" coords 2);
    ("url",
     Pattern "https?://[^\s]+"
       (seq [lit "http"; opt (lit "s"); lit "://";
             plus (CharSet true [SSpace])]) 0);
    ("email",
     Pattern "\b[A-Za-z0-9._%+-]+@[A-Za-z0-9.-]+\.[A-Z|a-z]{2,}\b"
       (bounded
          (seq [plus (CharSet false
                        ([SRange "A" "Z"; SRange "a" "z"; SRange "0" "9"]
                         ++ map SChar (chars "._%+-")));
                lit "@";
                plus (CharSet false
                        ([SRange "A" "Z"; SRange "a" "z"; SRange "0" "9"]
                         ++ map SChar (chars ".-")));
                lit ".";
                Repeat (CharSet false
                          [SRange "A" "Z"; SChar "|"; SRange "a" "z"])
                       2 None])) 0);
    ("phone",
     Pattern "\b\d{3}[-.]?\d{3}[-.]?\d{4}\b"
       (bounded
          (seq [times digit 3; opt (one_of "-."); times digit 3;
                opt (one_of "-."); times digit 4])) 0);
    ("time",
     Pattern "\b\d{1,2}:\d{2}\s*(?:AM|PM)?\b"
       (bounded
          (seq [digits_between 1 2; lit ":"; times digit 2; star space;
                opt (any_word ["AM"; "PM"])])) 0);
    ("date",
     Pattern "\b\d{1,2}[/-]\d{1,2}[/-]\d{2,4}\b"
       (bounded
          (seq [digits_between 1 2; one_of "/-"; digits_between 1 2;
                one_of "/-"; digits_between 2 4])) 0) ].

(** Confidence scoring weights. *)
Definition confidence_weights : list (string * Q) :=
  [ ("exact_match", 1 # 1); ("pattern_match", 8 # 10);
    ("keyword_match", 6 # 10); ("partial_match", 4 # 10) ]%Q.

Definition weight (tier : string) : Q :=
  match find (fun kw => String.eqb tier (fst kw)) confidence_weights with
  | Some kw => snd kw
  | None => 0
  end.

End Catalog.

(* ================================================================== *)
(** * The intent router and validator ([EnhancedIntentRouter]) *)
(* ================================================================== *)

Module Router.

Import Regex Catalog.

(** A [for] loop whose body may raise. *)
Fixpoint for_each {A S : Type} (body : S -> A -> result S) (l : list A) (st : S)
  : result S :=
  match l with
  | [] => Ok st
  | a :: l' => st' <- body st a ;; for_each body l' st'
  end.

(** ** [_check_exact_matches] *)

Definition exact_phrases : list (string * dict) :=
  [ ("what's on my screen", [("type", VStr "screen_read")]);
    ("read screen", [("type", VStr "screen_read")]);
    ("take screenshot", [("type", VStr "screen_read")]);
    ("what do you see", [("type", VStr "webcam_analyze")]);
    ("camera view", [("type", VStr "webcam_analyze")]);
    ("help", [("type", VStr "help_request")]);
    ("what can you do", [("type", VStr "help_request")]);
    ("goodbye", [("type", VStr "general_chat"); ("subtype", VStr "farewell")]);
    ("thank you", [("type", VStr "general_chat"); ("subtype", VStr "gratitude")]) ].

Definition _check_exact_matches (text : string) : option dict :=
  option_map snd (find (fun pi => String.eqb text (fst pi)) exact_phrases).

(** ** [_extract_intent_data] *)

(** [g.strip()] on a capture: [None] has no such method. *)
Definition strip_group (g : option string) : result string :=
  match g with
  | Some x => Ok (strip x)
  | None => Raise AttributeError
  end.

(** [int(g)] on a capture. *)
Definition int_group (g : option string) : result Z :=
  match g with
  | Some x => int_of_str x
  | None => Raise TypeError
  end.

(** [try: data['x'] = int(g0); data['y'] = int(g1)  except ValueError: pass] *)
Definition coordinates_data (g0 g1 : option string) (data : dict) : result dict :=
  match int_group g0 with
  | Ok x =>
      let data := dict_set "x" (VInt x) data in
      match int_group g1 with
      | Ok y => Ok (dict_set "y" (VInt y) data)
      | Raise ValueError => Ok data
      | Raise e => Raise e
      end
  | Raise ValueError => Ok data
  | Raise e => Raise e
  end.

Definition _extract_intent_data
  (intent_type : string) (groups : list (option string)) (text : string)
  : result dict :=
  let data : dict := [] in
  if String.eqb intent_type "type_text" then
    match groups with
    | g0 :: _ => t <- strip_group g0 ;; Ok (dict_set "text" (VStr t) data)
    | [] => Ok data
    end
  else if String.eqb intent_type "click" then
    match groups with
    | g0 :: g1 :: _ => coordinates_data g0 g1 data
    | _ => Ok data
    end
  else if String.eqb intent_type "move_mouse" then
    match groups with
    | g0 :: g1 :: _ => coordinates_data g0 g1 data
    | _ => Ok data
    end
  else if String.eqb intent_type "search_web" then
    match groups with
    | g0 :: gs => q <- strip_group (last gs g0) ;; Ok (dict_set "query" (VStr q) data)
    | [] => Ok data
    end
  else if String.eqb intent_type "open_app" then
    match groups with
    | g0 :: _ => a <- strip_group g0 ;; Ok (dict_set "app_name" (VStr a) data)
    | [] => Ok data
    end
  else if String.eqb intent_type "file_operation" then
    match groups with
    | g0 :: gs =>
        o <- strip_group g0 ;;
        let data := dict_set "operation" (VStr o) data in
        match gs with
        | g1 :: _ => t <- strip_group g1 ;; Ok (dict_set "target" (VStr t) data)
        | [] => Ok data
        end
    | [] => Ok data
    end
  else Ok data.

(** ** [_check_pattern_matches] *)

(** The dictionary [{'type': .., 'match': .., 'groups': ..}] kept in
    [best_match]. *)
Record candidate : Type := Candidate {
  c_type : string;
  c_match : string;
  c_groups : list (option string)
}.

Definition groups_value (gs : list (option string)) : value :=
  VTuple (map (fun g => match g with Some x => VStr x | None => VNone end) gs).

Definition candidate_dict (c : candidate) : dict :=
  [ ("type", VStr (c_type c)); ("match", VStr (c_match c));
    ("groups", groups_value (c_groups c)) ].

(** The loop state: [(best_match, best_confidence)]. *)
Definition best : Type := (option candidate * Q)%type.

(** The body of the inner loop, for one pattern of [intent_type]. *)
Definition try_pattern (text intent_type : string) (st : best) (pat : pattern)
  : result best :=
  match search pat text with
  | Some m =>
      confidence <- true_div (len (group0 text m)) (len text) ;;
      if Qlt_bool (snd st) confidence
      then Ok (Some (Candidate intent_type (group0 text m) (groups text m)),
               confidence)
      else Ok st
  | None => Ok st
  end.

(** Both loops, over an arbitrary catalog. *)
Definition best_pattern (catalog : list (string * list pattern)) (text : string)
  : result best :=
  for_each (fun st tp => for_each (try_pattern text (fst tp)) (snd tp) st)
           catalog (None, 0%Q).

Definition _check_pattern_matches (text : string) : result (option dict) :=
  st <- best_pattern intent_patterns text ;;
  match fst st with
  | Some best_match =>
      intent_data <-
        _extract_intent_data (c_type best_match) (c_groups best_match) text ;;
      Ok (Some (dict_update (candidate_dict best_match) intent_data))
  | None => Ok None
  end.

(** ** [_check_keyword_matches] *)

Definition keywords : list (string * list string) :=
  [ ("screen_read", ["screen"; "display"; "read"; "what"; "see"; "visible"]);
    ("webcam_analyze", ["camera"; "webcam"; "video"; "photo"; "picture"]);
    ("type_text", ["type"; "write"; "enter"; "input"; "text"]);
    ("click", ["click"; "tap"; "press"; "select"]);
    ("move_mouse", ["move"; "position"; "go"; "mouse"; "cursor"]);
    ("search_web", ["search"; "find"; "google"; "look"; "web"]);
    ("open_app", ["open"; "launch"; "start"; "run"; "app"; "program"]);
    ("file_operation", ["file"; "document"; "folder"; "save"; "delete"; "copy"]);
    ("system_control", ["shutdown"; "restart"; "volume"; "brightness"; "system"]);
    ("memory_query", ["remember"; "recall"; "history"; "memory"; "past"]);
    ("preference_setting",
     ["preference"; "setting"; "configure"; "voice"; "camera"]);
    ("help_request", ["help"; "assist"; "support"; "how"; "what"]);
    ("general_chat", ["hello"; "hi"; "how"; "thank"; "goodbye"; "bye"]) ].

(** The inner loop: how many of the keywords occur in [text]. *)
Definition keyword_count (text : string) (intent_keywords : list string) : nat :=
  fold_left (fun score keyword =>
               if contains keyword text then score + 1 else score)
            intent_keywords 0.

(** The loop state: [(best_intent, best_score)]. *)
Definition best_kw : Type := (option string * Q)%type.

Definition try_keywords (text : string) (st : best_kw)
  (entry : string * list string) : result best_kw :=
  let score := keyword_count text (snd entry) in
  if 0 <? score then
    normalized_score <- true_div score (length (snd entry)) ;;
    if Qlt_bool (snd st) normalized_score
    then Ok (Some (fst entry), normalized_score)
    else Ok st
  else Ok st.

Definition best_keyword (table : list (string * list string)) (text : string)
  : result best_kw :=
  for_each (try_keywords text) table (None, 0%Q).

(** The threshold [0.3]. *)
Definition keyword_threshold : Q := 3 # 10.

(** The function over an arbitrary keyword table. *)
Definition check_keywords (table : list (string * list string)) (text : string)
  : result (option dict) :=
  st <- best_keyword table text ;;
  match fst st with
  | Some best_intent =>
      if truthy (VStr best_intent) && Qlt_bool keyword_threshold (snd st)
      then Ok (Some [ ("type", VStr best_intent);
                      ("keyword_score", VNum (snd st)) ])
      else Ok None
  | None => Ok None
  end.

Definition _check_keyword_matches (text : string) : result (option dict) :=
  check_keywords keywords text.

(** ** [_extract_entities] *)

Definition _extract_entities (text : string) : dict :=
  fold_left (fun entities ep =>
               let found := findall (snd ep) text in
               if truthy (VList found)
               then dict_set (fst ep) (VList found) entities
               else entities)
            entity_patterns [].

(** ** [parse_intent] *)

(** [if d:] on an optional dictionary. *)
Definition present (o : option dict) : bool :=
  match o with
  | Some d => truthy (VDict d)
  | None => false
  end.

Definition the (o : option dict) : dict :=
  match o with Some d => d | None => [] end.

(** [now] stands for [datetime.now().isoformat()]. *)
Definition parse_intent (now : string) (text : string) : result dict :=
  let text := strip (lower text) in
  let result : dict :=
    [ ("type", VStr "unknown"); ("confidence", VNum 0);
      ("entities", VDict []); ("raw_text", VStr text);
      ("timestamp", VStr now) ] in
  let exact_intent := _check_exact_matches text in
  if present exact_intent then
    Ok (dict_set "confidence" (VNum (weight "exact_match"))
          (dict_update result (the exact_intent)))
  else
    pattern_intent <- _check_pattern_matches text ;;
    if present pattern_intent then
      Ok (dict_set "confidence" (VNum (weight "pattern_match"))
            (dict_update result (the pattern_intent)))
    else
      keyword_intent <- _check_keyword_matches text ;;
      if present keyword_intent then
        Ok (dict_set "confidence" (VNum (weight "keyword_match"))
              (dict_update result (the keyword_intent)))
      else
        Ok (dict_set "entities" (VDict (_extract_entities text)) result).

(** ** Static tables *)

Definition descriptions : list (string * string) :=
  [ ("screen_read", "Read and analyze screen content");
    ("webcam_analyze", "Analyze webcam feed");
    ("type_text", "Type text input");
    ("click", "Click at coordinates");
    ("move_mouse", "Move mouse cursor");
    ("search_web", "Search the web");
    ("open_app", "Open application");
    ("file_operation", "Perform file operations");
    ("system_control", "Control system settings");
    ("memory_query", "Query conversation history");
    ("preference_setting", "Change user preferences");
    ("help_request", "Request help or information");
    ("general_chat", "General conversation");
    ("unknown", "Unknown or unclear intent") ].

Definition lookup {A : Type} (k : string) (table : list (string * A)) : option A :=
  option_map snd (find (fun kv => String.eqb k (fst kv)) table).

(** [descriptions.get(intent_type, 'Unknown intent')]; a key that is
    not a string is never in the table, one that cannot be hashed
    raises. *)
Definition get_intent_description (intent_type : value) : result string :=
  if hashable intent_type then
    match intent_type with
    | VStr t => match lookup t descriptions with
                | Some d => Ok d
                | None => Ok "Unknown intent"
                end
    | _ => Ok "Unknown intent"
    end
  else Raise TypeError.

Definition suggestions : list (string * list string) :=
  [ ("screen_read",
     ["Take a screenshot"; "Extract text from screen"; "Analyze screen content"]);
    ("webcam_analyze",
     ["Capture webcam frame"; "Detect faces in view"; "Analyze scene content"]);
    ("type_text",
     ["Extract text to type"; "Confirm text content"; "Execute typing action"]);
    ("click",
     ["Validate coordinates"; "Execute click action"; "Provide feedback"]);
    ("help_request",
     ["Show available commands"; "Explain capabilities";
      "Provide usage examples"]) ].

Definition get_suggested_actions (intent_type : value) : result (list string) :=
  if hashable intent_type then
    match intent_type with
    | VStr t => match lookup t suggestions with
                | Some l => Ok l
                | None => Ok []
                end
    | _ => Ok []
    end
  else Raise TypeError.

(** ** [validate_intent] *)

Record validation : Type := Validation {
  is_valid : bool;
  warnings : list string;
  suggested : list string          (* the key 'suggestions' *)
}.

(** [v == 'name'] *)
Definition is_str (name : string) (v : value) : bool :=
  match v with
  | VStr t => String.eqb t name
  | _ => false
  end.

Definition is_none (v : value) : bool :=
  match v with VNone => true | _ => false end.

(** [0 <= x <= 3000 and 0 <= y <= 2000], evaluated left to right and
    no further than needed. *)
Definition within_screen (x y : value) : result bool :=
  a <- num_le_value 0 x ;;
  if negb a then Ok false else
  b <- value_le_num x (3000 # 1) ;;
  if negb b then Ok false else
  c <- num_le_value 0 y ;;
  if negb c then Ok false else
  value_le_num y (2000 # 1).

(** The checks before the suggestions are filled in:
    [(is_valid, warnings)]. *)
Definition check_intent (intent : dict) : result (bool * list string) :=
  let intent_type := get "type" intent in
  if is_str "click" intent_type then
    let x := get "x" intent in
    let y := get "y" intent in
    if is_none x || is_none y then
      Ok (false, ["Missing coordinates for click action"])
    else
      inside <- within_screen x y ;;
      if negb inside
      then Ok (true, ["Coordinates may be outside screen bounds"])
      else Ok (true, [])
  else if is_str "type_text" intent_type then
    let text := get_default "text" (VStr "") intent in
    if negb (truthy text) then
      Ok (false, ["No text specified for typing"])
    else
      n <- py_len text ;;
      if 1000 <? n
      then Ok (true, ["Text is very long, consider breaking it up"])
      else Ok (true, [])
  else if is_str "search_web" intent_type then
    let query := get_default "query" (VStr "") intent in
    if negb (truthy query)
    then Ok (false, ["No search query specified"])
    else Ok (true, [])
  else Ok (true, []).

(** The first component is the [intent] object as the call leaves it:
    the function only ever reads it with [intent.get]. *)
Definition validate_intent (intent : dict) : dict * result validation :=
  (intent,
   chk <- check_intent intent ;;
   sugg <- get_suggested_actions (get "type" intent) ;;
   Ok (Validation (fst chk) (snd chk) sugg)).

End Router.

(* ================================================================== *)
(** * The memory store ([EnhancedMemory]) *)
(* ================================================================== *)

Module Memory.

(** What [collection.get()] returns: three parallel lists. *)
Record get_results : Type := GetResults {
  g_ids : list string;
  g_documents : list string;
  g_metadatas : list dict
}.

(** What [collection.query()] returns: one inner list per query text. *)
Record query_results : Type := QueryResults {
  q_ids : list (list string);
  q_documents : list (list string);
  q_metadatas : list (list dict);
  q_distances : list (list Q)
}.

(** A memory as the read operations hand it out:
    [{'content', 'metadata', 'id'}], and ['distance'] from a search. *)
Record memory : Type := MemoryRec {
  content : string;
  metadata : dict;
  id : string;
  distance : option value
}.

(** An entry of the conversation buffer. *)
Record buffer_entry : Type := BufferEntry {
  b_content : string;
  b_metadata : dict;
  b_timestamp : Q                   (* time.time() *)
}.

(** The clock readings one [add_memory] call takes. *)
Record clock : Type := Clock {
  id_time : string;                 (* str(time.time()) in _generate_id *)
  now_iso : string;                 (* datetime.now().isoformat() *)
  buffer_time : Q                   (* time.time() in _add_to_buffer *)
}.

(** [l[i]] *)
Definition index {A : Type} (l : list A) (i : nat) : result A :=
  match nth_error l i with
  | Some a => Ok a
  | None => Raise IndexError
  end.

(** [for i, x in enumerate(l)] with a body that may raise, building a list. *)
Fixpoint collect {A B : Type} (body : nat -> A -> result (list B))
  (i : nat) (l : list A) : result (list B) :=
  match l with
  | [] => Ok []
  | a :: l' =>
      here <- body i a ;;
      rest <- collect body (S i) l' ;;
      Ok (here ++ rest)
  end.

(** [a < b] between two sort keys: strings with strings, numbers with
    numbers, anything else raises [TypeError]. *)
Definition value_lt (a b : value) : result bool :=
  match a, b with
  | VStr x, VStr y => Ok (String.ltb x y)
  | _, _ =>
      match as_number a, as_number b with
      | Some p, Some q => Ok (Qlt_bool p q)
      | _, _ => Raise TypeError
      end
  end.

Section Sorting.

Variable A : Type.
Variable key : A -> value.

(** [x] goes in front of the first element whose key is not greater. *)
Fixpoint insert_desc (x : A) (l : list A) : result (list A) :=
  match l with
  | [] => Ok [x]
  | y :: l' =>
      smaller <- value_lt (key x) (key y) ;;
      if smaller
      then rest <- insert_desc x l' ;; Ok (y :: rest)
      else Ok (x :: y :: l')
  end.

(** [l.sort(key=key, reverse=True)]: the sort is stable, so its result
    is the one this insertion sort builds; a comparison that raises
    makes the whole sort raise. *)
Fixpoint sort_desc (l : list A) : result (list A) :=
  match l with
  | [] => Ok []
  | x :: l' => sorted <- sort_desc l' ;; insert_desc x sorted
  end.

End Sorting.

(** The state of an [EnhancedMemory] object (the fields its methods
    use); [C] is the type of collection handles. *)
Record store (C : Type) : Type := Store {
  collection : option C;
  conversation_buffer : list buffer_entry;
  max_buffer_size : Z
}.

Arguments Store {C} _ _ _.
Arguments collection {C} _.
Arguments conversation_buffer {C} _.
Arguments max_buffer_size {C} _.

(** The ChromaDB collection: an external service with a state of its
    own ([W]).  A call may raise; [add] may leave the service in any
    state, whether it raises or not. *)
Record backend (C W : Type) : Type := Backend {
  coll_add : C -> W -> string -> dict -> string -> option (list Q)
             -> W * result unit;
  coll_query : C -> W -> string -> Z -> option dict -> result query_results;
  coll_get : C -> W -> result get_results;
  md5_hex : string -> string        (* hashlib.md5(..).hexdigest() *)
}.

Section Store.

Variables C W : Type.
Variable db : backend C W.

Definition _generate_id (ck : clock) (content category : string) : string :=
  let timestamp := id_time ck in
  let content_hash := prefix_to 8 (md5_hex db content) in
  category ^^ "_" ^^ timestamp ^^ "_" ^^ content_hash.

Definition _add_to_buffer (st : store C) (ck : clock)
  (content : string) (metadata : dict) : store C :=
  let buf := conversation_buffer st
             ++ [BufferEntry content metadata (buffer_time ck)] in
  if (max_buffer_size st <? Z.of_nat (length buf))%Z
  then Store (collection st) (slice_from (- max_buffer_size st) buf)
             (max_buffer_size st)
  else Store (collection st) buf (max_buffer_size st).

(** [if d:] on an optional argument. *)
Definition given_dict (o : option dict) : bool :=
  match o with Some d => truthy (VDict d) | None => false end.

Definition given_str (o : option string) : bool :=
  match o with Some x => truthy (VStr x) | None => false end.

(** [[embedding] if embedding else None] *)
Definition embeddings_arg (e : option (list Q)) : option (list Q) :=
  match e with
  | Some (x :: l) => Some (x :: l)
  | _ => None
  end.

(** [add_memory]: the new state of the object, the new state of the
    service, and the returned id ([None] is Python's [None]). *)
Definition add_memory (st : store C) (w : W) (ck : clock)
  (content category : string) (metadata : option dict)
  (embedding : option (list Q)) : store C * W * option string :=
  match collection st with
  | None => (st, w, None)
  | Some c =>
      let memory_id := _generate_id ck content category in
      let meta : dict :=
        [ ("category", VStr category); ("timestamp", VStr (now_iso ck));
          ("content_length", VInt (Z.of_nat (len content))) ] in
      let meta :=
        if given_dict metadata
        then dict_update meta (match metadata with Some d => d | None => [] end)
        else meta in
      match coll_add db c w content meta memory_id (embeddings_arg embedding) with
      | (w', Ok _) =>
          let st' :=
            if String.eqb category "conversation"
            then _add_to_buffer st ck content meta
            else st in
          (st', w', Some memory_id)
      | (w', Raise _) => (st, w', None)
      end
  end.

(** The formatting loop of [search_memories]. *)
Definition format_results (results : query_results) : result (list memory) :=
  match q_documents results with
  | docs0 :: _ =>
      if truthy (VList (map VStr docs0)) then
        collect (fun i doc =>
                   metas0 <- index (q_metadatas results) 0 ;;
                   meta <- index metas0 i ;;
                   ids0 <- index (q_ids results) 0 ;;
                   the_id <- index ids0 i ;;
                   dist <-
                     (if truthy (VList (map (fun _ => VNone) (q_distances results)))
                      then d0 <- index (q_distances results) 0 ;;
                           d <- index d0 i ;;
                           Ok (VNum d)
                      else Ok VNone) ;;
                   Ok [MemoryRec doc meta the_id (Some dist)])
                0 docs0
      else Ok []
  | [] => Ok []
  end.

Definition search_memories (st : store C) (w : W)
  (query : string) (category : option string) (n_results : Z) : list memory :=
  match collection st with
  | None => []
  | Some c =>
      let where_clause :=
        if given_str category
        then Some [("category",
                    VStr (match category with Some x => x | None => "" end))]
        else None in
      match (results <- coll_query db c w query n_results where_clause ;;
             format_results results) with
      | Ok memories => memories
      | Raise _ => []
      end
  end.

(** The sort key of [get_recent_memories]. *)
Definition timestamp_of (m : memory) : value :=
  get_default "timestamp" (VStr "") (metadata m).

(** [meta.get('category') == category] *)
Definition has_category (category : string) (meta : dict) : bool :=
  match get "category" meta with
  | VStr c => String.eqb c category
  | _ => false
  end.

(** The two ways [get_recent_memories] gathers the entries. *)
Definition gather (results : get_results) (category : option string)
  : result (list memory) :=
  if given_str category then
    let cat := match category with Some x => x | None => "" end in
    collect (fun i meta =>
               if has_category cat meta then
                 doc <- index (g_documents results) i ;;
                 the_id <- index (g_ids results) i ;;
                 Ok [MemoryRec doc meta the_id None]
               else Ok [])
            0 (g_metadatas results)
  else
    collect (fun i _ =>
               doc <- index (g_documents results) i ;;
               meta <- index (g_metadatas results) i ;;
               the_id <- index (g_ids results) i ;;
               Ok [MemoryRec doc meta the_id None])
            0 (g_documents results).

Definition get_recent_memories (st : store C) (w : W)
  (category : option string) (limit : Z) : list memory :=
  match collection st with
  | None => []
  | Some c =>
      match (results <- coll_get db c w ;;
             memories <- gather results category ;;
             sorted <- sort_desc timestamp_of memories ;;
             Ok (slice_to limit sorted)) with
      | Ok memories => memories
      | Raise _ => []
      end
  end.

(** [f"- {text[:200]}..."] *)
Definition preview (text : string) : string :=
  "- " ^^ prefix_to 200 text ^^ "...".

Definition nl : string := String Regex.newline EmptyString.

Definition get_context_for_conversation (st : store C) (w : W)
  (current_query : string) (max_context : Z) : string :=
  let relevant_memories :=
    search_memories st w current_query (Some "conversation") max_context in
  let recent_buffer :=
    if truthy (VList (map (fun _ => VNone) (conversation_buffer st)))
    then slice_from (- max_context) (conversation_buffer st)
    else [] in
  let context_parts : list string := [] in
  let context_parts :=
    if truthy (VList (map (fun _ => VNone) relevant_memories))
    then (context_parts ++ ["Relevant past conversations:"])
           ++ map (fun m => preview (content m)) relevant_memories
    else context_parts in
  let context_parts :=
    if truthy (VList (map (fun _ => VNone) recent_buffer))
    then (context_parts ++ [nl ^^ "Recent conversation:"])
           ++ map (fun e => preview (b_content e)) recent_buffer
    else context_parts in
  if truthy (VList (map VStr context_parts))
  then join nl context_parts
  else "".

(** [add_conversation]: two [add_memory] calls, each with its own
    clock readings. *)
Definition add_conversation (st : store C) (w : W) (ck1 ck2 : clock)
  (user_input assistant_response : string) : store C * W :=
  let '(st1, w1, _) :=
    add_memory st w ck1 ("User: " ^^ user_input) "conversation"
      (Some [("speaker", VStr "user"); ("turn", VStr "input")]) None in
  let '(st2, w2, _) :=
    add_memory st1 w1 ck2 ("Assistant: " ^^ assistant_response) "conversation"
      (Some [("speaker", VStr "assistant"); ("turn", VStr "response")]) None in
  (st2, w2).

End Store.

End Memory.

(* ================================================================== *)
(** * The context composer ([EnhancedJarvis._build_context]) *)
(* ================================================================== *)

Module Composer.

Import Memory.

Definition no_feed : string := "No webcam feed available".

Section Composer.

Variables C W : Type.
Variable db : backend C W.

(** [webcam] is [None] when the assistant has no webcam object, and
    otherwise holds what [get_scene_description()] answers; [tool_result]
    is [None] or the string the executed tool returned. *)
Definition _build_context (st : store C) (w : W) (webcam : option string)
  (user_input : string) (intent : dict) (tool_result : option string)
  : result string :=
  let context_parts : list string := [] in
  let memory_context := get_context_for_conversation db st w user_input 5 in
  let context_parts :=
    if truthy (VStr memory_context)
    then context_parts ++ ["Memory Context:" ^^ nl ^^ memory_context]
    else context_parts in
  let context_parts :=
    match webcam with
    | Some webcam_context =>
        if negb (Router.is_str "webcam_analyze" (get "type" intent))
        then
          if negb (String.eqb webcam_context no_feed)
          then context_parts ++ ["Current Webcam: " ^^ webcam_context]
          else context_parts
        else context_parts
    | None => context_parts
    end in
  let context_parts :=
    if given_str tool_result
    then context_parts
           ++ ["Tool Result: " ^^ match tool_result with Some x => x | None => "" end]
    else context_parts in
  intent_desc <-
    Router.get_intent_description (get_default "type" (VStr "unknown") intent) ;;
  let context_parts := context_parts ++ ["Detected Intent: " ^^ intent_desc] in
  Ok (join (nl ^^ nl) context_parts).

End Composer.

End Composer.

(* ================================================================== *)
(** * Vocabulary of the specification *)
(* ================================================================== *)

Module Spec.

Import Regex Catalog Router.

(** The normalized text: lower-cased and trimmed. *)
Definition normalize (text : string) : string := strip (lower text).

(** The patterns of a catalog in the order the two loops visit them,
    each with its intent. *)
Definition flat_patterns (catalog : list (string * list pattern))
  : list (string * pattern) :=
  flat_map (fun tp => map (pair (fst tp)) (snd tp)) catalog.

(** [len(match)/len(text)] for a pattern that matches [text]. *)
Definition match_ratio (text : string) (p : pattern) : option Q :=
  match search p text with
  | Some m => Some (Z.of_nat (len (group0 text m)) # Pos.of_nat (len text))
  | None => None
  end.

(** The normalized keyword score of one entry of a keyword table. *)
Definition keyword_score (text : string) (entry : string * list string) : Q :=
  Z.of_nat (keyword_count text (snd entry)) # Pos.of_nat (length (snd entry)).

(** [first_best score l k x q]: the [k]-th element [x] of [l] has the
    score [q], no element has a higher one, and no earlier element has
    the same. *)
Definition first_best {X : Type} (score : X -> option Q) (l : list X)
  (k : nat) (x : X) (q : Q) : Prop :=
  nth_error l k = Some x /\ score x = Some q /\
  forall j y q', nth_error l j = Some y -> score y = Some q' ->
    (q' <= q)%Q /\ ((q' == q)%Q -> k <= j).

(** The record [r] is classified as [ty] with confidence [c]. *)
Definition classified (r : dict) (ty : string) (c : Q) : Prop :=
  get "type" r = VStr ty /\ get "confidence" r = VNum c.

(** The keys under which the router stores intent-specific slots. *)
Definition slot_names : list string :=
  ["text"; "x"; "y"; "query"; "app_name"; "operation"; "target"].

Definition no_slots (r : dict) : Prop :=
  forall k, In k slot_names -> dict_get k r = None.

(** The possible contents of the dictionary [_extract_intent_data]
    returns. *)
Inductive slot_data : dict -> Prop :=
| slots_none : slot_data []
| slots_text v : slot_data [("text", v)]
| slots_x v : slot_data [("x", v)]
| slots_xy vx vy : slot_data [("x", vx); ("y", vy)]
| slots_query v : slot_data [("query", v)]
| slots_app v : slot_data [("app_name", v)]
| slots_operation v : slot_data [("operation", v)]
| slots_operation_target vo vt : slot_data [("operation", vo); ("target", vt)].

(** The record [parse_intent] starts from. *)
Definition blank (now text : string) : dict :=
  [ ("type", VStr "unknown"); ("confidence", VNum 0);
    ("entities", VDict []); ("raw_text", VStr text);
    ("timestamp", VStr now) ].

(** Where the scan for the next match resumes after [m]. *)
Definition resume (m : rmatch) : nat :=
  if m_start m <? m_end m then m_end m else S (m_end m).

(** [successive p s pos ms]: [ms] are the matches of [p] in [s] from
    position [pos] on, each the leftmost one after the one before, none
    overlapping the one before. *)
Inductive successive (p : pattern) (s : string) : nat -> list rmatch -> Prop :=
| successive_end pos :
    (forall i, pos <= i <= len s -> match_at p s i = None) ->
    successive p s pos []
| successive_next pos m ms :
    pos <= m_start m -> m_start m <= m_end m -> m_end m <= len s ->
    (forall i, pos <= i < m_start m -> match_at p s i = None) ->
    match_at p s (m_start m) = Some m ->
    successive p s (resume m) ms ->
    successive p s pos (m :: ms).

(** C1: what the pattern tier answers for [text]. *)
Definition pattern_tier_picks (now text : string) : Prop :=
  let t := normalize text in
  exists r k ty p m q,
    parse_intent now text = Ok r
    /\ search p t = Some m
    /\ first_best (fun x => match_ratio t (snd x))
         (flat_patterns intent_patterns) k (ty, p) q
    /\ get "type" r = VStr ty
    /\ get "match" r = VStr (group0 t m)
    /\ get "confidence" r = VNum (8 # 10).


(** C3: the record of the fallback. *)
Definition fallback_record (now text : string) : Prop :=
  let t := normalize text in
  exists r entities,
    parse_intent now text = Ok r
    /\ classified r "unknown" 0
    /\ no_slots r
    /\ get "raw_text" r = VStr t
    /\ get "entities" r = VDict entities
    /\ (forall name, ~ In name (map fst entity_patterns) ->
          dict_get name entities = None)
    /\ (forall name p, In (name, p) entity_patterns ->
          exists ms, successive p t 0 ms
            /\ dict_get name entities
               = match ms with
                 | [] => None
                 | _ => Some (VList (map (findall_item p t) ms))
                 end).

(** C4: the record of the exact-match tier for the table entry [intent]. *)
Definition exact_tier_answers (now text : string) (intent : dict) : Prop :=
  exists r,
    parse_intent now text = Ok r
    /\ get "type" r = get "type" intent
    /\ dict_get "subtype" r = dict_get "subtype" intent
    /\ get "confidence" r = VNum 1
    /\ dict_get "match" r = None
    /\ dict_get "keyword_score" r = None.

(** Some tier classified the normalized text [t]. *)
Definition some_tier_answers (t : string) : Prop :=
  _check_exact_matches t <> None
  \/ _check_pattern_matches t <> Ok None
  \/ _check_keyword_matches t <> Ok None.


(** ** The loops of the tiers, step by step *)

(** One round of "keep the candidate if it scores strictly higher". *)
Definition keep {X K : Type} (score : X -> option Q) (mk : X -> K)
  (st : option K * Q) (x : X) : option K * Q :=
  match score x with
  | Some c => if Qlt_bool (snd st) c then (Some (mk x), c) else st
  | None => st
  end.

(** The score and the candidate of a pattern in the pattern loop. *)
Definition score_of (text : string) (x : string * pattern) : option Q :=
  match_ratio text (snd x).

Definition candidate_of (text : string) (x : string * pattern) : candidate :=
  match search (snd x) text with
  | Some m => Candidate (fst x) (group0 text m) (groups text m)
  | None => Candidate (fst x) "" []
  end.

(** No capture is [None]. *)
Definition all_set (gs : list (option string)) : Prop :=
  Forall (fun g => g <> None) gs.

(** The score the loop gives an entry, when it gives one. *)
Definition counted (text : string) (entry : string * list string) : option Q :=
  if 0 <? keyword_count text (snd entry)
  then Some (keyword_score text entry)
  else None.

(** The normalized score of every entry, counted or not. *)
Definition total_score (text : string) (entry : string * list string)
  : option Q := Some (keyword_score text entry).

(** The body of the loop of [_extract_entities]. *)
Definition entity_step (text : string) (entities : dict)
  (ep : string * pattern) : dict :=
  let found := findall (snd ep) text in
  if truthy (VList found)
  then dict_set (fst ep) (VList found) entities
  else entities.

(** The four ways [parse_intent] ends; it never raises. *)
Inductive outcome (now t : string) : result dict -> Prop :=
| by_exact d :
    _check_exact_matches t = Some d -> In (t, d) exact_phrases ->
    outcome now t
      (Ok (dict_set "confidence" (VNum 1) (dict_update (blank now t) d)))
| by_pattern c data :
    _check_exact_matches t = None ->
    _check_pattern_matches t
    = Ok (Some (dict_update (candidate_dict c) data)) ->
    slot_data data ->
    In (c_type c) (map fst (flat_patterns intent_patterns)) ->
    outcome now t
      (Ok (dict_set "confidence" (VNum (8 # 10))
             (dict_update (blank now t)
                (dict_update (candidate_dict c) data))))
| by_keyword k entry q :
    _check_exact_matches t = None ->
    _check_pattern_matches t = Ok None ->
    first_best (total_score t) keywords k entry q ->
    (keyword_threshold < q)%Q ->
    _check_keyword_matches t
    = Ok (Some [("type", VStr (fst entry)); ("keyword_score", VNum q)]) ->
    outcome now t
      (Ok (dict_set "confidence" (VNum (6 # 10))
             (dict_update (blank now t)
                [("type", VStr (fst entry)); ("keyword_score", VNum q)])))
| by_fallback k entry q :
    _check_exact_matches t = None ->
    _check_pattern_matches t = Ok None ->
    first_best (total_score t) keywords k entry q ->
    (q < keyword_threshold)%Q ->
    _check_keyword_matches t = Ok None ->
    outcome now t
      (Ok (dict_set "entities" (VDict (_extract_entities t)) (blank now t))).

(** ** The validator *)

Definition bounds_warning : string := "Coordinates may be outside screen bounds".

(** The box x in [0,3000], y in [0,2000]. *)
Definition on_screen (qx qy : Q) : Prop :=
  (0 <= qx /\ qx <= 3000 # 1)%Q /\ (0 <= qy /\ qy <= 2000 # 1)%Q.

End Spec.

(* ================================================================== *)
(** * A stand-in for the collection service *)
(* ================================================================== *)

(** The ChromaDB collection is outside the program.  To run the store
    on concrete inputs it is replaced by a list of entries ([db]), or by
    a service whose every call raises ([down]). *)

Module ListDb.

Import Memory.

Record entry : Type := Entry {
  e_id : string;
  e_document : string;
  e_metadata : dict
}.

Definition world : Type := list entry.

Definition same_str (a b : value) : bool :=
  match a, b with
  | VStr x, VStr y => String.eqb x y
  | _, _ => false
  end.

Definition satisfies (where_clause : option dict) (e : entry) : bool :=
  match where_clause with
  | None => true
  | Some w =>
      forallb (fun kv => same_str (get (fst kv) (e_metadata e)) (snd kv)) w
  end.

Definition list_add (c : unit) (w : world) (document : string) (meta : dict)
  (the_id : string) (embedding : option (list Q)) : world * result unit :=
  (w ++ [Entry the_id document meta], Ok tt).

Definition list_query (c : unit) (w : world) (query : string) (n_results : Z)
  (where_clause : option dict) : result query_results :=
  let hits := firstn (Z.to_nat n_results) (filter (satisfies where_clause) w) in
  Ok (QueryResults [map e_id hits] [map e_document hits]
        [map e_metadata hits] [map (fun _ => 0%Q) hits]).

Definition list_get (c : unit) (w : world) : result get_results :=
  Ok (GetResults (map e_id w) (map e_document w) (map e_metadata w)).

Definition no_md5 (text : string) : string := "00000000000000000000000000000000".

Definition db : backend unit world :=
  Backend list_add list_query list_get no_md5.

Definition out_of_service : exn := BackendError "collection unavailable".

Definition down : backend unit world :=
  Backend (fun _ w _ _ _ _ => (w, Raise out_of_service))
          (fun _ _ _ _ _ => Raise out_of_service)
          (fun _ _ => Raise out_of_service)
          no_md5.

(** A fresh [EnhancedMemory] over a collection that initialized. *)
Definition fresh (capacity : Z) : store unit := Store (Some tt) [] capacity.

(** One whose collection failed to initialize. *)
Definition unavailable (capacity : Z) : store unit := Store None [] capacity.

Definition tick (n : nat) : clock :=
  Clock ("17000000" ^^ String (ascii_of_nat (48 + n)) "" ^^ ".0")
        ("2024-05-01T10:00:0" ^^ String (ascii_of_nat (48 + n)) "")
        ((170000000 + Z.of_nat n)%Z # 1).

(** A collection that lists its entries out of order. *)
Definition three_entries : world :=
  [ Entry "a" "second"
      [("category", VStr "conversation"); ("timestamp", VStr "2024-05-01T10:00:02")];
    Entry "b" "note"
      [("category", VStr "observation"); ("timestamp", VStr "2024-05-01T10:00:09")];
    Entry "c" "third"
      [("category", VStr "conversation"); ("timestamp", VStr "2024-05-01T10:00:03")];
    Entry "d" "first"
      [("category", VStr "conversation"); ("timestamp", VStr "2024-05-01T10:00:01")] ].

(** Two conversation memories with the same time stamp. *)
Definition twins : world :=
  [ Entry "a" "one"
      [("category", VStr "conversation"); ("timestamp", VStr "2024-05-01T10:00:00")];
    Entry "b" "two"
      [("category", VStr "conversation"); ("timestamp", VStr "2024-05-01T10:00:00")] ].

End ListDb.

(* ================================================================== *)
(** * Vocabulary of the specification: the memory store *)
(* ================================================================== *)

Module MemorySpec.

Import Memory.

(** Newest first: no entry is older than one that comes after it. *)
Definition descending (l : list memory) : Prop :=
  forall i j a b, i < j ->
    nth_error l i = Some a -> nth_error l j = Some b ->
    value_lt (timestamp_of a) (timestamp_of b) = Ok false.

(** With distinct timestamp strings the order is strict. *)
Definition strictly_descending (l : list memory) : Prop :=
  forall i j a b x y, i < j ->
    nth_error l i = Some a -> nth_error l j = Some b ->
    timestamp_of a = VStr x -> timestamp_of b = VStr y -> x <> y ->
    String.ltb y x = true.

(** [m] is an entry of what the collection returned. *)
Definition among (results : get_results) (m : memory) : Prop :=
  exists i,
    nth_error (g_documents results) i = Some (content m)
    /\ nth_error (g_metadatas results) i = Some (metadata m)
    /\ nth_error (g_ids results) i = Some (id m).

(** The [where] argument [search_memories] passes for a category. *)
Definition where_of (category : option string) : option dict :=
  if given_str category
  then Some [("category",
              VStr (match category with Some x => x | None => "" end))]
  else None.

(** The last [n] elements. *)
Definition last_n {A : Type} (n : nat) (l : list A) : list A :=
  skipn (length l - n) l.

(** The trimming step of [_add_to_buffer]. *)
Definition trim (capacity : Z) (buf : list buffer_entry) : list buffer_entry :=
  if (capacity <? Z.of_nat (length buf))%Z
  then slice_from (- capacity) buf
  else buf.

(** [a] is not below [b] in the order of the sort keys. *)
Definition not_below {A : Type} (key : A -> value) (a b : A) : Prop :=
  value_lt (key a) (key b) = Ok false.

(** The entries of an answer of the collection, in the order in which
    it lists them. *)
Fixpoint entries_of (docs : list string) (metas : list dict)
  (ids : list string) : list memory :=
  match docs, metas, ids with
  | d :: ds, m :: ms, i :: rest =>
      MemoryRec d m i None :: entries_of ds ms rest
  | _, _, _ => []
  end.

Definition entries (results : get_results) : list memory :=
  entries_of (g_documents results) (g_metadatas results) (g_ids results).

(** The three lists of an answer have the same length, as those of a
    real collection do. *)
Definition aligned (results : get_results) : Prop :=
  length (g_metadatas results) = length (g_documents results)
  /\ length (g_ids results) = length (g_documents results).

(** Every time stamp of the answer is a string, or missing (the sort
    key is then the empty string). *)
Definition timed (results : get_results) : Prop :=
  Forall (fun meta => exists t, get_default "timestamp" (VStr "") meta = VStr t)
         (g_metadatas results).

(** The entries the caller asks for: all of them without a category
    (or with the empty one), those of the category otherwise. *)
Definition in_category (category : option string) (m : memory) : bool :=
  match category with
  | None => true
  | Some c =>
      if String.eqb c "" then true
      else match get "category" (metadata m) with
           | VStr x => String.eqb x c
           | _ => false
           end
  end.

Definition wanted (category : option string) (results : get_results)
  : list memory :=
  filter (in_category category) (entries results).

(** The elements whose sort key is the string [t]. *)
Definition keyed {A : Type} (key : A -> value) (t : string) (a : A) : bool :=
  match key a with
  | VStr x => String.eqb x t
  | _ => false
  end.

(** The claim's order, read to the letter: every entry is strictly
    newer than the ones after it. *)
Definition strictly_newest_first (l : list memory) : Prop :=
  forall i j a b, i < j ->
    nth_error l i = Some a -> nth_error l j = Some b ->
    value_lt (timestamp_of b) (timestamp_of a) = Ok true.

(** The arguments of one [add_memory] call. *)
Record call : Type := Call {
  k_clock : clock;
  k_content : string;
  k_category : string;
  k_metadata : option dict;
  k_embedding : option (list Q)
}.

Section Runs.

Variables C W : Type.
Variable db : backend C W.

Definition add_call (st : store C) (w : W) (k : call)
  : store C * W * option string :=
  add_memory db st w (k_clock k) (k_content k) (k_category k)
    (k_metadata k) (k_embedding k).

(** A sequence of [add_memory] calls. *)
Fixpoint run (st : store C) (w : W) (calls : list call) : store C * W :=
  match calls with
  | [] => (st, w)
  | k :: ks => run (fst (fst (add_call st w k))) (snd (fst (add_call st w k))) ks
  end.

(** The metadata [add_memory] stores for a call. *)
Definition stored_meta (k : call) : dict :=
  let meta : dict :=
    [ ("category", VStr (k_category k)); ("timestamp", VStr (now_iso (k_clock k)));
      ("content_length", VInt (Z.of_nat (len (k_content k)))) ] in
  if given_dict (k_metadata k)
  then dict_update meta (match k_metadata k with Some d => d | None => [] end)
  else meta.

(** The buffer entries a sequence of calls produces, oldest first: one
    for each conversation memory the collection accepted. *)
Fixpoint produced (st : store C) (w : W) (calls : list call) : list buffer_entry :=
  match calls with
  | [] => []
  | k :: ks =>
      (match snd (add_call st w k) with
       | Some _ =>
           if String.eqb (k_category k) "conversation"
           then [BufferEntry (k_content k) (stored_meta k) (buffer_time (k_clock k))]
           else []
       | None => []
       end)
      ++ produced (fst (fst (add_call st w k))) (snd (fst (add_call st w k))) ks
  end.

(** The two calls of [add_conversation]. *)
Definition conversation_calls (ck1 ck2 : clock)
  (user_input assistant_response : string) : list call :=
  [ Call ck1 ("User: " ^^ user_input) "conversation"
      (Some [("speaker", VStr "user"); ("turn", VStr "input")]) None;
    Call ck2 ("Assistant: " ^^ assistant_response) "conversation"
      (Some [("speaker", VStr "assistant"); ("turn", VStr "response")]) None ].

End Runs.

End MemorySpec.

(* ================================================================== *)
(** * Vocabulary of the specification: the composed context *)
(* ================================================================== *)

Module ComposerSpec.

Import Memory MemorySpec Composer.

(** A turn that typed text, and a webcam observation. *)
Definition typing_turn : dict := [("type", VStr "type_text"); ("text", VStr "hi")].

Definition lit_scene : string := "Webcam scene: Scene has normal lighting. ".

Section Sections.

Variables C W : Type.
Variable db : backend C W.

(** (1) The relevant past conversation memories, under their header. *)
Definition relevant_lines (st : store C) (w : W) (user_input : string)
  : list string :=
  match search_memories db st w user_input (Some "conversation") 5 with
  | [] => []
  | found =>
      "Relevant past conversations:" :: map (fun m => preview (content m)) found
  end.

(** (2) The five most recent entries of the buffer, under their header. *)
Definition recent_lines (st : store C) : list string :=
  match last_n 5 (conversation_buffer st) with
  | [] => []
  | entries =>
      (nl ^^ "Recent conversation:") :: map (fun e => preview (b_content e)) entries
  end.

(** (1) and (2) together: one section, left out when both are empty. *)
Definition memory_section (st : store C) (w : W) (user_input : string)
  : list string :=
  match relevant_lines st w user_input ++ recent_lines st with
  | [] => []
  | lines => ["Memory Context:" ^^ nl ^^ join nl lines]
  end.

(** (3) The live webcam observation, as the code appends it: only with
    a webcam, on a turn that is not [webcam_analyze], and when the
    observation is not the sentinel. *)
Definition webcam_section (webcam : option string) (intent : dict)
  : list string :=
  match webcam with
  | Some observation =>
      if Router.is_str "webcam_analyze" (get "type" intent) then []
      else if String.eqb observation no_feed then []
      else ["Current Webcam: " ^^ observation]
  | None => []
  end.

(** The result of the tool the turn ran, when there is one. *)
Definition tool_section (tool_result : option string) : list string :=
  match tool_result with
  | Some text => if String.eqb text "" then [] else ["Tool Result: " ^^ text]
  | None => []
  end.

(** (4) The description of the detected intent. *)
Definition intent_section (description : string) : list string :=
  ["Detected Intent: " ^^ description].

(** (3) as the claim words it: the observation, unless it is absent. *)
Definition claimed_webcam_section (webcam : option string) : list string :=
  match webcam with
  | Some observation =>
      if String.eqb observation no_feed || String.eqb observation "" then []
      else ["Current Webcam: " ^^ observation]
  | None => []
  end.

(** The context as the claim words it: the sections (1) to (4), in
    that order, the empty ones left out. *)
Definition claimed_context (st : store C) (w : W) (webcam : option string)
  (user_input description : string) : string :=
  join (nl ^^ nl)
    (memory_section st w user_input ++ claimed_webcam_section webcam
     ++ intent_section description).

(** The context as the code composes it: the tool result comes
    between the webcam observation and the intent. *)
Definition composed_context (st : store C) (w : W) (webcam : option string)
  (user_input : string) (intent : dict) (tool_result : option string)
  (description : string) : string :=
  join (nl ^^ nl)
    (memory_section st w user_input ++ webcam_section webcam intent
     ++ tool_section tool_result ++ intent_section description).

End Sections.

End ComposerSpec.

(* ================================================================== *)
(** * The executor ([EnhancedJarvis._execute_intent]) *)
(* ================================================================== *)

(** [_execute_intent] with what it calls: [_should_confirm_action],
    [_handle_memory_query], the [Toolbelt] and [DesktopControl]
    methods, and the writers [add_observation], [add_action] and
    [add_user_preference] of [EnhancedMemory].  What the turn does to
    the outside (the screen reader, the webcam, the console, the
    desktop, the log) is recorded as a list of events; how the outside
    answers is given. *)

Module Executor.

Import Router Memory.

(** What a turn does to the outside world, in the order it does it. *)
Inductive event : Type :=
| Printed (line : string)        (* print(line) *)
| Asked                          (* input("> ") *)
| ScreenRead                     (* screen.ocr_screen() *)
| SceneDescribed                 (* webcam.get_scene_description() *)
| Typed (text : value)           (* pyautogui.typewrite(text, ...) *)
| Clicked (x y : value)          (* pyautogui.click(x=x, y=y) *)
| ClickedHere                    (* pyautogui.click() *)
| Moved (x y : value)            (* pyautogui.moveTo(x, y, duration=0.1) *)
| Logged (msg : string).         (* logger.error(msg) *)

(** How the outside world answers during one turn: a call returns or
    raises.  [webcam] is [None] when the assistant has no webcam
    object. *)
Record outside : Type := Outside {
  ocr : result string;               (* screen.ocr_screen() *)
  webcam : option (result string);   (* webcam.get_scene_description() *)
  reply : result string;             (* input("> ") *)
  typewrite : result unit;
  click : result unit;
  move_to : result unit
}.

(** [v.get(..)] needs a dictionary. *)
Definition as_dict (v : value) : result dict :=
  match v with
  | VDict d => Ok d
  | _ => Raise AttributeError
  end.

(** [name in v] for a string [name]: membership in a list, a key of a
    dictionary, a piece of a string; other objects are not iterable. *)
Definition py_in (name : string) (v : value) : result bool :=
  match v with
  | VList l | VTuple l => Ok (existsb (is_str name) l)
  | VDict d => Ok (has_key name d)
  | VStr s => Ok (contains name s)
  | _ => Raise TypeError
  end.

(** [_should_confirm_action]: the value of the [or] expression. *)
Definition _should_confirm_action (cfg : dict) (action_type : string)
  : result value :=
  app <- as_dict (get_default "app" (VDict []) cfg) ;;
  let require_confirmation :=
    get_default "require_confirmation_for" (VList []) app in
  listed <- py_in action_type require_confirmation ;;
  if listed then Ok (VBool true)
  else
    controls <- as_dict (get_default "controls" (VDict []) cfg) ;;
    Ok (get_default "confirm_actions" (VBool true) controls).

(** [s.replace(old, '')] for a non-empty [old]: the occurrences of
    [old] are dropped from left to right, none overlapping the one
    before; [skip] characters of the last occurrence are still to go. *)
Fixpoint drop_all (old : string) (skip : nat) (s : string) : string :=
  match s with
  | EmptyString => EmptyString
  | String c s' =>
      match skip with
      | S k => drop_all old k s'
      | O =>
          if prefix old s then drop_all old (len old - 1) s'
          else String c (drop_all old 0 s')
      end
  end.

(** [Toolbelt.read_screen_text] *)
Definition read_screen_text (env : outside) : result string :=
  text <- ocr env ;;
  Ok (if truthy (VStr text)
      then "Screen OCR:" ^^ nl ^^ prefix_to 2000 text
      else "No text detected.").

(** [DesktopControl.click(x, y)] *)
Definition desktop_click (x y : value) : event :=
  if negb (is_none x) && negb (is_none y) then Clicked x y else ClickedHere.

(** An outside where every call returns. *)
Definition calm (screen scene answer : string) : outside :=
  Outside (Ok screen) (Some (Ok scene)) (Ok answer) (Ok tt) (Ok tt) (Ok tt).

(** ** Vocabulary *)

(** The user agreed to an action of this kind, or the configuration
    does not ask: [_should_confirm_action] answered a false value, or
    the reply to the prompt, stripped and lower-cased, was [y]. *)
Definition consent (cfg : dict) (env : outside) (kind : string) : Prop :=
  (exists v, _should_confirm_action cfg kind = Ok v /\ truthy v = false)
  \/ (exists answer, reply env = Ok answer /\ lower (strip answer) = "y").

(** Typing and a click at given coordinates have the user's consent. *)
Definition consented (cfg : dict) (env : outside) (e : event) : Prop :=
  match e with
  | Typed _ => consent cfg env "type_text"
  | Clicked _ _ => consent cfg env "click"
  | _ => True
  end.

(** The events of a confirmation: the prompt and the question. *)
Definition prompts (e : event) : bool :=
  match e with
  | Printed _ | Asked => true
  | _ => false
  end.

(** The events that act on the desktop. *)
Definition acts (e : event) : bool :=
  match e with
  | Typed _ | Clicked _ _ | ClickedHere | Moved _ _ => true
  | _ => false
  end.

Section Executor.

Variables C W : Type.
Variable db : backend C W.

(** Texts that Python builds and that are taken as given: [str(v)] of
    an object that is not a string, [repr(v)], [str(e)] of an
    exception, the help text, and [str(memory.get_memory_stats())]. *)
Variable py_str : value -> string.
Variable py_repr : value -> string.
Variable exn_text : exn -> string.
Variable help_text : string.
Variable stats_text : store C -> W -> string.

(** [f"{v}"] *)
Definition show (v : value) : string :=
  match v with
  | VStr s => s
  | _ => py_str v
  end.

(** ** The writers of [EnhancedMemory] the executor calls *)

Definition add_observation (st : store C) (w : W) (ck : clock)
  (observation source : string) : store C * W :=
  let '(st', w', _) :=
    add_memory db st w ck observation "observation"
      (Some [("source", VStr source); ("type", VStr "visual")]) None in
  (st', w').

Definition add_action (st : store C) (w : W) (ck : clock)
  (action : string) (result : option string) : store C * W :=
  let content := "Action: " ^^ action in
  let content :=
    if given_str result
    then content ^^ " | Result: "
           ^^ match result with Some x => x | None => "" end
    else content in
  let '(st', w', _) :=
    add_memory db st w ck content "action"
      (Some [("type", VStr "system_action")]) None in
  (st', w').

Definition add_user_preference (st : store C) (w : W) (ck : clock)
  (preference : string) (v : value) : store C * W :=
  let '(st', w', _) :=
    add_memory db st w ck
      ("User preference: " ^^ preference ^^ " = " ^^ show v)
      "user_preference" (Some [("type", VStr "setting")]) None in
  (st', w').

(** ** The state of a turn *)

(** The memory object, the state of its service, and what was done so
    far. *)
Record machine : Type := Machine {
  mem : store C;
  service : W;
  trace : list event
}.

(** A step that may raise; what it did before raising stays done. *)
Definition run (A : Type) : Type := machine -> machine * result A.

Definition ret {A : Type} (a : A) : run A := fun m => (m, Ok a).

Definition and_then {A B : Type} (step : run A) (k : A -> run B) : run B :=
  fun m =>
    match step m with
    | (m', Ok a) => k a m'
    | (m', Raise e) => (m', Raise e)
    end.

Definition emit (e : event) : run unit :=
  fun m => (Machine (mem m) (service m) (trace m ++ [e]), Ok tt).

Definition outcome_of {A : Type} (r : result A) : run A := fun m => (m, r).

Definition remember (write : store C -> W -> store C * W) : run unit :=
  fun m =>
    let '(st', w') := write (mem m) (service m) in
    (Machine st' w' (trace m), Ok tt).

Definition recall {A : Type} (read : store C -> W -> A) : run A :=
  fun m => (m, Ok (read (mem m) (service m))).

(** A step that changes nothing: it only reads. *)
Definition reads {A : Type} (step : run A) : Prop :=
  forall m, fst (step m) = m.

(** A step that leaves the memory object as it is. *)
Definition steady {A : Type} (step : run A) : Prop :=
  forall m, mem (fst (step m)) = mem m.

(** A step that only adds events that satisfy [P]. *)
Definition emits (P : event -> Prop) {A : Type} (step : run A) : Prop :=
  forall m, exists evs,
    trace (fst (step m)) = trace m ++ evs /\ Forall P evs.

Notation "x <~ step ;; k" := (and_then step (fun x => k))
  (at level 61, step at next level, right associativity).
Notation "step >> k" := (and_then step (fun _ => k))
  (at level 61, right associativity).

(** [f"- {r['content'][:100]}..."], joined by new lines. *)
Definition listing (memories : list memory) : string :=
  join nl (map (fun r => "- " ^^ prefix_to 100 (content r) ^^ "...") memories).

(** [_handle_memory_query]; [None] is Python's [None]. *)
Definition _handle_memory_query (intent : dict) : run (option string) :=
  let query := get_default "raw_text" (VStr "") intent in
  a <~ outcome_of (py_in "stats" query) ;;
  b <~ (if a then ret true else outcome_of (py_in "statistics" query)) ;;
  if b then
    stats <~ recall stats_text ;;
    ret (Some ("Memory Statistics: " ^^ stats))
  else
    c <~ outcome_of (py_in "search" query) ;;
    d <~ (if c then ret true else outcome_of (py_in "find" query)) ;;
    if d then
      match query with
      | VStr q =>
          let search_terms :=
            strip (drop_all "find" 0 (drop_all "search" 0 q)) in
          if truthy (VStr search_terms) then
            results <~ recall (fun st w =>
                                 search_memories db st w search_terms None 3) ;;
            if truthy (VList (map (fun _ => VNone) results)) then
              ret (Some ("Found " ^^ show (VInt (Z.of_nat (length results)))
                         ^^ " relevant memories:" ^^ nl ^^ listing results))
            else ret (Some "No relevant memories found.")
          else ret None
      | _ => outcome_of (Raise AttributeError)
      end
    else
      recent <~ recall (fun st w => get_recent_memories db st w None 5) ;;
      if truthy (VList (map (fun _ => VNone) recent)) then
        ret (Some ("Recent memories:" ^^ nl ^^ listing recent))
      else ret (Some "No recent memories found.").

(** [if self._should_confirm_action(kind): print(prompt); if
    input("> ").strip().lower() != 'y': return ...]: whether the action
    goes on. *)
Definition confirmed (cfg : dict) (env : outside) (kind prompt : string)
  : run bool :=
  ask <~ outcome_of (_should_confirm_action cfg kind) ;;
  if truthy ask then
    emit (Printed prompt) >>
    emit Asked >>
    answer <~ outcome_of (reply env) ;;
    ret (String.eqb (lower (strip answer)) "y")
  else ret true.

(** The body of the [try] of [_execute_intent]. *)
Definition execute (cfg : dict) (ck : clock) (env : outside) (intent : dict)
  : run (option string) :=
  let intent_type := get "type" intent in
  if is_str "screen_read" intent_type then
    emit ScreenRead >>
    result <~ outcome_of (read_screen_text env) ;;
    remember (fun st w => add_observation st w ck result "screen") >>
    ret (Some result)
  else if is_str "webcam_analyze" intent_type then
    match webcam env with
    | Some scene =>
        emit SceneDescribed >>
        result <~ outcome_of scene ;;
        remember (fun st w => add_observation st w ck result "webcam") >>
        ret (Some result)
    | None => ret (Some "Webcam is not available")
    end
  else if is_str "type_text" intent_type then
    let text := get_default "text" (VStr "") intent in
    if truthy text then
      go <~ confirmed cfg env "type_text"
              ("[Confirm] Type this? -> " ^^ py_repr text ^^ "  (y/n)") ;;
      if negb go then ret (Some "User cancelled typing.")
      else
        emit (Typed text) >>
        outcome_of (typewrite env) >>
        let result := "Typed: " ^^ show text in
        remember (fun st w => add_action st w ck "type_text" (Some result)) >>
        ret (Some result)
    else ret (Some "No text specified for typing")
  else if is_str "click" intent_type then
    let x := get "x" intent in
    let y := get "y" intent in
    if negb (is_none x) && negb (is_none y) then
      go <~ confirmed cfg env "click"
              ("[Confirm] Click at (" ^^ show x ^^ ", " ^^ show y
               ^^ ")? (y/n)") ;;
      if negb go then ret (Some "User cancelled click.")
      else
        emit (desktop_click x y) >>
        outcome_of (click env) >>
        let result := "Clicked at (" ^^ show x ^^ ", " ^^ show y ^^ ")" in
        remember (fun st w => add_action st w ck "click" (Some result)) >>
        ret (Some result)
    else
      emit (desktop_click VNone VNone) >>
      outcome_of (click env) >>
      let result := "Clicked at current position" in
      remember (fun st w => add_action st w ck "click" (Some result)) >>
      ret (Some result)
  else if is_str "move_mouse" intent_type then
    let x := get "x" intent in
    let y := get "y" intent in
    if negb (is_none x) && negb (is_none y) then
      emit (Moved x y) >>
      outcome_of (move_to env) >>
      let result := "Moved mouse to (" ^^ show x ^^ ", " ^^ show y ^^ ")" in
      remember (fun st w => add_action st w ck "move_mouse" (Some result)) >>
      ret (Some result)
    else ret None
  else if is_str "help_request" intent_type then ret (Some help_text)
  else if is_str "memory_query" intent_type then _handle_memory_query intent
  else if is_str "general_chat" intent_type then ret None
  else ret None.

(** [_execute_intent]: an exception of the body is logged and turned
    into the text of the result. *)
Definition _execute_intent (cfg : dict) (ck : clock) (env : outside)
  (intent : dict) (m : machine) : machine * option string :=
  match execute cfg ck env intent m with
  | (m', Ok result) => (m', result)
  | (m', Raise e) =>
      let intent_type := get "type" intent in
      (Machine (mem m') (service m')
         (trace m' ++ [Logged ("Error executing intent " ^^ show intent_type
                               ^^ ": " ^^ exn_text e)]),
       Some ("Error executing " ^^ show intent_type ^^ ": " ^^ exn_text e))
  end.

End Executor.

End Executor.

(* ================================================================== *)
(** * Further notions, for the rest of the code *)
(* ================================================================== *)

Module Notions.

Import Regex Catalog Router Spec.

(** A sequence with no white space in front. *)
Definition trimmed (l : list ascii) : Prop :=
  match l with
  | [] => True
  | c :: _ => is_space c = false
  end.

(** Stripping both ends of a sequence. *)
Definition strip_chars (l : list ascii) : list ascii :=
  rev (lstrip_chars (rev (lstrip_chars l))).

(** The contents of the dictionary [_extract_intent_data] returns,
    with the types of the values. *)
Inductive typed_slots : dict -> Prop :=
| typed_none : typed_slots []
| typed_text v : typed_slots [("text", VStr v)]
| typed_x x : typed_slots [("x", VInt x)]
| typed_xy x y : typed_slots [("x", VInt x); ("y", VInt y)]
| typed_query v : typed_slots [("query", VStr v)]
| typed_app v : typed_slots [("app_name", VStr v)]
| typed_operation v : typed_slots [("operation", VStr v)]
| typed_operation_target v t :
    typed_slots [("operation", VStr v); ("target", VStr t)].

(** [defines n r]: the group [n] occurs in [r]. *)
Fixpoint defines (n : nat) (r : regex) : bool :=
  match r with
  | Group k r1 => (k =? n) || defines n r1
  | Seq r1 r2 | Alt r1 r2 => defines n r1 || defines n r2
  | Repeat r1 _ _ => defines n r1
  | _ => false
  end.

(** [capture_body n r]: the sub-pattern whose match the group [n]
    records, when [r] is a sequence that passes through that group
    exactly once. *)
Fixpoint capture_body (n : nat) (r : regex) : option regex :=
  match r with
  | Group k r1 =>
      if k =? n then (if defines n r1 then None else Some r1)
      else capture_body n r1
  | Seq r1 r2 =>
      if defines n r2
      then (if defines n r1 then None else capture_body n r2)
      else capture_body n r1
  | _ => None
  end.

(** [r] is [\d+]. *)
Definition digit_run (r : regex) : bool :=
  match r with
  | Repeat (CharSet false [SDigit]) 1 None => true
  | _ => false
  end.

(** The intents whose slots are the two coordinates. *)
Definition pointing (ty : string) : bool :=
  String.eqb ty "click" || String.eqb ty "move_mouse".

(** Positions [a..e-1] of [s] hold decimal digits. *)
Definition digits_at (s : string) (a e : nat) : Prop :=
  forall k, a <= k < e ->
    exists d, String.get k s = Some d /\ is_digit d = true.

(** A matcher leaves group [n] as it found it. *)
Definition frames (n : nat) (body : nat -> captures -> list (nat * captures))
  : Prop :=
  forall i caps m, In m (body i caps) -> nth_error (snd m) n = nth_error caps n.

(** The number a string of decimal digits spells, whatever its
    length. *)
Definition decimal (s : string) : option Z := digits_value 0 (chars s).

(** What the record of a pointing intent holds when a pattern gave it:
    the two groups are runs of digits; the slot [x] is there when
    [int()] takes the first group, that is when it has at most
    [max_str_digits] digits, and the slot [y] when it takes both. *)
Definition points_at (r : dict) : Prop :=
  exists gx gy x y,
    get "groups" r = VTuple [VStr gx; VStr gy]
    /\ 0 < len gx /\ 0 < len gy
    /\ decimal gx = Some x /\ decimal gy = Some y
    /\ (0 <= x)%Z /\ (0 <= y)%Z
    /\ dict_get "x" r
       = (if len gx <=? max_str_digits then Some (VInt x) else None)
    /\ dict_get "y" r
       = (if (len gx <=? max_str_digits) && (len gy <=? max_str_digits)
          then Some (VInt y) else None).

(** The same, with the lengths of the groups against a bound. *)
Definition points_within (bound : nat) (r : dict) : Prop :=
  exists gx gy x y,
    get "groups" r = VTuple [VStr gx; VStr gy]
    /\ 0 < len gx <= bound /\ 0 < len gy <= bound
    /\ decimal gx = Some x /\ decimal gy = Some y
    /\ (0 <= x)%Z /\ (0 <= y)%Z
    /\ dict_get "x" r
       = (if len gx <=? max_str_digits then Some (VInt x) else None)
    /\ dict_get "y" r
       = (if (len gx <=? max_str_digits) && (len gy <=? max_str_digits)
          then Some (VInt y) else None).

(** ** The tail [.*(.+)] of the search patterns *)

(** The characters [.] accepts. *)
Definition dot_ok (d : ascii) : bool := negb (Ascii.eqb d newline).

(** Position [p] of [s] holds a character that [ok] accepts. *)
Definition accepted (s : string) (ok : ascii -> bool) (p : nat) : Prop :=
  exists d, String.get p s = Some d /\ ok d = true.

(** Position [p] of [s] is the end of the text or holds a character
    that [ok] refuses. *)
Definition stopped (s : string) (ok : ascii -> bool) (p : nat) : Prop :=
  match String.get p s with
  | Some d => ok d = false
  | None => True
  end.

(** What comes first among the matches of a tail that ends in [.*(.+)],
    tried from [j]: nothing at all, or group [n] on one character, the
    last one before the end of the match. *)
Definition last_char_first (n j : nat) (caps : captures)
  (l : list (nat * captures)) : Prop :=
  l = [] \/ exists e tl, j < e /\ l = (e, set_capture n (e - 1, e) caps) :: tl.

(** The tails [.*(.+)] and [.*(?:for\s+)?(.+)]. *)
Definition query_tail (n : nat) (t : regex) : Prop :=
  t = Seq anything (rest n)
  \/ t = Seq anything (Seq (opt_word "for") (rest n)).

(** What the record of a search holds when a pattern gave it: the
    query is the last character of the matched text, stripped. *)
Definition last_char_query (r : dict) : Prop :=
  exists mt q,
    get "match" r = VStr mt /\ get "query" r = VStr q
    /\ 0 < len mt
    /\ q = strip (slice (len mt - 1) (len mt) mt)
    /\ len q <= 1.

(** ** The tail [\s*[:.]?\s*(.+)] of the typing patterns *)

(** The characters [\s] accepts, as the matcher tests them. *)
Definition space_ok (d : ascii) : bool :=
  xorb false (existsb (item_matches d) [SSpace]).

(** The characters [[:.]] accepts. *)
Definition mark_ok (d : ascii) : bool :=
  xorb false (existsb (item_matches d) (map SChar (chars ":."))).

(** [s] does not end in white space. *)
Definition ends_clean (s : string) : Prop :=
  forall p d, String.get p s = Some d -> String.get (S p) s = None ->
    is_space d = false.

(** What comes first among the matches of a tail that ends in [(.+)]:
    nothing at all, or group [n] from a character that is not white
    space. *)
Definition solid_first (s : string) (n : nat) (caps : captures)
  (l : list (nat * captures)) : Prop :=
  l = []
  \/ exists c e d tl,
       l = (e, set_capture n (c, e) caps) :: tl
       /\ c < e /\ String.get c s = Some d /\ is_space d = false.

(** The tail [\s*[:.]?\s*(.+)] of the typing patterns. *)
Definition typed_tail : regex :=
  Seq (star space) (Seq (opt (one_of ":.")) (Seq (star space) (rest 0))).

End Notions.

(* ================================================================== *)
(** * Facts about the primitives *)
(* ================================================================== *)

Module PyFacts.

Lemma get_some_lt (s : string) (i : nat) (d : ascii) :
  String.get i s = Some d -> i < len s.
Proof.
  revert i; induction s as [|c s IH]; intros i H; simpl in *.
  - discriminate.
  - destruct i as [|i]; [lia|]. apply IH in H. unfold len in *. lia.
Qed.

Lemma substring_length (s : string) (n m : nat) :
  n + m <= len s -> len (substring n m s) = m.
Proof.
  unfold len. revert n m; induction s as [|c s IH]; intros n m H; simpl in *.
  - destruct n, m; simpl; lia.
  - destruct n as [|n].
    + destruct m as [|m]; simpl; [reflexivity|]. rewrite IH; lia.
    + apply IH. lia.
Qed.

Lemma slice_length (s : string) (a b : nat) :
  a <= b -> b <= len s -> len (slice a b s) = b - a.
Proof.
  intros Hab Hb. unfold slice. apply substring_length. lia.
Qed.

(** ** Dictionaries *)

Lemma dict_get_set_same (k : string) (v : value) (d : dict) :
  dict_get k (dict_set k v d) = Some v.
Proof.
  induction d as [|[k' v'] d IH]; simpl.
  - rewrite String.eqb_refl. reflexivity.
  - destruct (String.eqb k k') eqn:E; simpl; rewrite E; auto.
Qed.

Lemma dict_get_set_other (k k' : string) (v : value) (d : dict) :
  k <> k' -> dict_get k (dict_set k' v d) = dict_get k d.
Proof.
  intros Hne. induction d as [|[k2 v2] d IH]; simpl.
  - destruct (String.eqb_spec k k'); [contradiction|reflexivity].
  - destruct (String.eqb_spec k' k2); simpl.
    + subst k2. destruct (String.eqb_spec k k'); [contradiction|reflexivity].
    + destruct (String.eqb_spec k k2); auto.
Qed.

(** Updating leaves alone every key the update does not mention. *)
Lemma dict_get_update_other (k : string) (e d : dict) :
  (forall kv, In kv e -> fst kv <> k) ->
  dict_get k (dict_update d e) = dict_get k d.
Proof.
  unfold dict_update. revert d.
  induction e as [|[k' v'] e IH]; intros d H; simpl; [reflexivity|].
  rewrite IH by (intros kv Hin; apply H; right; exact Hin).
  apply dict_get_set_other. intro Heq. apply (H (k', v')); [left; reflexivity|].
  simpl. congruence.
Qed.

Lemma Qlt_bool_iff (a b : Q) : Qlt_bool a b = true <-> (a < b)%Q.
Proof.
  unfold Qlt_bool. rewrite negb_true_iff.
  split; intro H.
  - apply Qnot_le_lt. intro Hle. apply Qle_bool_iff in Hle. congruence.
  - destruct (Qle_bool b a) eqn:E; [|reflexivity].
    apply Qle_bool_iff in E. exfalso. exact (Qlt_not_le _ _ H E).
Qed.

Lemma Qlt_bool_false_iff (a b : Q) : Qlt_bool a b = false <-> (b <= a)%Q.
Proof.
  unfold Qlt_bool. rewrite negb_false_iff. apply Qle_bool_iff.
Qed.

(** ** Slices of sequences *)

Lemma slice_to_length {A : Type} (b : Z) (l : list A) :
  (0 <= b)%Z -> (Z.of_nat (length (slice_to b l)) <= b)%Z.
Proof.
  intros Hb. unfold slice_to, slice_bound.
  destruct (Z.ltb_spec b 0); [lia|].
  rewrite length_firstn. lia.
Qed.

(** [l[-n:]] for a positive [n] keeps the last [n] elements. *)
Lemma slice_from_neg {A : Type} (n : Z) (l : list A) :
  (0 < n)%Z ->
  slice_from (- n) l = skipn (length l - Z.to_nat n) l.
Proof.
  intros Hn. unfold slice_from, slice_bound.
  destruct (Z.ltb_spec (- n) 0); [|lia].
  f_equal. lia.
Qed.

(** [l[-0:]] is the whole sequence. *)
Lemma slice_from_zero {A : Type} (l : list A) : slice_from (- 0) l = l.
Proof. reflexivity. Qed.

(** ** Lengths *)

Lemma str_length (l : list ascii) : len (str l) = length l.
Proof.
  unfold len, str. induction l as [|c l IH]; simpl; [reflexivity|].
  rewrite IH. reflexivity.
Qed.

Lemma chars_length (s : string) : length (chars s) = len s.
Proof.
  unfold len, chars. induction s as [|c s IH]; simpl; [reflexivity|].
  rewrite IH. reflexivity.
Qed.

Lemma lstrip_length (l : list ascii) : length (lstrip_chars l) <= length l.
Proof.
  induction l as [|c l IH]; simpl; [lia|].
  destruct (is_space c); simpl; lia.
Qed.

(** [strip] never makes a string longer. *)
Lemma strip_length (s : string) : len (strip s) <= len s.
Proof.
  unfold strip. rewrite str_length, length_rev.
  etransitivity; [apply lstrip_length|]. rewrite length_rev.
  etransitivity; [apply lstrip_length|]. rewrite chars_length. lia.
Qed.

Lemma lower_length (s : string) : len (lower s) = len s.
Proof.
  unfold lower. rewrite str_length, length_map. apply chars_length.
Qed.

Lemma substring_within (s : string) (a n : nat) :
  len (substring a n s) <= len s.
Proof.
  unfold len. revert a n; induction s as [|c s IH]; intros a n.
  - destruct a, n; simpl; lia.
  - destruct a as [|a].
    + destruct n as [|n]; simpl; [lia|]. specialize (IH 0 n). lia.
    + simpl. specialize (IH a n). lia.
Qed.

End PyFacts.

(* ================================================================== *)
(** * Facts about the matcher *)
(* ================================================================== *)

Module RegexFacts.

Import Regex PyFacts.


Lemma step_char_spans (s : string) (ok : ascii -> bool) :
  spans s 1 (step_char s ok).
Proof.
  intros i caps m _ H. unfold step_char in H.
  destruct (String.get i s) as [d|] eqn:E; [|contradiction].
  apply get_some_lt in E.
  destruct (ok d); [|contradiction].
  destruct H as [<-|[]]. simpl. lia.
Qed.

Lemma rounds_spans (s : string) (w : nat) body lo hi :
  spans s w body ->
  forall fuel cnt i caps m, i <= len s ->
    In m (rounds body lo hi fuel cnt i caps) ->
    i + (lo - cnt) * w <= fst m /\ fst m <= len s.
Proof.
  intros Hbody. induction fuel as [|fuel IH]; intros cnt i caps m Hi H; simpl in H.
  - destruct (Nat.leb_spec lo cnt); [|contradiction].
    destruct H as [<-|[]]. simpl. replace (lo - cnt) with 0 by lia. lia.
  - apply in_app_or in H. destruct H as [H|H].
    + destruct (under cnt hi); [|contradiction].
      apply in_flat_map in H. destruct H as [m1 [Hm1 H]].
      destruct (Nat.ltb_spec i (fst m1)); [|contradiction].
      destruct (Hbody _ _ _ Hi Hm1) as [Ha Hb].
      destruct (IH _ _ _ _ Hb H) as [Hc Hd].
      split; [|exact Hd].
      destruct (Nat.le_gt_cases lo cnt) as [Hle|Hgt].
      * replace (lo - cnt) with 0 by lia. lia.
      * replace (lo - cnt) with (S (lo - S cnt)) by lia. simpl. lia.
    + destruct (Nat.leb_spec lo cnt); [|contradiction].
      destruct H as [<-|[]]. simpl. replace (lo - cnt) with 0 by lia. lia.
Qed.

(** Every match of [r] from [i] spans at least [min_width r]
    characters and ends inside the text. *)
Lemma matches_spans (s : string) (r : regex) :
  spans s (min_width r) (matches s r).
Proof.
  induction r as [| c | | neg items | | r1 IH1 r2 IH2 | r1 IH1 r2 IH2
                 | r1 IH1 lo hi | n r1 IH1];
    intros i caps m Hi H; cbn [matches min_width] in *.
  - destruct H as [<-|[]]. simpl. lia.
  - eapply step_char_spans; eassumption.
  - eapply step_char_spans; eassumption.
  - eapply step_char_spans; eassumption.
  - destruct (at_boundary s i); [|contradiction].
    destruct H as [<-|[]]. simpl. lia.
  - apply in_flat_map in H. destruct H as [m1 [Hm1 H]].
    destruct (IH1 _ _ _ Hi Hm1) as [Ha Hb].
    destruct (IH2 _ _ _ Hb H). lia.
  - apply in_app_or in H. destruct H as [H|H].
    + destruct (IH1 _ _ _ Hi H). lia.
    + destruct (IH2 _ _ _ Hi H). lia.
  - destruct (rounds_spans lo hi IH1 _ _ _ _ Hi H) as [Ha Hb].
    rewrite Nat.sub_0_r in Ha. lia.
  - apply in_map_iff in H. destruct H as [m1 [<- Hm1]].
    simpl. exact (IH1 _ _ _ Hi Hm1).
Qed.

Lemma flat_map_ext_in {A B : Type} (f g : A -> list B) (l : list A) :
  (forall a, In a l -> f a = g a) -> flat_map f l = flat_map g l.
Proof.
  induction l as [|a l IH]; intros H; simpl; [reflexivity|].
  rewrite (H a) by (left; reflexivity).
  rewrite IH; [reflexivity|]. intros b Hb. apply H. right. exact Hb.
Qed.

(** The fuel of a repetition is never what stops it: any two amounts
    above the remaining length give the same matches. *)
Lemma rounds_fuel (s : string) (w : nat) body lo hi :
  spans s w body ->
  forall fuel fuel' cnt i caps, i <= len s ->
    len s - i < fuel -> len s - i < fuel' ->
    rounds body lo hi fuel cnt i caps = rounds body lo hi fuel' cnt i caps.
Proof.
  intros Hbody. induction fuel as [|fuel IH]; intros fuel' cnt i caps Hi H1 H2.
  - lia.
  - destruct fuel' as [|fuel']; [lia|]. simpl. f_equal.
    destruct (under cnt hi); [|reflexivity].
    apply flat_map_ext_in. intros m Hm.
    destruct (Nat.ltb_spec i (fst m)); [|reflexivity].
    destruct (Hbody _ _ _ Hi Hm) as [_ Hb].
    apply IH; lia.
Qed.

Corollary repeat_fuel_enough (s : string) (r : regex) lo hi i caps extra :
  i <= len s ->
  matches s (Repeat r lo hi) i caps
  = rounds (matches s r) lo hi (S (len s - i) + extra) 0 i caps.
Proof.
  intros Hi. cbn [matches].
  apply (rounds_fuel lo hi (matches_spans s r)); lia.
Qed.

(** ** Captures *)


Lemma set_capture_length n sp caps :
  length (set_capture n sp caps) = length caps.
Proof.
  revert n; induction caps as [|c caps IH]; intros n; destruct n; simpl; auto.
Qed.

Lemma set_capture_same n sp caps :
  n < length caps -> is_set n (set_capture n sp caps).
Proof.
  revert n; induction caps as [|c caps IH]; intros n H; simpl in *; [lia|].
  destruct n as [|n]; simpl.
  - exists sp. reflexivity.
  - unfold is_set in *. simpl. apply IH. lia.
Qed.

Lemma set_capture_keeps n k sp caps :
  is_set n caps -> is_set n (set_capture k sp caps).
Proof.
  revert n k; induction caps as [|c caps IH]; intros n k [x Hx].
  - destruct n; discriminate.
  - destruct k as [|k]; destruct n as [|n]; unfold is_set in *; simpl in *.
    + exists sp. reflexivity.
    + exists x. exact Hx.
    + exists x. exact Hx.
    + apply IH. exists x. exact Hx.
Qed.


Lemma step_char_records s ok n : records n false (step_char s ok).
Proof.
  intros i caps m H. unfold step_char in H.
  destruct (String.get i s); [|contradiction].
  destruct (ok a); [|contradiction].
  destruct H as [<-|[]]. simpl. repeat split; auto. discriminate.
Qed.

Lemma rounds_records n sure body lo hi :
  records n sure body ->
  forall fuel cnt i caps m,
    In m (rounds body lo hi fuel cnt i caps) ->
    length (snd m) = length caps
    /\ (is_set n caps -> is_set n (snd m))
    /\ (sure = true -> cnt < lo -> n < length caps -> is_set n (snd m)).
Proof.
  intros Hbody. induction fuel as [|fuel IH]; intros cnt i caps m H; simpl in H.
  - destruct (Nat.leb_spec lo cnt); [|contradiction].
    destruct H as [<-|[]]. simpl. repeat split; auto. lia.
  - apply in_app_or in H. destruct H as [H|H].
    + destruct (under cnt hi); [|contradiction].
      apply in_flat_map in H. destruct H as [m1 [Hm1 H]].
      destruct (i <? fst m1); [|contradiction].
      destruct (Hbody _ _ _ Hm1) as [Ha [Hb Hc]].
      destruct (IH _ _ _ _ H) as [Hd [He Hf]].
      repeat split.
      * congruence.
      * auto.
      * intros Hs _ Hn. apply He. apply Hc; assumption.
    + destruct (Nat.leb_spec lo cnt); [|contradiction].
      destruct H as [<-|[]]. simpl. repeat split; auto. lia.
Qed.

Lemma matches_records (s : string) (n : nat) (r : regex) :
  records n (always_sets n r) (matches s r).
Proof.
  induction r as [| c | | neg items | | r1 IH1 r2 IH2 | r1 IH1 r2 IH2
                 | r1 IH1 lo hi | k r1 IH1];
    intros i caps m H; cbn [matches always_sets] in *.
  - destruct H as [<-|[]]. simpl. repeat split; auto. discriminate.
  - eapply step_char_records; eassumption.
  - eapply step_char_records; eassumption.
  - eapply step_char_records; eassumption.
  - destruct (at_boundary s i); [|contradiction].
    destruct H as [<-|[]]. simpl. repeat split; auto. discriminate.
  - apply in_flat_map in H. destruct H as [m1 [Hm1 H]].
    destruct (IH1 _ _ _ Hm1) as [Ha [Hb Hc]].
    destruct (IH2 _ _ _ H) as [Hd [He Hf]].
    repeat split.
    + congruence.
    + auto.
    + intros Hs Hn. apply orb_true_iff in Hs. destruct Hs as [Hs|Hs].
      * apply He. apply Hc; assumption.
      * apply Hf; [assumption|]. rewrite Ha. exact Hn.
  - apply in_app_or in H. destruct H as [H|H].
    + destruct (IH1 _ _ _ H) as [Ha [Hb Hc]]. repeat split; auto.
      intros Hs Hn. apply andb_true_iff in Hs. apply Hc; tauto.
    + destruct (IH2 _ _ _ H) as [Ha [Hb Hc]]. repeat split; auto.
      intros Hs Hn. apply andb_true_iff in Hs. apply Hc; tauto.
  - destruct (rounds_records lo hi IH1 _ _ _ _ _ H) as [Ha [Hb Hc]].
    repeat split; auto.
    intros Hs Hn. apply andb_true_iff in Hs. destruct Hs as [Hlo Hs].
    apply Nat.leb_le in Hlo. apply Hc; auto.
  - apply in_map_iff in H. destruct H as [m1 [<- Hm1]].
    destruct (IH1 _ _ _ Hm1) as [Ha [Hb Hc]]. simpl.
    repeat split.
    + rewrite set_capture_length. exact Ha.
    + intros Hs. apply set_capture_keeps. auto.
    + intros Hs Hn. apply orb_true_iff in Hs. destruct Hs as [Hs|Hs].
      * apply Nat.eqb_eq in Hs. subst k. apply set_capture_same. lia.
      * apply set_capture_keeps. apply Hc; assumption.
Qed.

(** ** [re.search] *)

Lemma match_at_some p s start m :
  match_at p s start = Some m ->
  m_start m = start
  /\ In (m_end m, m_caps m)
        (matches s (tree p) start (repeat None (ngroups p))).
Proof.
  unfold match_at. intros H.
  destruct (matches s (tree p) start (repeat None (ngroups p))) as [|[e c] l];
    [discriminate|].
  inversion H; subst; simpl. split; [reflexivity|left; reflexivity].
Qed.

Lemma scan_some p s n start m :
  scan p s n start = Some m ->
  start <= m_start m <= start + n /\ match_at p s (m_start m) = Some m.
Proof.
  revert start; induction n as [|n IH]; intros start H; simpl in H.
  - destruct (match_at p s start) eqn:E; [|discriminate].
    inversion H; subst. destruct (match_at_some _ _ _ E) as [Hs _].
    rewrite Hs. split; [lia|exact E].
  - destruct (match_at p s start) eqn:E.
    + inversion H; subst. destruct (match_at_some _ _ _ E) as [Hs _].
      rewrite Hs. split; [lia|exact E].
    + apply IH in H. destruct H as [H1 H2]. split; [lia|exact H2].
Qed.

(** A match found from [start] lies in the text and spans at least the
    least width of the pattern. *)
Lemma scan_span p s n start m :
  start + n <= len s ->
  scan p s n start = Some m ->
  start <= m_start m
  /\ m_start m + min_width (tree p) <= m_end m /\ m_end m <= len s.
Proof.
  intros Hn H. apply scan_some in H. destruct H as [Hs H].
  apply match_at_some in H. destruct H as [_ H].
  assert (Hi : m_start m <= len s) by lia.
  destruct (@matches_spans s (tree p) _ _ _ Hi H) as [Ha Hb]. simpl in *.
  lia.
Qed.

Lemma search_span p s m :
  search p s = Some m ->
  m_start m + min_width (tree p) <= m_end m /\ m_end m <= len s.
Proof.
  unfold search. intros H. apply scan_span in H; [tauto|lia].
Qed.

(** The matched text is as long as the span. *)
Lemma group0_length p s m :
  search p s = Some m -> len (group0 s m) = m_end m - m_start m.
Proof.
  intros H. apply search_span in H. unfold group0.
  apply slice_length; lia.
Qed.

(** A group that every match records is there in the match object. *)
Lemma search_group_set p s m n :
  search p s = Some m -> always_sets n (tree p) = true -> n < ngroups p ->
  is_set n (m_caps m).
Proof.
  unfold search. intros H Hs Hn. apply scan_some in H. destruct H as [_ H].
  apply match_at_some in H. destruct H as [_ H].
  destruct (@matches_records s n (tree p) _ _ _ H) as [_ [_ Hc]]. simpl in Hc.
  apply Hc; [exact Hs|]. rewrite repeat_length. exact Hn.
Qed.

Lemma search_groups_length p s m :
  search p s = Some m -> length (groups s m) = ngroups p.
Proof.
  unfold search. intros H. apply scan_some in H. destruct H as [_ H].
  apply match_at_some in H. destruct H as [_ H].
  destruct (@matches_records s 0 (tree p) _ _ _ H) as [Ha _]. simpl in Ha.
  unfold groups. rewrite length_map, Ha. apply repeat_length.
Qed.

End RegexFacts.

(* ================================================================== *)
(** * The router: loops that keep the best candidate *)
(* ================================================================== *)

Module LoopFacts.

Import Router Spec PyFacts.

Lemma for_each_pure {A S : Type} (body : S -> A -> result S) (f : S -> A -> S)
  (l : list A) :
  (forall st a, In a l -> body st a = Ok (f st a)) ->
  forall st, for_each body l st = Ok (fold_left f l st).
Proof.
  induction l as [|a l IH]; intros H st; simpl; [reflexivity|].
  rewrite (H st a) by (left; reflexivity). simpl.
  apply IH. intros st' b Hb. apply H. right. exact Hb.
Qed.

Lemma for_each_app {A S : Type} (body : S -> A -> result S) (l1 l2 : list A) st :
  for_each body (l1 ++ l2) st
  = bind (for_each body l1 st) (for_each body l2).
Proof.
  revert st; induction l1 as [|a l1 IH]; intros st; simpl; [reflexivity|].
  destruct (body st a); simpl; [apply IH|reflexivity].
Qed.

Lemma for_each_map {A B S : Type} (body : S -> B -> result S) (g : A -> B)
  (l : list A) st :
  for_each body (map g l) st = for_each (fun st a => body st (g a)) l st.
Proof.
  revert st; induction l as [|a l IH]; intros st; simpl; [reflexivity|].
  destruct (body st (g a)); simpl; [apply IH|reflexivity].
Qed.

(** The two nested loops visit the flattened catalog. *)
Lemma nested_loops {S P : Type} (body : string -> S -> P -> result S)
  (catalog : list (string * list P)) st :
  for_each (fun st tp => for_each (body (fst tp)) (snd tp) st) catalog st
  = for_each (fun st ip => body (fst ip) st (snd ip))
      (flat_map (fun tp => map (pair (fst tp)) (snd tp)) catalog) st.
Proof.
  revert st; induction catalog as [|[ty ps] catalog IH]; intros st; simpl;
    [reflexivity|].
  rewrite for_each_app, for_each_map. simpl.
  destruct (for_each (body ty) ps st); simpl; [apply IH|reflexivity].
Qed.

Section KeepBest.

Variables X K : Type.
Variable score : X -> option Q.
Variable mk : X -> K.


Lemma keep_grows st x : (snd st <= snd (keep score mk st x))%Q.
Proof.
  unfold keep. destruct (score x) as [c|]; [|apply Qle_refl].
  destruct (Qlt_bool (snd st) c) eqn:E; [|apply Qle_refl].
  apply Qlt_bool_iff in E. simpl. apply Qlt_le_weak. exact E.
Qed.

Lemma keep_covers st x c : score x = Some c -> (c <= snd (keep score mk st x))%Q.
Proof.
  intros H. unfold keep. rewrite H.
  destruct (Qlt_bool (snd st) c) eqn:E; simpl.
  - apply Qle_refl.
  - apply Qlt_bool_false_iff in E. exact E.
Qed.

(** What the loop leaves: either the state it started from, nothing
    having scored above it, or the first of the highest scorers. *)
Lemma fold_keep (l : list X) :
  forall st,
    let fin := fold_left (keep score mk) l st in
    (snd st <= snd fin)%Q
    /\ (forall x c, In x l -> score x = Some c -> (c <= snd fin)%Q)
    /\ (fin = st
        \/ exists k x, nth_error l k = Some x /\ score x = Some (snd fin)
             /\ fst fin = Some (mk x) /\ (snd st < snd fin)%Q
             /\ forall j y c, j < k -> nth_error l j = Some y ->
                  score y = Some c -> (c < snd fin)%Q).
Proof.
  induction l as [|x l IH]; intros st; simpl.
  - split; [apply Qle_refl|]. split; [intros ? ? []|]. left. reflexivity.
  - destruct (IH (keep score mk st x)) as [Hgrow [Hcov Hwin]].
    split; [eapply Qle_trans; [apply keep_grows|exact Hgrow]|].
    split.
    + intros y c [<-|Hy] Hc.
      * eapply Qle_trans; [apply keep_covers; exact Hc|exact Hgrow].
      * eapply Hcov; eassumption.
    + destruct Hwin as [Hsame|[k [y [Hk [Hy [Hb [Hlt Hbefore]]]]]]].
      * rewrite Hsame. unfold keep.
        destruct (score x) as [c|] eqn:Hc; [|left; reflexivity].
        destruct (Qlt_bool (snd st) c) eqn:E; [|left; reflexivity].
        right. exists 0, x. simpl. rewrite Hc.
        repeat split; auto.
        -- apply Qlt_bool_iff. exact E.
        -- intros j y c' Hj. lia.
      * right. exists (S k), y. simpl.
        repeat split; auto.
        -- eapply Qle_lt_trans; [apply keep_grows|exact Hlt].
        -- intros j z c Hj Hz Hc. destruct j as [|j]; simpl in Hz.
           ++ inversion Hz; subst z.
              eapply Qle_lt_trans; [apply keep_covers; exact Hc|exact Hlt].
           ++ eapply Hbefore; [|exact Hz|exact Hc]. lia.
Qed.

(** Started from nothing at score 0 over positive scores, the loop
    ends on the first of the highest scorers whenever anything scores. *)
Lemma fold_keep_first_best (l : list X) :
  (forall x c, In x l -> score x = Some c -> (0 < c)%Q) ->
  (exists x, In x l /\ score x <> None) ->
  exists k x q,
    fold_left (keep score mk) l (None, 0%Q) = (Some (mk x), q)
    /\ first_best score l k x q /\ (0 < q)%Q.
Proof.
  intros Hpos [x0 [Hin0 Hhit0]].
  destruct (fold_keep l (None, 0%Q)) as [_ [Hcov Hwin]].
  destruct (fold_left (keep score mk) l (None, 0%Q)) as [b q] eqn:Efin. simpl in *.
  destruct Hwin as [Hsame|[k [x [Hk [Hx [Hb [Hlt Hbefore]]]]]]].
  - exfalso. inversion Hsame; subst.
    destruct (score x0) as [c|] eqn:Hc; [|congruence].
    apply (Qlt_not_le _ _ (Hpos _ _ Hin0 Hc)). eapply Hcov; eassumption.
  - exists k, x, q. subst b. repeat split; auto.
    + apply nth_error_In in H. eapply Hcov; eassumption.
    + intros Heq. destruct (Nat.le_gt_cases k j) as [|Hjk]; [assumption|].
      exfalso. pose proof (Hbefore _ _ _ Hjk H H0) as Hc.
      rewrite Heq in Hc. exact (Qlt_irrefl _ Hc).
Qed.

(** Nothing scores: the loop leaves its state as it was. *)
Lemma fold_keep_none (l : list X) st :
  (forall x, In x l -> score x = None) -> fold_left (keep score mk) l st = st.
Proof.
  revert st; induction l as [|x l IH]; intros st H; simpl; [reflexivity|].
  unfold keep at 2. rewrite (H x) by (left; reflexivity).
  apply IH. intros y Hy. apply H. right. exact Hy.
Qed.

End KeepBest.

End LoopFacts.

(* ================================================================== *)
(** * The router: the pattern tier *)
(* ================================================================== *)

Module PatternFacts.

Import Regex Catalog Router Spec PyFacts RegexFacts LoopFacts.

(** ** The catalog, checked by evaluation *)

Lemma catalog_widths ty p :
  In (ty, p) (flat_patterns intent_patterns) -> 1 <= min_width (tree p).
Proof.
  intros H.
  assert (E : forallb (fun x => 1 <=? min_width (tree (snd x)))
                (flat_patterns intent_patterns) = true) by (vm_compute; reflexivity).
  rewrite forallb_forall in E. apply E in H. apply Nat.leb_le in H. exact H.
Qed.

Lemma catalog_groups ty p n :
  In (ty, p) (flat_patterns intent_patterns) -> n < ngroups p ->
  always_sets n (tree p) = true.
Proof.
  intros H Hn.
  assert (E : forallb (fun x => forallb (fun k => always_sets k (tree (snd x)))
                                  (List.seq 0 (ngroups (snd x))))
                (flat_patterns intent_patterns) = true) by (vm_compute; reflexivity).
  rewrite forallb_forall in E. apply E in H. simpl in H.
  rewrite forallb_forall in H. apply H. apply in_seq. lia.
Qed.

Lemma catalog_types ty p :
  In (ty, p) (flat_patterns intent_patterns) -> ty <> "unknown".
Proof.
  intros H.
  assert (E : forallb (fun x => negb (String.eqb (fst x) "unknown"))
                (flat_patterns intent_patterns) = true) by (vm_compute; reflexivity).
  rewrite forallb_forall in E. apply E in H. simpl in H.
  apply negb_true_iff in H. apply String.eqb_neq. exact H.
Qed.

(** No pattern of the program repeats something that can match the
    empty string. *)
Lemma catalog_repeats_consume :
  forallb (fun x => repeats_consume (tree (snd x)))
    (flat_patterns intent_patterns ++ entity_patterns) = true.
Proof. vm_compute. reflexivity. Qed.

(** ** The loop *)


(** A pattern of the catalog only matches a text that is not empty,
    so the division of the loop body is defined. *)
Lemma try_pattern_keep (text : string) st ty p :
  In (ty, p) (flat_patterns intent_patterns) ->
  try_pattern text ty st p
  = Ok (keep (score_of text) (candidate_of text) st (ty, p)).
Proof.
  intros Hin. unfold try_pattern, keep, score_of, candidate_of, match_ratio.
  simpl. destruct (search p text) as [m|] eqn:E; [|reflexivity].
  pose proof (search_span _ _ E) as [Ha Hb].
  pose proof (catalog_widths Hin) as Hw.
  unfold true_div. destruct (len text) as [|n] eqn:El; [lia|].
  simpl. destruct (Qlt_bool _ _); reflexivity.
Qed.

Lemma score_positive (text : string) ty p c :
  In (ty, p) (flat_patterns intent_patterns) ->
  score_of text (ty, p) = Some c -> (0 < c)%Q.
Proof.
  intros Hin. unfold score_of, match_ratio. simpl.
  destruct (search p text) as [m|] eqn:E; [|discriminate].
  intros H. inversion H; subst c.
  pose proof (search_span _ _ E) as [Ha Hb].
  pose proof (catalog_widths Hin) as Hw.
  rewrite (group0_length _ _ E).
  unfold Qlt. simpl. lia.
Qed.

Lemma best_pattern_fold (text : string) :
  best_pattern intent_patterns text
  = Ok (fold_left (keep (score_of text) (candidate_of text))
          (flat_patterns intent_patterns) (None, 0%Q)).
Proof.
  unfold best_pattern.
  rewrite (nested_loops (try_pattern text)).
  apply for_each_pure. intros st [ty p] Hin. simpl.
  apply try_pattern_keep. exact Hin.
Qed.

(** ** The slots *)

Lemma int_of_str_error (x : string) e : int_of_str x = Raise e -> e = ValueError.
Proof.
  unfold int_of_str. destruct (chars x); [congruence|].
  destruct (max_str_digits <? length (a :: l)); [congruence|].
  destruct (digits_value 0 (a :: l)); congruence.
Qed.

Lemma coordinates_data_shape (x0 x1 : string) :
  exists data, coordinates_data (Some x0) (Some x1) [] = Ok data /\ slot_data data.
Proof.
  unfold coordinates_data, int_group.
  destruct (int_of_str x0) as [z0|e0] eqn:E0.
  - destruct (int_of_str x1) as [z1|e1] eqn:E1.
    + eexists. split; [reflexivity|]. simpl. constructor.
    + apply int_of_str_error in E1. subst e1.
      eexists. split; [reflexivity|]. simpl. constructor.
  - apply int_of_str_error in E0. subst e0.
    eexists. split; [reflexivity|]. constructor.
Qed.


Lemma last_in {A : Type} (l : list A) (d : A) : In (last l d) (d :: l).
Proof.
  induction l as [|a l IH]; [left; reflexivity|].
  destruct l as [|b l]; [right; left; reflexivity|].
  change (last (a :: b :: l) d) with (last (b :: l) d).
  destruct IH as [IH|IH]; [left; exact IH|right; right; exact IH].
Qed.

Lemma last_set (gs : list (option string)) (g0 : option string) :
  all_set (g0 :: gs) -> exists x, last gs g0 = Some x.
Proof.
  intros H. unfold all_set in H. rewrite Forall_forall in H.
  specialize (H _ (last_in gs g0)).
  destruct (last gs g0); [eauto|congruence].
Qed.

(** With every group set, the extraction never raises, and it fills
    one of the fixed sets of slots. *)
Lemma extract_shape (ty : string) (gs : list (option string)) (text : string) :
  all_set gs ->
  exists data, _extract_intent_data ty gs text = Ok data /\ slot_data data.
Proof.
  intros Hset. unfold _extract_intent_data.
  destruct (String.eqb ty "type_text").
  { destruct gs as [|[x0|] gs].
    - eexists; split; [reflexivity|constructor].
    - eexists; split; [reflexivity|]. simpl. constructor.
    - inversion Hset; congruence. }
  destruct (String.eqb ty "click").
  { destruct gs as [|[x0|] [|[x1|] gs]];
      try (eexists; split; [reflexivity|constructor]).
    - apply coordinates_data_shape.
    - inversion Hset as [|? ? _ H2]; inversion H2; congruence.
    - inversion Hset; congruence.
    - inversion Hset; congruence. }
  destruct (String.eqb ty "move_mouse").
  { destruct gs as [|[x0|] [|[x1|] gs]];
      try (eexists; split; [reflexivity|constructor]).
    - apply coordinates_data_shape.
    - inversion Hset as [|? ? _ H2]; inversion H2; congruence.
    - inversion Hset; congruence.
    - inversion Hset; congruence. }
  destruct (String.eqb ty "search_web").
  { destruct gs as [|g0 gs].
    - eexists; split; [reflexivity|constructor].
    - destruct (last_set Hset) as [x Hx]. rewrite Hx.
      eexists; split; [reflexivity|]. simpl. constructor. }
  destruct (String.eqb ty "open_app").
  { destruct gs as [|[x0|] gs].
    - eexists; split; [reflexivity|constructor].
    - eexists; split; [reflexivity|]. simpl. constructor.
    - inversion Hset; congruence. }
  destruct (String.eqb ty "file_operation").
  { destruct gs as [|[x0|] [|[x1|] gs]];
      try (eexists; split; [reflexivity|simpl; constructor]).
    - inversion Hset as [|? ? _ H2]; inversion H2; congruence.
    - inversion Hset; congruence.
    - inversion Hset; congruence.
    - inversion Hset; congruence. }
  eexists; split; [reflexivity|constructor].
Qed.

(** Every group of a catalog pattern takes part in its matches. *)
Lemma catalog_groups_set (text : string) ty p m :
  In (ty, p) (flat_patterns intent_patterns) ->
  search p text = Some m -> all_set (groups text m).
Proof.
  intros Hin E. unfold all_set. apply Forall_forall. intros g Hg.
  apply In_nth_error in Hg. destruct Hg as [n Hn].
  assert (Hlt : n < ngroups p).
  { rewrite <- (search_groups_length _ _ E). apply nth_error_Some. congruence. }
  destruct (search_group_set _ _ E (catalog_groups Hin Hlt) Hlt) as [sp Hsp].
  unfold groups in Hn. rewrite nth_error_map, Hsp in Hn. simpl in Hn.
  congruence.
Qed.

(** The record the pattern tier returns, field by field. *)
Lemma pattern_record (now text : string) (c : candidate) (data : dict) :
  slot_data data ->
  let upd := dict_update (candidate_dict c) data in
  let r := dict_set "confidence" (VNum (weight "pattern_match"))
             (dict_update (blank now text) upd) in
  present (Some upd) = true
  /\ get "type" r = VStr (c_type c)
  /\ get "match" r = VStr (c_match c)
  /\ get "confidence" r = VNum (8 # 10)
  /\ get "entities" r = VDict []
  /\ get "raw_text" r = VStr text.
Proof.
  intros H. destruct H; cbn; repeat split; reflexivity.
Qed.

(** Either some pattern of the list matches, or none does. *)
Lemma hit_or_miss (text : string) (l : list (string * pattern)) :
  (exists x, In x l /\ score_of text x <> None)
  \/ (forall x, In x l -> score_of text x = None).
Proof.
  induction l as [|x l [[y [Hy Hs]]|IH]].
  - right. intros x [].
  - left. exists y. split; [right; exact Hy|exact Hs].
  - destruct (score_of text x) eqn:E.
    + left. exists x. split; [left; reflexivity|congruence].
    + right. intros y [<-|Hy]; auto.
Qed.

Lemma score_of_search (text : string) (x : string * pattern) :
  score_of text x = None <-> search (snd x) text = None.
Proof.
  unfold score_of, match_ratio. destruct (search (snd x) text); split; congruence.
Qed.

(** When a pattern matches, the tier answers with the first of the
    patterns with the highest ratio. *)
Lemma pattern_tier_hit (text : string) :
  (exists x, In x (flat_patterns intent_patterns) /\ score_of text x <> None) ->
  exists k ty p m q data,
    _check_pattern_matches text
    = Ok (Some (dict_update
                  (candidate_dict (Candidate ty (group0 text m) (groups text m)))
                  data))
    /\ slot_data data
    /\ search p text = Some m
    /\ first_best (score_of text) (flat_patterns intent_patterns) k (ty, p) q.
Proof.
  intros Hhit.
  destruct (fold_keep_first_best (score_of text) (candidate_of text)
              (flat_patterns intent_patterns)) as [k [[ty p] [q [Hfold [Hbest Hq]]]]].
  { intros [ty p] c Hin. apply score_positive. exact Hin. }
  { exact Hhit. }
  destruct Hbest as [Hk [Hs Hmax]].
  pose proof (nth_error_In _ _ Hk) as Hin.
  unfold score_of, match_ratio in Hs. simpl in Hs.
  destruct (search p text) as [m|] eqn:E; [|discriminate].
  destruct (extract_shape ty text (catalog_groups_set _ Hin E)) as [data [Hd Hshape]].
  exists k, ty, p, m, q, data.
  split; [|split; [exact Hshape|split; [exact E|]]].
  - unfold _check_pattern_matches. rewrite best_pattern_fold, Hfold. simpl.
    unfold candidate_of. simpl. rewrite E. simpl. rewrite Hd. reflexivity.
  - split; [exact Hk|]. split; [|exact Hmax].
    unfold score_of, match_ratio. simpl. rewrite E. exact Hs.
Qed.

(** When no pattern matches, the tier answers [None]. *)
Lemma pattern_tier_miss (text : string) :
  (forall x, In x (flat_patterns intent_patterns) -> score_of text x = None) ->
  _check_pattern_matches text = Ok None.
Proof.
  intros H. unfold _check_pattern_matches.
  rewrite best_pattern_fold, fold_keep_none by exact H. reflexivity.
Qed.

(** The tier never raises. *)
Lemma pattern_tier_total (text : string) :
  _check_pattern_matches text = Ok None
  \/ exists c data,
       _check_pattern_matches text = Ok (Some (dict_update (candidate_dict c) data))
       /\ slot_data data
       /\ In (c_type c) (map fst (flat_patterns intent_patterns)).
Proof.
  destruct (hit_or_miss text (flat_patterns intent_patterns)) as [Hhit|Hmiss].
  - right. destruct (pattern_tier_hit text Hhit) as [k [ty [p [m [q [data [H [Hs [_ Hb]]]]]]]]].
    eexists. exists data. split; [exact H|]. split; [exact Hs|]. simpl.
    destruct Hb as [Hk _]. apply nth_error_In in Hk.
    apply (in_map fst) in Hk. exact Hk.
  - left. apply pattern_tier_miss. exact Hmiss.
Qed.

End PatternFacts.

(* ================================================================== *)
(** * The router: the keyword tier *)
(* ================================================================== *)

Module KeywordFacts.

Import Router Spec PyFacts LoopFacts.


Lemma count_bound (text : string) (l : list string) (acc : nat) :
  fold_left (fun score keyword =>
               if contains keyword text then score + 1 else score) l acc
  <= acc + length l.
Proof.
  revert acc; induction l as [|k l IH]; intros acc; simpl; [lia|].
  destruct (contains k text).
  - specialize (IH (acc + 1)). lia.
  - specialize (IH acc). lia.
Qed.

Lemma keyword_count_le (text : string) (l : list string) :
  keyword_count text l <= length l.
Proof. unfold keyword_count. apply (count_bound text l 0). Qed.

(** The division of the loop body is guarded by a positive count. *)
Lemma try_keywords_keep (text : string) st entry :
  try_keywords text st entry = Ok (keep (counted text) fst st entry).
Proof.
  unfold try_keywords, keep, counted, keyword_score.
  pose proof (keyword_count_le text (snd entry)) as Hle.
  destruct (Nat.ltb_spec 0 (keyword_count text (snd entry))) as [Hpos|Hz];
    [|reflexivity].
  unfold true_div. destruct (length (snd entry)) as [|n] eqn:El; [lia|].
  simpl. destruct (Qlt_bool _ _); reflexivity.
Qed.

Lemma best_keyword_fold (table : list (string * list string)) (text : string) :
  best_keyword table text
  = Ok (fold_left (keep (counted text) fst) table (None, 0%Q)).
Proof.
  unfold best_keyword. apply for_each_pure. intros st a _.
  apply try_keywords_keep.
Qed.

Lemma counted_positive (text : string) entry c :
  counted text entry = Some c -> (0 < c)%Q.
Proof.
  unfold counted, keyword_score.
  destruct (Nat.ltb_spec 0 (keyword_count text (snd entry))); [|discriminate].
  intros E. inversion E. unfold Qlt. simpl. lia.
Qed.

Lemma uncounted_zero (text : string) entry :
  counted text entry = None -> (keyword_score text entry == 0)%Q.
Proof.
  unfold counted, keyword_score.
  destruct (Nat.ltb_spec 0 (keyword_count text (snd entry))); [discriminate|].
  intros _. replace (keyword_count text (snd entry)) with 0 by lia.
  reflexivity.
Qed.

Lemma counted_score (text : string) entry c :
  counted text entry = Some c -> c = keyword_score text entry.
Proof.
  unfold counted. destruct (_ <? _); congruence.
Qed.


(** The entry the loop ends on has the highest score of all entries. *)
Lemma counted_best_is_best (text : string) table k entry q :
  first_best (counted text) table k entry q -> (0 < q)%Q ->
  first_best (total_score text) table k entry q.
Proof.
  intros [Hk [Hs Hmax]] Hq. split; [exact Hk|]. split.
  - unfold total_score. f_equal. symmetry. apply counted_score. exact Hs.
  - intros j y q' Hj Hy. unfold total_score in Hy. inversion Hy; subst q'.
    destruct (counted text y) as [c|] eqn:Ec.
    + rewrite <- (counted_score _ _ Ec). apply (Hmax j y c Hj Ec).
    + pose proof (uncounted_zero _ _ Ec) as Hz. rewrite Hz. split.
      * apply Qlt_le_weak. exact Hq.
      * intros Heq. rewrite <- Heq in Hq. exfalso. exact (Qlt_irrefl _ Hq).
Qed.

(** Two first-best elements of the same list are the same element. *)
Lemma first_best_unique {X : Type} (score : X -> option Q) l k x q k' x' q' :
  first_best score l k x q -> first_best score l k' x' q' ->
  k = k' /\ x = x' /\ q = q'.
Proof.
  intros [Hk [Hs Hmax]] [Hk' [Hs' Hmax']].
  destruct (Hmax _ _ _ Hk' Hs') as [H1 H2].
  destruct (Hmax' _ _ _ Hk Hs) as [H3 H4].
  assert (Heq : (q == q')%Q) by (apply Qle_antisym; assumption).
  assert (k = k') by (pose proof (H2 (Qeq_sym _ _ Heq)); pose proof (H4 Heq); lia).
  subst k'. rewrite Hk in Hk'. inversion Hk'; subst x'.
  rewrite Hs in Hs'. inversion Hs'. auto.
Qed.

(** When no keyword occurs at all, every score is 0 and the first
    entry is the first best. *)
Lemma first_best_all_zero (text : string) entry table :
  (forall x, In x (entry :: table) -> counted text x = None) ->
  first_best (total_score text) (entry :: table) 0 entry
    (keyword_score text entry).
Proof.
  intros H. split; [reflexivity|]. split; [reflexivity|].
  intros j y q' Hj Hy. inversion Hy; subst q'.
  apply nth_error_In in Hj.
  rewrite (uncounted_zero _ _ (H _ Hj)).
  rewrite (uncounted_zero _ _ (H _ (or_introl eq_refl))).
  split; [apply Qle_refl|lia].
Qed.

Lemma counted_or_not (text : string) (l : list (string * list string)) :
  (exists x, In x l /\ counted text x <> None)
  \/ (forall x, In x l -> counted text x = None).
Proof.
  induction l as [|x l [[y [Hy Hs]]|IH]].
  - right. intros x [].
  - left. exists y. split; [right; exact Hy|exact Hs].
  - destruct (counted text x) eqn:E.
    + left. exists x. split; [left; reflexivity|congruence].
    + right. intros y [<-|Hy]; auto.
Qed.

(** What the loop of the keyword tier leaves, over any table. *)
Lemma best_keyword_spec (table : list (string * list string)) (text : string) :
  table <> [] ->
  exists k entry q,
    first_best (total_score text) table k entry q
    /\ ((q == 0)%Q /\ best_keyword table text = Ok (None, 0%Q)
        \/ (0 < q)%Q /\ best_keyword table text = Ok (Some (fst entry), q)).
Proof.
  intros Hne. rewrite best_keyword_fold.
  destruct (counted_or_not text table) as [Hhit|Hmiss].
  - destruct (fold_keep_first_best (counted text) fst table)
      as [k [x [q [Hfold [Hbest Hq]]]]].
    { intros x c _. apply counted_positive. }
    { exact Hhit. }
    exists k, x, q. split; [apply counted_best_is_best; assumption|].
    right. split; [exact Hq|]. rewrite Hfold. reflexivity.
  - destruct table as [|entry table]; [congruence|].
    exists 0, entry, (keyword_score text entry).
    split; [apply first_best_all_zero; exact Hmiss|].
    left. split; [apply uncounted_zero; apply Hmiss; left; reflexivity|].
    rewrite fold_keep_none by exact Hmiss. reflexivity.
Qed.

(** The tier over any table: it answers exactly when the best score is
    strictly above the threshold (and the intent has a name). *)
Lemma check_keywords_spec (table : list (string * list string)) (text : string)
  k entry q :
  first_best (total_score text) table k entry q ->
  ((q <= keyword_threshold)%Q -> check_keywords table text = Ok None)
  /\ ((keyword_threshold < q)%Q -> fst entry <> "" ->
      check_keywords table text
      = Ok (Some [("type", VStr (fst entry)); ("keyword_score", VNum q)])).
Proof.
  intros Hbest.
  assert (Hne : table <> []).
  { destruct Hbest as [Hk _]. destruct table; [destruct k; discriminate|congruence]. }
  destruct (best_keyword_spec text Hne) as [k' [entry' [q' [Hbest' Hfold]]]].
  destruct (first_best_unique Hbest Hbest') as [-> [-> ->]].
  unfold check_keywords.
  destruct Hfold as [[Hz ->]|[Hq ->]]; simpl.
  - split; [reflexivity|]. intros Hlt. exfalso. rewrite Hz in Hlt.
    unfold keyword_threshold, Qlt in Hlt. simpl in Hlt. lia.
  - split.
    + intros Hle. apply Qlt_bool_false_iff in Hle. rewrite Hle.
      rewrite andb_false_r. reflexivity.
    + intros Hlt Hname. apply Qlt_bool_iff in Hlt. rewrite Hlt.
      apply String.eqb_neq in Hname. rewrite Hname. reflexivity.
Qed.

(** ** The table of the program *)

Lemma keywords_sizes entry :
  In entry keywords ->
  fst entry <> "" /\ fst entry <> "unknown"
  /\ (length (snd entry) = 4 \/ length (snd entry) = 5 \/ length (snd entry) = 6).
Proof.
  intros H.
  assert (E : forallb (fun e => negb (String.eqb (fst e) "")
                                && negb (String.eqb (fst e) "unknown")
                                && ((length (snd e) =? 4) || (length (snd e) =? 5)
                                    || (length (snd e) =? 6)))
                keywords = true) by (vm_compute; reflexivity).
  rewrite forallb_forall in E. apply E in H.
  apply andb_true_iff in H. destruct H as [H H3].
  apply andb_true_iff in H. destruct H as [H1 H2].
  apply negb_true_iff, String.eqb_neq in H1.
  apply negb_true_iff, String.eqb_neq in H2.
  repeat rewrite orb_true_iff in H3. repeat rewrite Nat.eqb_eq in H3.
  tauto.
Qed.

(** No entry of the table can score exactly 0.3. *)
Lemma keywords_never_on_threshold (text : string) entry :
  In entry keywords -> ~ (keyword_score text entry == keyword_threshold)%Q.
Proof.
  intros H. destruct (keywords_sizes H) as [_ [_ Hlen]].
  unfold keyword_score, keyword_threshold, Qeq. simpl.
  generalize (keyword_count text (snd entry)). intros c.
  destruct Hlen as [ -> | [ -> | -> ] ]; simpl; lia.
Qed.

End KeywordFacts.

(* ================================================================== *)
(** * The router: entity extraction *)
(* ================================================================== *)

Module EntityFacts.

Import Regex Catalog Router Spec PyFacts RegexFacts.

Lemma scan_none p s n start :
  scan p s n start = None ->
  forall i, start <= i <= start + n -> match_at p s i = None.
Proof.
  revert start; induction n as [|n IH]; intros start H i Hi; simpl in H.
  - destruct (match_at p s start) eqn:E; [discriminate|].
    replace i with start by lia. exact E.
  - destruct (match_at p s start) eqn:E; [discriminate|].
    destruct (Nat.eq_dec i start) as [->|Hne]; [exact E|].
    apply (IH _ H). lia.
Qed.

Lemma scan_leftmost p s n start m :
  scan p s n start = Some m ->
  forall i, start <= i < m_start m -> match_at p s i = None.
Proof.
  revert start; induction n as [|n IH]; intros start H i Hi; simpl in H.
  - destruct (match_at p s start) eqn:E; [|discriminate].
    inversion H; subst. apply match_at_some in E. lia.
  - destruct (match_at p s start) eqn:E.
    + inversion H; subst. apply match_at_some in E. lia.
    + destruct (Nat.eq_dec i start) as [->|Hne]; [exact E|].
      apply (IH _ H). lia.
Qed.

(** With enough fuel, [finditer] lists the successive matches. *)
Lemma finditer_successive p s :
  forall fuel pos, len s < pos + fuel ->
    successive p s pos (finditer p s fuel pos).
Proof.
  induction fuel as [|fuel IH]; intros pos Hf; simpl.
  - constructor. intros i Hi. lia.
  - destruct (Nat.ltb_spec (len s) pos) as [Hpos|Hpos].
    + constructor. intros i Hi. lia.
    + destruct (scan p s (len s - pos) pos) as [m|] eqn:E.
      * assert (Hn : pos + (len s - pos) <= len s) by lia.
        destruct (scan_span _ _ _ _ Hn E) as [Ha [Hb Hc]].
        destruct (scan_some _ _ _ _ E) as [_ Hm].
        apply successive_next; try assumption; try lia.
        -- intros i Hi. eapply scan_leftmost; eassumption.
        -- apply IH. unfold resume.
           destruct (Nat.ltb_spec (m_start m) (m_end m)); lia.
      * constructor. intros i Hi. eapply scan_none; [eassumption|lia].
Qed.

Lemma findall_successive p s :
  exists ms, successive p s 0 ms /\ findall p s = map (findall_item p s) ms.
Proof.
  exists (finditer p s (S (len s)) 0). split; [|reflexivity].
  apply finditer_successive. lia.
Qed.

(** Successive matches are in text order and do not overlap. *)
Lemma successive_apart p s pos ms :
  successive p s pos ms ->
  forall i j a b, i < j -> nth_error ms i = Some a -> nth_error ms j = Some b ->
    pos <= m_start a /\ m_end a <= m_start b.
Proof.
  induction 1 as [pos Hnone|pos m ms Hpos Hse Hlen Hleft Hat Hrest IH];
    intros i j a b Hij Ha Hb.
  - destruct i; discriminate.
  - destruct j as [|j]; [lia|]. simpl in Hb.
    assert (Hres : m_end m <= resume m).
    { unfold resume. destruct (m_start m <? m_end m); lia. }
    destruct i as [|i]; simpl in Ha.
    + inversion Ha; subst a. split; [exact Hpos|].
      destruct j as [|j].
      * destruct ms as [|m' ms']; [discriminate|]. simpl in Hb.
        inversion Hb; subst b. inversion Hrest; subst. lia.
      * destruct ms as [|m' ms']; [discriminate|].
        assert (H0 : nth_error (m' :: ms') 0 = Some m') by reflexivity.
        destruct (IH 0 (S j) m' b ltac:(lia) H0 Hb) as [H1 H2].
        inversion Hrest; subst. lia.
    + assert (Hij' : i < j) by lia.
      destruct (IH i j a b Hij' Ha Hb) as [H1 H2]. split; lia.
Qed.


Lemma entities_other (text : string) (name : string) eps d0 :
  ~ In name (map fst eps) ->
  dict_get name (fold_left (entity_step text) eps d0) = dict_get name d0.
Proof.
  revert d0; induction eps as [|[n p] eps IH]; intros d0 H; cbn [fold_left]; [reflexivity|].
  rewrite IH by (intro Hin; apply H; right; exact Hin).
  unfold entity_step. cbn [fst snd]. destruct (truthy _); [|reflexivity].
  apply dict_get_set_other. intro Heq. apply H. left. simpl. congruence.
Qed.

Lemma entities_key (text : string) (name : string) (p : pattern) eps d0 :
  NoDup (map fst eps) -> In (name, p) eps ->
  dict_get name (fold_left (entity_step text) eps d0)
  = if truthy (VList (findall p text))
    then Some (VList (findall p text))
    else dict_get name d0.
Proof.
  revert d0; induction eps as [|[n q] eps IH]; intros d0 Hnd Hin; [contradiction|].
  simpl in Hnd. inversion Hnd as [|? ? Hnotin Hnd']; subst.
  destruct Hin as [Heq|Hin].
  - inversion Heq; subst n q. cbn [fold_left]. rewrite entities_other by exact Hnotin.
    unfold entity_step. cbn [fst snd]. destruct (truthy _); [|reflexivity].
    apply dict_get_set_same.
  - cbn [fold_left]. rewrite (IH _ Hnd' Hin).
    destruct (truthy (VList (findall p text))); [reflexivity|].
    unfold entity_step. cbn [fst snd]. destruct (truthy _); [|reflexivity].
    apply dict_get_set_other. intro Heq. apply Hnotin. subst n.
    apply (in_map fst) in Hin. exact Hin.
Qed.

(** [_extract_entities] holds, for each entity pattern that matches,
    the list [re.findall] gives, and nothing for the others. *)
Lemma extract_entities_key (text name : string) (p : pattern) :
  In (name, p) entity_patterns ->
  dict_get name (_extract_entities text)
  = match findall p text with
    | [] => None
    | found => Some (VList found)
    end.
Proof.
  intros Hin. unfold _extract_entities.
  change (fun entities ep => _) with (entity_step text).
  rewrite (entities_key text name p).
  - destruct (findall p text); reflexivity.
  - vm_compute. repeat constructor; intros H;
      repeat (destruct H as [H|H]; [discriminate|]); exact H.
  - exact Hin.
Qed.

Lemma extract_entities_only (text name : string) :
  ~ In name (map fst entity_patterns) ->
  dict_get name (_extract_entities text) = None.
Proof.
  intros H. unfold _extract_entities.
  change (fun entities ep => _) with (entity_step text).
  rewrite entities_other by exact H. reflexivity.
Qed.

End EntityFacts.

(* ================================================================== *)
(** * The router: [parse_intent] *)
(* ================================================================== *)

Module RouterFacts.

Import Regex Catalog Router Spec PyFacts RegexFacts LoopFacts PatternFacts
  KeywordFacts EntityFacts.

Lemma exact_match_in (t : string) (d : dict) :
  _check_exact_matches t = Some d -> In (t, d) exact_phrases /\ d <> [].
Proof.
  unfold _check_exact_matches. intros H.
  destruct (find _ exact_phrases) as [[ph d']|] eqn:E; [|discriminate].
  simpl in H. inversion H; subst d'.
  apply find_some in E. destruct E as [Hin Heq]. simpl in Heq.
  apply String.eqb_eq in Heq. subst ph. split; [exact Hin|].
  simpl in Hin.
  repeat (destruct Hin as [Hin|Hin]; [inversion Hin; discriminate|]).
  contradiction.
Qed.

Lemma exact_match_found (t : string) (d : dict) :
  In (t, d) exact_phrases -> _check_exact_matches t = Some d.
Proof.
  intros Hin. simpl in Hin.
  repeat (destruct Hin as [Hin|Hin]; [inversion Hin; reflexivity|]).
  contradiction.
Qed.


Lemma parse_intent_outcome (now text : string) :
  outcome now (normalize text) (parse_intent now text).
Proof.
  unfold parse_intent. cbv zeta.
  change (strip (lower text)) with (normalize text).
  set (t := normalize text).
  destruct (_check_exact_matches t) as [d|] eqn:Ex.
  - destruct (exact_match_in _ Ex) as [Hin Hne].
    replace (present (Some d)) with true
      by (destruct d; [congruence|reflexivity]).
    apply by_exact; assumption.
  - cbn [present].
    destruct (pattern_tier_total t) as [Hp|[c [data [Hp [Hs Hty]]]]].
    + rewrite Hp. cbn [bind present].
      assert (Hne : keywords <> []) by discriminate.
      destruct (best_keyword_spec t Hne) as [k [entry [q [Hbest _]]]].
      destruct (check_keywords_spec Hbest) as [Hlow Hhigh].
      assert (Hin : In entry keywords)
        by (destruct Hbest as [Hk _]; eapply nth_error_In; exact Hk).
      destruct (keywords_sizes Hin) as [Hname _].
      pose proof (@keywords_never_on_threshold t entry Hin) as Hoff.
      assert (Hq : q = keyword_score t entry).
      { destruct Hbest as [_ [Hsc _]]. unfold total_score in Hsc. congruence. }
      destruct (Qlt_le_dec keyword_threshold q) as [Hgt|Hle].
      * unfold _check_keyword_matches at 1. rewrite (Hhigh Hgt Hname).
        cbn [bind present the truthy length Nat.eqb negb].
        eapply by_keyword; eauto.
      * unfold _check_keyword_matches at 1. rewrite (Hlow Hle).
        cbn [bind present].
        eapply by_fallback; eauto.
        apply Qle_lt_or_eq in Hle. destruct Hle as [Hlt|Heq]; [exact Hlt|].
        exfalso. apply Hoff. rewrite <- Hq. exact Heq.
    + rewrite Hp. cbn [bind].
      destruct (pattern_record now t c Hs) as [Hpres _].
      cbv zeta in Hpres. rewrite Hpres. cbn [the].
      apply by_pattern; assumption.
Qed.

(** "Classification is never a hard failure." *)
Lemma parse_intent_total (now text : string) :
  exists r, parse_intent now text = Ok r.
Proof.
  destruct (parse_intent_outcome now text); eauto.
Qed.

End RouterFacts.

(* ================================================================== *)
(** * The router: the claims about [parse_intent] *)
(* ================================================================== *)

Module RouterClaims.

Import Regex Catalog Router Spec PyFacts RegexFacts LoopFacts PatternFacts
  KeywordFacts EntityFacts RouterFacts.

Lemma str_neq (a b : string) : a <> b -> VStr a <> VStr b.
Proof. intros H E. apply H. congruence. Qed.

(** C1: when the normalized text equals no exact phrase and at least one
    intent pattern matches it, [parse_intent] returns the intent of the
    pattern whose match is the longest relative to the text
    ([len(match)/len(text)]), the first such pattern in catalog order
    when several tie, and the confidence is 0.8 whatever that ratio. *)
Theorem pattern_tier_selection (now text : string) :
  _check_exact_matches (normalize text) = None ->
  (exists ty p, In (ty, p) (flat_patterns intent_patterns)
                /\ search p (normalize text) <> None) ->
  pattern_tier_picks now text.
Proof.
  intros Ex [ty0 [p0 [Hin0 Hhit0]]]. unfold pattern_tier_picks. cbv zeta.
  set (t := normalize text) in *.
  destruct (pattern_tier_hit t) as [k [ty [p [m [q [data [Hp [Hs [Hm Hbest]]]]]]]]].
  { exists (ty0, p0). split; [exact Hin0|]. rewrite score_of_search. exact Hhit0. }
  destruct (pattern_record now t
              (Candidate ty (group0 t m) (groups t m)) Hs)
    as [Hpres [Hty [Hma [Hco _]]]].
  cbv zeta in Hpres, Hty, Hma, Hco.
  eexists. exists k, ty, p, m, q.
  split.
  { unfold parse_intent. cbv zeta.
    change (strip (lower text)) with t.
    rewrite Ex. cbn [present]. rewrite Hp. cbn [bind].
    rewrite Hpres. cbn [the]. reflexivity. }
  split; [exact Hm|]. split; [exact Hbest|].
  split; [exact Hty|]. split; [exact Hma|exact Hco].
Qed.

Lemma pattern_tier_selection_witness :
  pattern_tier_picks "2024-05-01T10:00:00" "Click 500 400".
Proof.
  apply pattern_tier_selection.
  - vm_compute. reflexivity.
  - eexists. eexists. split.
    + apply (@nth_error_In _ (flat_patterns intent_patterns) 12).
      vm_compute. reflexivity.
    + vm_compute. discriminate.
Defined.



(** C3: when no tier matches (no exact phrase, no pattern, no keyword
    answer), [parse_intent] still returns a record: its kind is
    [unknown], its confidence 0, it has no intent-specific slot, and its
    entities hold, for each of the six entity patterns that matches the
    normalized text, the successive non-overlapping matches of that
    pattern, and nothing else. *)
Theorem fallback_totality (now text : string) :
  _check_exact_matches (normalize text) = None ->
  _check_pattern_matches (normalize text) = Ok None ->
  _check_keyword_matches (normalize text) = Ok None ->
  fallback_record now text
  /\ map fst entity_patterns
     = ["coordinates"; "url"; "email"; "phone"; "time"; "date"].
Proof.
  intros Ex Hp Hk. split; [|reflexivity].
  unfold fallback_record. cbv zeta.
  destruct (parse_intent_outcome now text)
    as [d Hd _|c data _ Hc _ _|k entry q _ _ _ _ Hk'|k entry q _ _ _ _ _].
  - congruence.
  - congruence.
  - congruence.
  - eexists. exists (_extract_entities (normalize text)).
    split; [reflexivity|].
    split; [split; reflexivity|].
    split.
    { intros key Hkey. simpl in Hkey.
      repeat (destruct Hkey as [<-|Hkey]; [reflexivity|]). contradiction. }
    split; [reflexivity|]. split; [reflexivity|].
    split.
    + intros name Hname. apply extract_entities_only. exact Hname.
    + intros name p Hin.
      destruct (findall_successive p (normalize text)) as [ms [Hms Hall]].
      exists ms. split; [exact Hms|].
      rewrite (extract_entities_key (normalize text) Hin), Hall.
      destruct ms; reflexivity.
Qed.

Lemma fallback_totality_witness :
  fallback_record "2024-05-01T10:00:00" "xyzzy 12,34 bob@example.com 10:30 PM"
  /\ map fst entity_patterns
     = ["coordinates"; "url"; "email"; "phone"; "time"; "date"].
Proof.
  apply fallback_totality; vm_compute; reflexivity.
Defined.

(** C4: when the normalized (lower-cased, trimmed) text equals a phrase
    of the exact-phrase table, [parse_intent] returns the kind the table
    gives that phrase, with its subtype where the table has one, and
    confidence exactly 1.0; neither the pattern tier nor the keyword
    tier leaves anything in the record. *)
Theorem exact_match_tier (now text phrase : string) (intent : dict) :
  In (phrase, intent) exact_phrases ->
  normalize text = phrase ->
  exact_tier_answers now text intent.
Proof.
  intros Hin Hnorm. unfold exact_tier_answers.
  rewrite <- Hnorm in Hin.
  pose proof (exact_match_found Hin) as Hfound.
  destruct (parse_intent_outcome now text)
    as [d Hd _|c data Hd _ _ _|k entry q Hd _ _ _ _|k entry q Hd _ _ _ _];
    try congruence.
  assert (d = intent) by congruence. subst d.
  eexists. split; [reflexivity|].
  generalize dependent (normalize text). intros t Hin _ _ _.
  simpl in Hin.
  repeat (destruct Hin as [Hin|Hin];
          [inversion Hin; subst; cbn; repeat split; reflexivity|]).
  contradiction.
Qed.

Lemma exact_match_tier_witness :
  exact_tier_answers "2024-05-01T10:00:00" "  Thank You "
    [("type", VStr "general_chat"); ("subtype", VStr "gratitude")].
Proof.
  apply (@exact_match_tier _ _ "thank you").
  - simpl. tauto.
  - vm_compute. reflexivity.
Defined.

(** C10: the record [parse_intent] returns has a kind other than
    [unknown] exactly when the exact, pattern or keyword tier classified
    the text, and then its entities are empty: entity extraction only
    runs on the fallback path. *)
Theorem classified_without_entities (now text : string) (r : dict) :
  parse_intent now text = Ok r ->
  (some_tier_answers (normalize text) <-> get "type" r <> VStr "unknown")
  /\ (get "type" r <> VStr "unknown" -> get "entities" r = VDict []).
Proof.
  intros Hr. unfold some_tier_answers.
  destruct (parse_intent_outcome now text)
    as [d Hd Hin|c data Hx Hc Hs Hty|k entry q Hx Hp Hbest Hq Hk
       |k entry q Hx Hp Hbest Hq Hk];
    inversion Hr; subst r; clear Hr.
  - generalize dependent (normalize text). intros t Hd Hin.
    simpl in Hin.
    repeat (destruct Hin as [Hin|Hin];
            [inversion Hin; subst; cbn; split;
             [split; [discriminate|intros _; left; discriminate]
             |reflexivity]|]).
    contradiction.
  - destruct (pattern_record now (normalize text) c Hs)
      as [_ [Hty' [_ [_ [Hent _]]]]].
    cbv zeta in Hty', Hent.
    change (weight "pattern_match") with (8 # 10)%Q in Hty', Hent.
    rewrite Hty', Hent.
    split; [|reflexivity].
    split; [|intros _; right; left; rewrite Hc; discriminate].
    intros _. apply str_neq.
    apply in_map_iff in Hty. destruct Hty as [[ty p] [Heq Hin]].
    simpl in Heq. subst ty. exact (catalog_types Hin).
  - assert (Hin : In entry keywords)
      by (destruct Hbest as [Hn _]; eapply nth_error_In; exact Hn).
    destruct (keywords_sizes Hin) as [_ [Hname _]].
    cbn. split; [|reflexivity].
    split; [|intros _; right; right; rewrite Hk; discriminate].
    intros _. apply str_neq. exact Hname.
  - cbn. split; [|congruence].
    split; [|congruence].
    intros [H|[H|H]]; congruence.
Qed.

Lemma classified_without_entities_witness :
  get "type"
    [("type", VStr "open_app"); ("confidence", VNum (8 # 10));
     ("entities", VDict []); ("raw_text", VStr "open https://example.com");
     ("timestamp", VStr "2024-05-01T10:00:00");
     ("match", VStr "open https://example.com");
     ("groups", VTuple [VStr "https://example.com"]);
     ("app_name", VStr "https://example.com")] <> VStr "unknown"
  /\ get "entities"
       [("type", VStr "open_app"); ("confidence", VNum (8 # 10));
        ("entities", VDict []); ("raw_text", VStr "open https://example.com");
        ("timestamp", VStr "2024-05-01T10:00:00");
        ("match", VStr "open https://example.com");
        ("groups", VTuple [VStr "https://example.com"]);
        ("app_name", VStr "https://example.com")] = VDict [].
Proof.
  assert (Hr : parse_intent "2024-05-01T10:00:00" "Open https://example.com"
               = Ok [("type", VStr "open_app"); ("confidence", VNum (8 # 10));
                     ("entities", VDict []);
                     ("raw_text", VStr "open https://example.com");
                     ("timestamp", VStr "2024-05-01T10:00:00");
                     ("match", VStr "open https://example.com");
                     ("groups", VTuple [VStr "https://example.com"]);
                     ("app_name", VStr "https://example.com")])
    by (vm_compute; reflexivity).
  destruct (classified_without_entities _ _ Hr) as [[Hany _] Hent].
  assert (Hty : get "type"
                  [("type", VStr "open_app"); ("confidence", VNum (8 # 10));
                   ("entities", VDict []);
                   ("raw_text", VStr "open https://example.com");
                   ("timestamp", VStr "2024-05-01T10:00:00");
                   ("match", VStr "open https://example.com");
                   ("groups", VTuple [VStr "https://example.com"]);
                   ("app_name", VStr "https://example.com")] <> VStr "unknown")
    by (apply Hany; right; left; vm_compute; discriminate).
  split; [exact Hty|exact (Hent Hty)].
Defined.

End RouterClaims.

(* ================================================================== *)
(** * The validator: the claim about [click] *)
(* ================================================================== *)

Module ValidatorClaims.

Import Router Spec PyFacts.


Lemma validate_click (intent : dict) :
  get "type" intent = VStr "click" ->
  snd (validate_intent intent)
  = (chk <- (if is_none (get "x" intent) || is_none (get "y" intent)
             then Ok (false, ["Missing coordinates for click action"])
             else inside <- within_screen (get "x" intent) (get "y" intent) ;;
                  if negb inside
                  then Ok (true, [bounds_warning])
                  else Ok (true, [])) ;;
     Ok (Validation (fst chk) (snd chk)
           ["Validate coordinates"; "Execute click action"; "Provide feedback"])).
Proof.
  intros Hty. unfold validate_intent, check_intent. cbn [snd].
  rewrite Hty. reflexivity.
Qed.

Lemma within_screen_numbers (x y : value) (qx qy : Q) :
  as_number x = Some qx -> as_number y = Some qy ->
  exists b, within_screen x y = Ok b /\ (b = true <-> on_screen qx qy).
Proof.
  intros Hx Hy. unfold within_screen, num_le_value, value_le_num, on_screen.
  rewrite Hx, Hy. cbn [bind].
  destruct (Qle_bool 0 qx) eqn:E1; cbn [negb].
  - destruct (Qle_bool qx (3000 # 1)) eqn:E2; cbn [negb].
    + destruct (Qle_bool 0 qy) eqn:E3; cbn [negb].
      * destruct (Qle_bool qy (2000 # 1)) eqn:E4.
        -- exists true. split; [reflexivity|].
           apply Qle_bool_iff in E1, E2, E3, E4. tauto.
        -- exists false. split; [reflexivity|].
           split; [discriminate|]. intros [_ [_ H]].
           apply Qle_bool_iff in H. congruence.
      * exists false. split; [reflexivity|].
        split; [discriminate|]. intros [_ [H _]].
        apply Qle_bool_iff in H. congruence.
    + exists false. split; [reflexivity|].
      split; [discriminate|]. intros [[_ H] _].
      apply Qle_bool_iff in H. congruence.
  - exists false. split; [reflexivity|].
    split; [discriminate|]. intros [[H _] _].
    apply Qle_bool_iff in H. congruence.
Qed.

Lemma number_not_none (v : value) (q : Q) : as_number v = Some q -> is_none v = false.
Proof. destruct v; simpl; congruence. Qed.

Lemma is_none_iff (v : value) : is_none v = true <-> v = VNone.
Proof. destruct v; simpl; split; congruence. Qed.

(** C5: for an intent record of kind [click], [validate_intent] leaves
    the record as it was; whenever it returns, [is_valid] is false
    exactly when the x or the y coordinate is absent; it does return
    [is_valid = false] when one is absent; and when both are numbers it
    returns [is_valid = true], with the bounds warning among the
    warnings when the point lies outside x in [0,3000], y in [0,2000],
    and with no warning inside. *)
Theorem click_validation (intent : dict) :
  get "type" intent = VStr "click" ->
  fst (validate_intent intent) = intent
  /\ (forall v, snd (validate_intent intent) = Ok v ->
        (is_valid v = false
         <-> get "x" intent = VNone \/ get "y" intent = VNone))
  /\ (get "x" intent = VNone \/ get "y" intent = VNone ->
        exists v, snd (validate_intent intent) = Ok v /\ is_valid v = false)
  /\ (forall qx qy,
        as_number (get "x" intent) = Some qx ->
        as_number (get "y" intent) = Some qy ->
        exists v, snd (validate_intent intent) = Ok v
          /\ is_valid v = true
          /\ (~ on_screen qx qy -> In bounds_warning (warnings v))
          /\ (on_screen qx qy -> warnings v = [])).
Proof.
  intros Hty. split; [reflexivity|].
  rewrite (validate_click _ Hty).
  assert (Hnone : is_none (get "x" intent) || is_none (get "y" intent) = true
                  <-> get "x" intent = VNone \/ get "y" intent = VNone).
  { rewrite orb_true_iff, !is_none_iff. tauto. }
  split; [|split].
  - intros v Hv.
    destruct (is_none (get "x" intent) || is_none (get "y" intent)) eqn:E.
    + cbn in Hv. inversion Hv; subst v. simpl. tauto.
    + destruct (within_screen (get "x" intent) (get "y" intent)) as [b|e];
        [|discriminate].
      assert (Hvalid : is_valid v = true).
      { cbn [bind] in Hv. destruct (negb b); cbn in Hv; inversion Hv; reflexivity. }
      rewrite Hvalid. split; [discriminate|].
      intros H. apply Hnone in H. discriminate.
  - intros H. apply Hnone in H. rewrite H. eexists. split; reflexivity.
  - intros qx qy Hx Hy.
    rewrite (number_not_none _ Hx), (number_not_none _ Hy). cbn [orb].
    destruct (within_screen_numbers _ _ Hx Hy) as [b [Hb Hon]].
    rewrite Hb. cbn [bind].
    destruct b; cbn.
    + eexists. split; [reflexivity|]. cbn.
      split; [reflexivity|]. split; [|reflexivity].
      intros Hout. exfalso. apply Hout. apply Hon. reflexivity.
    + eexists. split; [reflexivity|]. cbn.
      split; [reflexivity|]. split; [intros _; left; reflexivity|].
      intros Hin. apply Hon in Hin. discriminate.
Qed.

Lemma click_validation_witness :
  exists v,
    snd (validate_intent [("type", VStr "click"); ("x", VInt 5000); ("y", VInt 100)])
    = Ok v
    /\ is_valid v = true /\ In bounds_warning (warnings v).
Proof.
  destruct (@click_validation
              [("type", VStr "click"); ("x", VInt 5000); ("y", VInt 100)]
              eq_refl) as [_ [_ [_ H]]].
  destruct (H (inject_Z 5000) (inject_Z 100) eq_refl eq_refl)
    as [v [Hv [Hvalid [Hwarn _]]]].
  exists v. split; [exact Hv|]. split; [exact Hvalid|].
  apply Hwarn. unfold on_screen, Qle. simpl. lia.
Defined.

End ValidatorClaims.

(* ================================================================== *)
(** * The memory store: the conversation buffer *)
(* ================================================================== *)

Module BufferFacts.

Import Memory MemorySpec PyFacts.

Lemma last_n_length {A : Type} (n : nat) (l : list A) : length (last_n n l) <= n.
Proof. unfold last_n. rewrite length_skipn. lia. Qed.

Lemma last_n_all {A : Type} (n : nat) (l : list A) :
  length l <= n -> last_n n l = l.
Proof.
  intros H. unfold last_n. replace (length l - n) with 0 by lia. reflexivity.
Qed.

(** Keeping the last [n] before appending changes nothing to the last
    [n] after. *)
Lemma last_n_app {A : Type} (n : nat) (l l2 : list A) :
  last_n n (last_n n l ++ l2) = last_n n (l ++ l2).
Proof.
  destruct (Nat.le_gt_cases (length l) n) as [Hle|Hgt].
  - rewrite (last_n_all l Hle). reflexivity.
  - unfold last_n. rewrite !length_app, length_skipn.
    replace (length l - (length l - n) + length l2 - n) with (length l2) by lia.
    replace (length l + length l2 - n) with ((length l - n) + length l2) by lia.
    rewrite !skipn_app.
    rewrite length_skipn.
    replace (length l2 - (length l - (length l - n))) with (length l2 - n) by lia.
    replace (length l - n + length l2 - length l) with (length l2 - n) by lia.
    rewrite skipn_skipn.
    replace (length l2 + (length l - n)) with (length l - n + length l2) by lia.
    reflexivity.
Qed.

Section Buffer.

Variables C W : Type.
Variable db : backend C W.


Lemma trim_positive (capacity : Z) (buf : list buffer_entry) :
  (0 < capacity)%Z -> trim capacity buf = last_n (Z.to_nat capacity) buf.
Proof.
  intros Hpos. unfold trim.
  destruct (Z.ltb_spec capacity (Z.of_nat (length buf))).
  - rewrite slice_from_neg by exact Hpos. reflexivity.
  - rewrite last_n_all by lia. reflexivity.
Qed.

Lemma trim_zero (buf : list buffer_entry) : trim 0 buf = buf.
Proof.
  unfold trim. destruct (0 <? Z.of_nat (length buf))%Z; reflexivity.
Qed.

(** What one [add_memory] call does to the object. *)
Lemma add_call_state (st : store C) (w : W) (k : call) :
  let st' := fst (fst (add_call db st w k)) in
  collection st' = collection st
  /\ max_buffer_size st' = max_buffer_size st
  /\ conversation_buffer st'
     = match snd (add_call db st w k) with
       | Some _ =>
           if String.eqb (k_category k) "conversation"
           then trim (max_buffer_size st)
                  (conversation_buffer st
                   ++ [BufferEntry (k_content k) (stored_meta k)
                         (buffer_time (k_clock k))])
           else conversation_buffer st
       | None => conversation_buffer st
       end.
Proof.
  cbv zeta. unfold add_call, add_memory, stored_meta.
  destruct (collection st) as [c|] eqn:Ec; [|simpl; rewrite Ec; auto].
  destruct (coll_add db c w _ _ _ _) as [w' [u|e]]; cbn [fst snd];
    [|rewrite Ec; auto].
  destruct (String.eqb (k_category k) "conversation"); [|rewrite Ec; auto].
  unfold _add_to_buffer, trim.
  destruct (_ <? _)%Z; simpl; rewrite Ec; auto.
Qed.

Lemma run_capacity (calls : list call) :
  forall st w, max_buffer_size (fst (run db st w calls)) = max_buffer_size st.
Proof.
  induction calls as [|k ks IH]; intros st w; simpl; [reflexivity|].
  rewrite IH. apply (add_call_state st w k).
Qed.

(** With a positive capacity the buffer holds the most recent entries,
    in insertion order, and no more than the capacity. *)
Lemma buffer_fifo_positive (calls : list call) :
  forall (st : store C) (w : W) (log : list buffer_entry),
    (0 < max_buffer_size st)%Z ->
    conversation_buffer st = last_n (Z.to_nat (max_buffer_size st)) log ->
    conversation_buffer (fst (run db st w calls))
    = last_n (Z.to_nat (max_buffer_size st)) (log ++ produced db st w calls).
Proof.
  induction calls as [|k ks IH]; intros st w log Hpos Hbuf; simpl.
  - rewrite app_nil_r. exact Hbuf.
  - destruct (add_call_state st w k) as [_ [Hcap Hstep]]. cbv zeta in Hcap, Hstep.
    rewrite app_assoc.
    rewrite <- Hcap. apply IH; [rewrite Hcap; exact Hpos|].
    rewrite Hstep, Hcap.
    destruct (snd (add_call db st w k));
      [|rewrite app_nil_r; exact Hbuf].
    destruct (String.eqb (k_category k) "conversation");
      [|rewrite app_nil_r; exact Hbuf].
    rewrite trim_positive by exact Hpos.
    rewrite Hbuf. apply last_n_app.
Qed.

Corollary buffer_bound_positive (calls : list call) (st : store C) (w : W) :
  (0 < max_buffer_size st)%Z ->
  (Z.of_nat (length (conversation_buffer st)) <= max_buffer_size st)%Z ->
  (Z.of_nat (length (conversation_buffer (fst (run db st w calls))))
   <= max_buffer_size st)%Z.
Proof.
  intros Hpos Hlen.
  rewrite (buffer_fifo_positive calls st w (conversation_buffer st) Hpos)
    by (rewrite last_n_all by lia; reflexivity).
  pose proof (last_n_length (Z.to_nat (max_buffer_size st))
                (conversation_buffer st ++ produced db st w calls)).
  lia.
Qed.

(** With capacity 0 the slice [buf[-0:]] is the whole buffer: nothing
    is ever dropped. *)
Lemma buffer_zero_keeps_all (calls : list call) :
  forall (st : store C) (w : W),
    max_buffer_size st = 0%Z ->
    conversation_buffer (fst (run db st w calls))
    = conversation_buffer st ++ produced db st w calls.
Proof.
  induction calls as [|k ks IH]; intros st w Hzero; simpl.
  - rewrite app_nil_r. reflexivity.
  - destruct (add_call_state st w k) as [_ [Hcap Hstep]]. cbv zeta in Hcap, Hstep.
    rewrite IH by (rewrite Hcap; exact Hzero).
    rewrite Hstep, Hzero, app_assoc. f_equal.
    destruct (snd (add_call db st w k)); [|rewrite app_nil_r; reflexivity].
    destruct (String.eqb (k_category k) "conversation");
      [|rewrite app_nil_r; reflexivity].
    apply trim_zero.
Qed.

(** [add_conversation] is its two [add_memory] calls. *)
Lemma add_conversation_run (st : store C) (w : W) (ck1 ck2 : clock)
  (user_input assistant_response : string) :
  add_conversation db st w ck1 ck2 user_input assistant_response
  = run db st w (conversation_calls ck1 ck2 user_input assistant_response).
Proof.
  unfold add_conversation, conversation_calls. simpl. unfold add_call. simpl.
  destruct (add_memory db st w ck1 _ _ _ _) as [[st1 w1] o1]. simpl.
  destruct (add_memory db st1 w1 ck2 _ _ _ _) as [[st2 w2] o2]. reflexivity.
Qed.

End Buffer.

End BufferFacts.

(* ================================================================== *)
(** * The memory store: sorting by timestamp *)
(* ================================================================== *)

Module SortFacts.

Import Memory MemorySpec PyFacts.

(** ** The order on strings *)

Lemma ascii_compare_trans_ge (x y z : ascii) :
  Ascii.compare x y <> Lt -> Ascii.compare y z <> Lt ->
  Ascii.compare x z <> Lt
  /\ (Ascii.compare x z = Eq ->
      Ascii.compare x y = Eq /\ Ascii.compare y z = Eq).
Proof.
  unfold Ascii.compare. intros H1 H2.
  destruct (N.compare_spec (N_of_ascii x) (N_of_ascii y)) as [E1|L1|G1];
    try congruence;
    destruct (N.compare_spec (N_of_ascii y) (N_of_ascii z)) as [E2|L2|G2];
    try congruence;
    destruct (N.compare_spec (N_of_ascii x) (N_of_ascii z)) as [E3|L3|G3];
    try lia; split; try congruence; try discriminate; auto.
Qed.

Lemma string_compare_trans_ge (a b c : string) :
  String.compare a b <> Lt -> String.compare b c <> Lt ->
  String.compare a c <> Lt.
Proof.
  revert b c; induction a as [|x a IH]; intros [|y b] [|z c]; simpl;
    try congruence.
  intros H1 H2.
  destruct (Ascii.compare x y) eqn:Exy; try congruence;
    destruct (Ascii.compare y z) eqn:Eyz; try congruence;
    destruct (@ascii_compare_trans_ge x y z) as [Hge Heq];
    try congruence;
    destruct (Ascii.compare x z) eqn:Exz; try congruence.
  - apply IH with b; assumption.
  - destruct Heq; [reflexivity|congruence].
  - destruct Heq; [reflexivity|congruence].
  - destruct Heq; [reflexivity|congruence].
Qed.

Lemma ltb_false_trans (a b c : string) :
  String.ltb a b = false -> String.ltb b c = false -> String.ltb a c = false.
Proof.
  unfold String.ltb. intros H1 H2.
  pose proof (@string_compare_trans_ge a b c) as H.
  destruct (String.compare a b); try discriminate;
    destruct (String.compare b c); try discriminate;
    destruct (String.compare a c); try reflexivity;
    exfalso; apply H; congruence.
Qed.

Lemma ltb_asym (a b : string) : String.ltb a b = true -> String.ltb b a = false.
Proof.
  unfold String.ltb. rewrite (String.compare_antisym b a).
  destruct (String.compare a b); simpl; congruence.
Qed.

Lemma ltb_false_neq (a b : string) :
  String.ltb a b = false -> a <> b -> String.ltb b a = true.
Proof.
  unfold String.ltb. intros H Hne. rewrite (String.compare_antisym b a).
  destruct (String.compare a b) eqn:E; simpl; try congruence.
  apply String.compare_eq_iff in E. contradiction.
Qed.

(** ** The order on sort keys *)

Lemma value_lt_inv (a b : value) (r : bool) :
  value_lt a b = Ok r ->
  (exists x y, a = VStr x /\ b = VStr y /\ r = String.ltb x y)
  \/ (exists p q, as_number a = Some p /\ as_number b = Some q
                  /\ r = Qlt_bool p q).
Proof.
  unfold value_lt. intros H.
  destruct a; destruct b; simpl in H; try discriminate; injection H as <-;
    first [ left; do 2 eexists; repeat split; reflexivity
          | right; do 2 eexists; repeat split; reflexivity ].
Qed.

Lemma value_lt_numbers (a b : value) (p q : Q) :
  as_number a = Some p -> as_number b = Some q ->
  value_lt a b = Ok (Qlt_bool p q).
Proof.
  intros Ha Hb. unfold value_lt.
  destruct a; simpl in Ha; try discriminate;
    destruct b; simpl in Hb; try discriminate;
    inversion Ha; inversion Hb; reflexivity.
Qed.

Lemma not_below_trans (a b c : value) :
  value_lt a b = Ok false -> value_lt b c = Ok false -> value_lt a c = Ok false.
Proof.
  intros H1 H2.
  destruct (value_lt_inv _ _ H1) as [[x [y [-> [-> E1]]]]|[p [q [Hp [Hq E1]]]]];
    destruct (value_lt_inv _ _ H2) as [[y' [z [Hy [-> E2]]]]|[q' [r [Hq' [Hr E2]]]]].
  - inversion Hy; subst y'. simpl. f_equal.
    apply ltb_false_trans with y; congruence.
  - simpl in Hq'. discriminate.
  - subst b. simpl in Hq. discriminate.
  - rewrite Hq in Hq'. inversion Hq'; subst q'.
    rewrite (value_lt_numbers _ _ Hp Hr). f_equal.
    symmetry in E1, E2. apply Qlt_bool_false_iff in E1, E2.
    apply Qlt_bool_false_iff. eapply Qle_trans; eassumption.
Qed.

Lemma below_asym (a b : value) :
  value_lt a b = Ok true -> value_lt b a = Ok false.
Proof.
  intros H.
  destruct (value_lt_inv _ _ H) as [[x [y [-> [-> E]]]]|[p [q [Hp [Hq E]]]]].
  - simpl. f_equal. apply ltb_asym. congruence.
  - rewrite (value_lt_numbers _ _ Hq Hp). f_equal.
    symmetry in E. apply Qlt_bool_iff in E.
    apply Qlt_bool_false_iff. apply Qlt_le_weak. exact E.
Qed.

(** ** The sort *)

Section Sort.

Variable A : Type.
Variable key : A -> value.


Lemma insert_desc_perm (x : A) (l l' : list A) :
  insert_desc key x l = Ok l' -> Permutation l' (x :: l).
Proof.
  revert l'; induction l as [|y l IH]; intros l' H; simpl in H.
  - inversion H. apply Permutation_refl.
  - destruct (value_lt (key x) (key y)) as [[|]|e]; simpl in H; try discriminate.
    + destruct (insert_desc key x l) as [rest|e]; simpl in H; [|discriminate].
      inversion H; subst l'.
      eapply Permutation_trans; [apply perm_skip; apply IH; reflexivity|].
      apply perm_swap.
    + inversion H. apply Permutation_refl.
Qed.

Lemma insert_desc_sorted (x : A) (l l' : list A) :
  StronglySorted (not_below key) l -> insert_desc key x l = Ok l' ->
  StronglySorted (not_below key) l'.
Proof.
  revert l'; induction l as [|y l IH]; intros l' Hs H; simpl in H.
  - inversion H. constructor; constructor.
  - apply StronglySorted_inv in Hs. destruct Hs as [Hs Hall].
    destruct (value_lt (key x) (key y)) as [[|]|e] eqn:E; simpl in H;
      try discriminate.
    + destruct (insert_desc key x l) as [rest|e] eqn:Er; simpl in H; [|discriminate].
      inversion H; subst l'. constructor; [apply IH; auto|].
      apply Forall_forall. intros z Hz.
      apply (Permutation_in _ (insert_desc_perm _ _ Er)) in Hz.
      destruct Hz as [<-|Hz].
      * apply below_asym. exact E.
      * rewrite Forall_forall in Hall. apply Hall. exact Hz.
    + inversion H; subst l'. constructor.
      * constructor; assumption.
      * constructor; [exact E|].
        apply Forall_forall. intros z Hz.
        rewrite Forall_forall in Hall.
        eapply not_below_trans; [exact E|apply Hall; exact Hz].
Qed.

(** When the sort returns, its result is a rearrangement of the list
    in which no element is below a later one. *)
Lemma sort_desc_sorted (l l' : list A) :
  sort_desc key l = Ok l' ->
  StronglySorted (not_below key) l' /\ Permutation l' l.
Proof.
  revert l'; induction l as [|x l IH]; intros l' H; simpl in H.
  - inversion H. split; constructor.
  - destruct (sort_desc key l) as [sorted|e]; simpl in H; [|discriminate].
    destruct (IH sorted eq_refl) as [Hs Hp]. split.
    + eapply insert_desc_sorted; eassumption.
    + eapply Permutation_trans; [apply insert_desc_perm; exact H|].
      apply perm_skip. exact Hp.
Qed.

Lemma sorted_pairs (l : list A) :
  StronglySorted (not_below key) l ->
  forall i j a b, i < j -> nth_error l i = Some a -> nth_error l j = Some b ->
    not_below key a b.
Proof.
  induction 1 as [|x l Hs IH Hall]; intros i j a b Hij Ha Hb.
  - destruct i; discriminate.
  - destruct j as [|j]; [lia|]. simpl in Hb.
    destruct i as [|i]; simpl in Ha.
    + inversion Ha; subst a. rewrite Forall_forall in Hall.
      apply Hall. eapply nth_error_In. exact Hb.
    + apply (IH i j); [lia|assumption|assumption].
Qed.

(** Keys that are all strings never make the sort raise. *)
Lemma insert_desc_strings (x : A) (l : list A) :
  (exists t, key x = VStr t) -> Forall (fun y => exists t, key y = VStr t) l ->
  exists l', insert_desc key x l = Ok l'.
Proof.
  intros [t Ht] Hall. induction l as [|y l IH]; simpl; [eauto|].
  inversion Hall as [|? ? [u Hu] Hall']; subst.
  rewrite Ht, Hu. simpl.
  destruct (String.ltb t u); [|eauto].
  destruct (IH Hall') as [l' ->]. simpl. eauto.
Qed.

Lemma sort_desc_strings (l : list A) :
  Forall (fun y => exists t, key y = VStr t) l ->
  exists l', sort_desc key l = Ok l'.
Proof.
  induction l as [|x l IH]; intros Hall; simpl; [eauto|].
  inversion Hall as [|? ? Hx Hall']; subst.
  destruct (IH Hall') as [sorted Hs]. rewrite Hs. simpl.
  apply insert_desc_strings; [exact Hx|].
  apply Forall_forall. intros y Hy.
  destruct (sort_desc_sorted _ Hs) as [_ Hp].
  apply (Permutation_in _ Hp) in Hy.
  rewrite Forall_forall in Hall'. apply Hall'. exact Hy.
Qed.

Lemma ltb_irrefl (t : string) : String.ltb t t = false.
Proof.
  unfold String.ltb. pose proof (String.compare_antisym t t) as H.
  destruct (String.compare t t); simpl in H; try discriminate; reflexivity.
Qed.

(** An element that goes behind another has another key. *)
Lemma below_other_key (x y : A) (t : string) :
  value_lt (key x) (key y) = Ok true ->
  keyed key t x = true -> keyed key t y = true -> False.
Proof.
  unfold keyed. intros H Hx Hy.
  destruct (key x) as [| | | |kx| | |]; try discriminate.
  destruct (key y) as [| | | |ky| | |]; try discriminate.
  apply String.eqb_eq in Hx, Hy. subst kx ky. simpl in H.
  rewrite ltb_irrefl in H. discriminate.
Qed.

Lemma insert_desc_stable (x : A) (l l' : list A) (t : string) :
  insert_desc key x l = Ok l' ->
  filter (keyed key t) l' = filter (keyed key t) (x :: l).
Proof.
  revert l'; induction l as [|y l IH]; intros l' H; simpl in H.
  - inversion H. reflexivity.
  - destruct (value_lt (key x) (key y)) as [[|]|e] eqn:E; simpl in H;
      try discriminate.
    + destruct (insert_desc key x l) as [rest|e] eqn:Er; simpl in H; [|discriminate].
      inversion H; subst l'. cbn [filter]. rewrite (IH rest eq_refl).
      cbn [filter].
      destruct (keyed key t x) eqn:Ex; destruct (keyed key t y) eqn:Ey;
        try reflexivity.
      exfalso. eapply below_other_key; eassumption.
    + inversion H. reflexivity.
Qed.

(** The sort is stable: elements with the same key keep their
    order. *)
Lemma sort_desc_stable (l l' : list A) (t : string) :
  sort_desc key l = Ok l' ->
  filter (keyed key t) l' = filter (keyed key t) l.
Proof.
  revert l'; induction l as [|x l IH]; intros l' H; simpl in H.
  - inversion H. reflexivity.
  - destruct (sort_desc key l) as [sorted|e] eqn:Es; simpl in H; [|discriminate].
    rewrite (insert_desc_stable _ _ t H). cbn [filter].
    rewrite (IH sorted eq_refl). reflexivity.
Qed.

End Sort.

End SortFacts.

(* ================================================================== *)
(** * The memory store: the claims *)
(* ================================================================== *)

Module MemoryClaims.

Import Memory MemorySpec PyFacts BufferFacts SortFacts.

Lemma descending_nil : descending [].
Proof. intros i j a b _ H. destruct i; discriminate. Qed.

Lemma strictly_descending_of (l : list memory) :
  descending l -> strictly_descending l.
Proof.
  intros H i j a b x y Hij Ha Hb Hx Hy Hne.
  specialize (H i j a b Hij Ha Hb). rewrite Hx, Hy in H. simpl in H.
  inversion H as [E]. apply ltb_false_neq; assumption.
Qed.

Lemma descending_firstn (n : nat) (l : list memory) :
  descending l -> descending (firstn n l).
Proof.
  intros H i j a b Hij Ha Hb.
  rewrite nth_error_firstn in Ha, Hb.
  destruct (i <? n); [|discriminate]. destruct (j <? n); [|discriminate].
  exact (H i j a b Hij Ha Hb).
Qed.

Lemma in_firstn {A : Type} (n : nat) (l : list A) (x : A) :
  In x (firstn n l) -> In x l.
Proof.
  revert l; induction n as [|n IH]; intros [|y l] H; simpl in *; try contradiction.
  destruct H as [H|H]; [left; exact H|right; apply IH; exact H].
Qed.

(** What [collect] gathers comes out of its body. *)
Lemma collect_in {A B : Type} (body : nat -> A -> result (list B)) (l : list A) :
  forall i r, collect body i l = Ok r ->
    forall m, In m r ->
      exists j a here, nth_error l j = Some a
                       /\ body (i + j) a = Ok here /\ In m here.
Proof.
  induction l as [|a l IH]; intros i r H m Hm; simpl in H.
  - inversion H; subst r. contradiction.
  - destruct (body i a) as [here|e] eqn:Eb; simpl in H; [|discriminate].
    destruct (collect body (S i) l) as [rest|e] eqn:Er; simpl in H; [|discriminate].
    inversion H; subst r. apply in_app_or in Hm. destruct Hm as [Hm|Hm].
    + exists 0, a, here. rewrite Nat.add_0_r. auto.
    + destruct (IH _ _ Er _ Hm) as [j [a' [here' [Hj [Hb Hin]]]]].
      exists (S j), a', here'. simpl. rewrite <- plus_n_Sm. auto.
Qed.

Lemma index_some {A : Type} (l : list A) (i : nat) (a : A) :
  index l i = Ok a -> nth_error l i = Some a.
Proof. unfold index. destruct (nth_error l i); congruence. Qed.

Lemma has_category_get (c : string) (meta : dict) :
  has_category c meta = true -> get "category" meta = VStr c.
Proof.
  unfold has_category. destruct (get "category" meta); try discriminate.
  intros H. apply String.eqb_eq in H. congruence.
Qed.

(** Every memory [gather] builds is an entry of the results, of the
    requested category when one is given. *)
Lemma gather_sound (results : get_results) (category : option string)
  (ms : list memory) :
  gather results category = Ok ms ->
  forall m, In m ms ->
    among results m
    /\ (forall c, category = Some c -> c <> "" ->
          get "category" (metadata m) = VStr c).
Proof.
  unfold gather. intros H m Hm.
  destruct (given_str category) eqn:Eg.
  - destruct (collect_in _ _ _ H _ Hm) as [j [meta [here [Hj [Hb Hin]]]]].
    simpl in Hb.
    destruct (has_category _ meta) eqn:Ec; [|inversion Hb; subst; contradiction].
    destruct (index (g_documents results) j) as [doc|] eqn:Ed; [|discriminate].
    destruct (index (g_ids results) j) as [the_id|] eqn:Ei; [|discriminate].
    simpl in Hb. inversion Hb; subst here. destruct Hin as [<-|[]]. simpl.
    split.
    + exists j. simpl. auto using index_some.
    + intros c Hc _. subst category. apply has_category_get. exact Ec.
  - destruct (collect_in _ _ _ H _ Hm) as [j [doc0 [here [Hj [Hb Hin]]]]].
    simpl in Hb.
    destruct (index (g_documents results) j) as [doc|] eqn:Ed; [|discriminate].
    destruct (index (g_metadatas results) j) as [meta|] eqn:Em; [|discriminate].
    destruct (index (g_ids results) j) as [the_id|] eqn:Ei; [|discriminate].
    simpl in Hb. inversion Hb; subst here. destruct Hin as [<-|[]]. simpl.
    split.
    + exists j. simpl. auto using index_some.
    + intros c Hc Hne. subst category. simpl in Eg.
      apply negb_false_iff, String.eqb_eq in Eg. contradiction.
Qed.

(** ** What [gather] gathers from an aligned answer *)

Lemma skipn_cons {A : Type} (l : list A) :
  forall i d ds, skipn i l = d :: ds ->
    nth_error l i = Some d /\ skipn (S i) l = ds.
Proof.
  induction l as [|a l IH]; intros i d ds H.
  - destruct i; discriminate.
  - destruct i as [|i].
    + simpl in H. inversion H. split; reflexivity.
    + simpl in H. apply IH in H. exact H.
Qed.

Lemma index_skipn {A : Type} (l : list A) (i : nat) (d : A) (ds : list A) :
  skipn i l = d :: ds -> index l i = Ok d.
Proof.
  intros H. unfold index. rewrite (proj1 (skipn_cons _ _ H)). reflexivity.
Qed.

Lemma filter_all {A : Type} (f : A -> bool) (l : list A) :
  (forall a, f a = true) -> filter f l = l.
Proof.
  intros H. induction l as [|a l IH]; simpl; [reflexivity|].
  rewrite H, IH. reflexivity.
Qed.

Lemma entries_of_metadata docs metas ids (m : memory) :
  In m (entries_of docs metas ids) -> In (metadata m) metas.
Proof.
  revert metas ids; induction docs as [|d docs IH]; intros [|meta metas] [|i ids] H;
    simpl in H; try contradiction.
  destruct H as [<-|H]; [left; reflexivity|right; eapply IH; exact H].
Qed.

Lemma gather_category (results : get_results) (cat : string) :
  forall metas docs ids i,
    skipn i (g_documents results) = docs ->
    skipn i (g_ids results) = ids ->
    length metas = length docs -> length ids = length docs ->
    collect (fun i meta =>
               if has_category cat meta then
                 doc <- index (g_documents results) i ;;
                 the_id <- index (g_ids results) i ;;
                 Ok [MemoryRec doc meta the_id None]
               else Ok [])
            i metas
    = Ok (filter (fun m => has_category cat (metadata m))
            (entries_of docs metas ids)).
Proof.
  induction metas as [|meta metas IH]; intros docs ids i Hd Hi Hlm Hli.
  - destruct docs; [reflexivity|discriminate].
  - destruct docs as [|d docs]; [discriminate|].
    destruct ids as [|x ids]; [discriminate|].
    cbn [collect entries_of filter metadata].
    rewrite (index_skipn _ _ Hd), (index_skipn _ _ Hi).
    rewrite (IH docs ids (S i)); simpl in Hlm, Hli; try lia;
      try (apply (skipn_cons _ _ Hd)); try (apply (skipn_cons _ _ Hi)).
    destruct (has_category cat meta); reflexivity.
Qed.

Lemma gather_all (results : get_results) :
  forall docs metas ids i,
    skipn i (g_documents results) = docs ->
    skipn i (g_metadatas results) = metas ->
    skipn i (g_ids results) = ids ->
    length metas = length docs -> length ids = length docs ->
    collect (fun i (_ : string) =>
               doc <- index (g_documents results) i ;;
               meta <- index (g_metadatas results) i ;;
               the_id <- index (g_ids results) i ;;
               Ok [MemoryRec doc meta the_id None])
            i docs
    = Ok (entries_of docs metas ids).
Proof.
  induction docs as [|d docs IH]; intros metas ids i Hd Hm Hi Hlm Hli.
  - reflexivity.
  - destruct metas as [|meta metas]; [discriminate|].
    destruct ids as [|x ids]; [discriminate|].
    cbn [collect entries_of].
    rewrite (index_skipn _ _ Hd), (index_skipn _ _ Hm), (index_skipn _ _ Hi).
    rewrite (IH metas ids (S i)); simpl in Hlm, Hli; try lia;
      try (apply (skipn_cons _ _ Hd)); try (apply (skipn_cons _ _ Hm));
      try (apply (skipn_cons _ _ Hi)).
    reflexivity.
Qed.

(** From an aligned answer [gather] takes exactly the entries asked
    for, in the order of the collection. *)
Lemma gather_exact (results : get_results) (category : option string) :
  aligned results ->
  gather results category = Ok (wanted category results).
Proof.
  intros [Hlm Hli]. unfold gather, wanted, entries.
  destruct category as [c|]; cbn [given_str truthy].
  - destruct (String.eqb c "") eqn:Ec; cbn [negb].
    + rewrite (@gather_all results (g_documents results) (g_metadatas results)
                 (g_ids results) 0) by (reflexivity || assumption).
      rewrite filter_all; [reflexivity|].
      intros a. unfold in_category. rewrite Ec. reflexivity.
    + rewrite (@gather_category results c (g_metadatas results)
                 (g_documents results) (g_ids results) 0)
        by (reflexivity || assumption).
      f_equal. apply filter_ext. intros a.
      unfold in_category, has_category. rewrite Ec. reflexivity.
  - rewrite (@gather_all results (g_documents results) (g_metadatas results)
               (g_ids results) 0) by (reflexivity || assumption).
    rewrite filter_all; [reflexivity|]. intros a. reflexivity.
Qed.

Lemma wanted_timed (results : get_results) (category : option string) :
  timed results ->
  Forall (fun m => exists t, timestamp_of m = VStr t) (wanted category results).
Proof.
  intros Ht. apply Forall_forall. intros m Hm.
  unfold wanted in Hm. apply filter_In in Hm. destruct Hm as [Hm _].
  apply entries_of_metadata in Hm. unfold timed in Ht.
  rewrite Forall_forall in Ht. exact (Ht _ Hm).
Qed.

Lemma slice_to_positive {A : Type} (b : Z) (l : list A) :
  (0 <= b)%Z -> slice_to b l = firstn (Z.to_nat b) l.
Proof.
  intros Hb. unfold slice_to, slice_bound.
  destruct (b <? 0)%Z eqn:E; [apply Z.ltb_lt in E; lia|].
  destruct (Nat.le_gt_cases (Z.to_nat b) (length l)) as [H|H].
  - rewrite Nat.min_l by exact H. reflexivity.
  - rewrite Nat.min_r by lia. rewrite !firstn_all2 by lia. reflexivity.
Qed.

Section Claims.

Variables C W : Type.
Variable db : backend C W.

(** What holds of every answer: an upper bound on what comes back. *)
Lemma recent_bounds (st : store C) (w : W)
  (category : option string) (limit : Z) :
  let recent := get_recent_memories db st w category limit in
  descending recent
  /\ strictly_descending recent
  /\ (forall c, category = Some c -> c <> "" ->
        forall m, In m recent -> get "category" (metadata m) = VStr c)
  /\ ((0 <= limit)%Z -> (Z.of_nat (length recent) <= limit)%Z)
  /\ (forall c results,
        collection st = Some c -> coll_get db c w = Ok results ->
        forall m, In m recent -> among results m).
Proof.
  cbv zeta.
  assert (Hnil : forall recent : list memory, recent = [] ->
            descending recent
            /\ strictly_descending recent
            /\ (forall c, category = Some c -> c <> "" ->
                  forall m, In m recent -> get "category" (metadata m) = VStr c)
            /\ ((0 <= limit)%Z -> (Z.of_nat (length recent) <= limit)%Z)
            /\ (forall c results,
                  collection st = Some c -> coll_get db c w = Ok results ->
                  forall m, In m recent -> among results m)).
  { intros recent ->. split; [apply descending_nil|].
    split; [apply strictly_descending_of, descending_nil|].
    split; [intros c _ _ m []|]. split; [simpl; lia|intros c r _ _ m []]. }
  unfold get_recent_memories.
  destruct (collection st) as [c|] eqn:Ec; [|apply Hnil; reflexivity].
  destruct (coll_get db c w) as [results|e] eqn:Eg; [|apply Hnil; reflexivity].
  cbn [bind].
  destruct (gather results category) as [ms|e] eqn:Em; [|apply Hnil; reflexivity].
  cbn [bind].
  destruct (sort_desc timestamp_of ms) as [sorted|e] eqn:Es;
    [|apply Hnil; reflexivity].
  cbn [bind]. clear Hnil.
  destruct (sort_desc_sorted _ _ Es) as [Hsorted Hperm].
  assert (Hdesc : descending (slice_to limit sorted)).
  { unfold slice_to. apply descending_firstn.
    intros i j a b Hij Ha Hb.
    exact (sorted_pairs Hsorted Hij Ha Hb). }
  assert (Hin : forall m, In m (slice_to limit sorted) -> In m ms).
  { intros m Hm. unfold slice_to in Hm. apply in_firstn in Hm.
    exact (Permutation_in _ Hperm Hm). }
  split; [exact Hdesc|]. split; [apply strictly_descending_of; exact Hdesc|].
  split.
  { intros cat Hcat Hne m Hm.
    exact (proj2 (gather_sound _ _ Em m (Hin m Hm)) cat Hcat Hne). }
  split; [apply slice_to_length|].
  intros c' results' Hc' Hg' m Hm.
  inversion Hc'; subst c'. rewrite Eg in Hg'. inversion Hg'; subst results'.
  exact (proj1 (gather_sound _ _ Em m (Hin m Hm))).
Qed.

(** From an aligned answer with string time stamps: the [limit]
    newest entries asked for, none left out. *)
Lemma recent_exact (st : store C) (w : W) (category : option string)
  (limit : Z) (c : C) (results : get_results) :
  collection st = Some c -> coll_get db c w = Ok results ->
  aligned results -> timed results -> (0 <= limit)%Z ->
  let recent := get_recent_memories db st w category limit in
  exists rest,
    Permutation (recent ++ rest) (wanted category results)
    /\ descending (recent ++ rest)
    /\ (forall t, filter (keyed timestamp_of t) (recent ++ rest)
                  = filter (keyed timestamp_of t) (wanted category results))
    /\ length recent
       = Nat.min (Z.to_nat limit) (length (wanted category results)).
Proof.
  intros Hc Hg Ha Ht Hl. cbv zeta. unfold get_recent_memories.
  rewrite Hc, Hg. cbn [bind]. rewrite (gather_exact category Ha). cbn [bind].
  destruct (@sort_desc_strings _ timestamp_of (wanted category results)
              (wanted_timed category Ht)) as [sorted Hs].
  rewrite Hs. cbn [bind].
  destruct (sort_desc_sorted _ _ Hs) as [Hsorted Hperm].
  rewrite slice_to_positive by exact Hl.
  exists (skipn (Z.to_nat limit) sorted). rewrite firstn_skipn.
  split; [exact Hperm|]. split.
  - intros i j a b Hij Hi Hj. exact (sorted_pairs Hsorted Hij Hi Hj).
  - split.
    + intros t. apply sort_desc_stable. exact Hs.
    + rewrite length_firstn, (Permutation_length Hperm). reflexivity.
Qed.

(** C7 (amended): whatever the collection holds and in whatever order
    it lists its entries, [get_recent_memories] returns entries of the
    collection sorted by their metadata time stamp, newest first, all
    of the requested category when one is given, and at most [limit]
    of them.  The order is strict between different time stamps only:
    entries with the same time stamp stay in the order of the
    collection.  When the collection answers with aligned lists whose
    time stamps are strings, what comes back is exactly the [limit]
    newest entries asked for ([limit] not negative): with the entries
    left out put behind it, the result is the stable descending
    rearrangement of all the entries asked for, and it has [limit]
    entries or all of them. *)
Theorem recency_ordering (st : store C) (w : W)
  (category : option string) (limit : Z) :
  let recent := get_recent_memories db st w category limit in
  descending recent
  /\ strictly_descending recent
  /\ (forall c, category = Some c -> c <> "" ->
        forall m, In m recent -> get "category" (metadata m) = VStr c)
  /\ ((0 <= limit)%Z -> (Z.of_nat (length recent) <= limit)%Z)
  /\ (forall c results,
        collection st = Some c -> coll_get db c w = Ok results ->
        forall m, In m recent -> among results m)
  /\ (forall c results,
        collection st = Some c -> coll_get db c w = Ok results ->
        aligned results -> timed results -> (0 <= limit)%Z ->
        exists rest,
          Permutation (recent ++ rest) (wanted category results)
          /\ descending (recent ++ rest)
          /\ (forall t, filter (keyed timestamp_of t) (recent ++ rest)
                        = filter (keyed timestamp_of t)
                            (wanted category results))
          /\ length recent
             = Nat.min (Z.to_nat limit) (length (wanted category results))).
Proof.
  cbv zeta.
  destruct (recent_bounds st w category limit) as [H1 [H2 [H3 [H4 H5]]]].
  split; [exact H1|]. split; [exact H2|]. split; [exact H3|].
  split; [exact H4|]. split; [exact H5|].
  intros c results Hc Hg Ha Ht Hl.
  exact (recent_exact st w category Hc Hg Ha Ht Hl).
Qed.

(** C8: when the collection failed to initialize, the read operations
    return the empty sequence and [add_memory] returns [None] and leaves
    everything as it was; when a call to the collection raises (or the
    formatting of its answer does), a read still returns the empty
    sequence, and [add_memory] returns [None] and leaves the object as
    it was; and a search whose answer has no document returns the empty
    sequence. *)
Theorem graceful_degradation (st : store C) (w : W) :
  (collection st = None ->
     (forall query category n,
        search_memories db st w query category n = [])
     /\ (forall category limit,
           get_recent_memories db st w category limit = [])
     /\ (forall ck content category metadata embedding,
           add_memory db st w ck content category metadata embedding
           = (st, w, None)))
  /\ (forall c, collection st = Some c ->
        (forall query category n e,
           coll_query db c w query n (where_of category) = Raise e ->
           search_memories db st w query category n = [])
        /\ (forall query category n results e,
              coll_query db c w query n (where_of category) = Ok results ->
              format_results results = Raise e ->
              search_memories db st w query category n = [])
        /\ (forall query category n results,
              coll_query db c w query n (where_of category) = Ok results ->
              hd [] (q_documents results) = [] ->
              search_memories db st w query category n = [])
        /\ (forall category limit e,
              coll_get db c w = Raise e ->
              get_recent_memories db st w category limit = [])
        /\ (forall k w' e,
              coll_add db c w (k_content k) (stored_meta k)
                (_generate_id db (k_clock k) (k_content k) (k_category k))
                (embeddings_arg (k_embedding k)) = (w', Raise e) ->
              add_call db st w k = (st, w', None))).
Proof.
  split.
  - intros Hnone. unfold search_memories, get_recent_memories, add_memory.
    rewrite Hnone. auto.
  - intros c Hc. unfold search_memories, get_recent_memories.
    rewrite Hc. fold (where_of).
    split; [|split; [|split; [|split]]].
    + intros query category n e H.
      change (if given_str category then _ else None) with (where_of category).
      rewrite H. reflexivity.
    + intros query category n results e H Hf.
      change (if given_str category then _ else None) with (where_of category).
      rewrite H. cbn [bind]. rewrite Hf. reflexivity.
    + intros query category n results H Hd.
      change (if given_str category then _ else None) with (where_of category).
      rewrite H. cbn [bind]. unfold format_results.
      destruct (q_documents results) as [|docs0 rest]; [reflexivity|].
      simpl in Hd. subst docs0. reflexivity.
    + intros category limit e H. rewrite H. reflexivity.
    + intros k w' e H. unfold add_call, add_memory. rewrite Hc.
      unfold stored_meta in H. cbv zeta in H. rewrite H. reflexivity.
Qed.

End Claims.


(** C7 (as stated) fails on two entries with the same time stamp:
    the result lists both, and neither is strictly newer than the
    other. *)
Lemma recency_not_strict :
  ~ strictly_newest_first
      (get_recent_memories ListDb.db (ListDb.fresh 50) ListDb.twins None 10).
Proof.
  intros H.
  specialize (H 0 1 (MemoryRec "one"
                       [("category", VStr "conversation");
                        ("timestamp", VStr "2024-05-01T10:00:00")] "a" None)
                (MemoryRec "two"
                       [("category", VStr "conversation");
                        ("timestamp", VStr "2024-05-01T10:00:00")] "b" None)
                ltac:(lia) eq_refl eq_refl).
  vm_compute in H. discriminate.
Qed.

Lemma recency_ordering_witness :
  map content
    (get_recent_memories ListDb.db (ListDb.fresh 50) ListDb.three_entries
       (Some "conversation") 2) = ["third"; "second"]
  /\ (forall m,
        In m (get_recent_memories ListDb.db (ListDb.fresh 50)
                ListDb.three_entries (Some "conversation") 2) ->
        get "category" (metadata m) = VStr "conversation")
  /\ exists rest,
       Permutation
         (get_recent_memories ListDb.db (ListDb.fresh 50)
            ListDb.three_entries (Some "conversation") 2 ++ rest)
         (wanted (Some "conversation")
            (GetResults (map ListDb.e_id ListDb.three_entries)
               (map ListDb.e_document ListDb.three_entries)
               (map ListDb.e_metadata ListDb.three_entries)))
       /\ length
            (get_recent_memories ListDb.db (ListDb.fresh 50)
               ListDb.three_entries (Some "conversation") 2) = 2.
Proof.
  split; [vm_compute; reflexivity|].
  destruct (recency_ordering ListDb.db (ListDb.fresh 50) ListDb.three_entries
              (Some "conversation") 2) as [_ [_ [H [_ [_ Hexact]]]]].
  split; [apply (H "conversation" eq_refl); discriminate|].
  destruct (Hexact tt
              (GetResults (map ListDb.e_id ListDb.three_entries)
                 (map ListDb.e_document ListDb.three_entries)
                 (map ListDb.e_metadata ListDb.three_entries))
              eq_refl eq_refl)
    as [rest [Hp [_ [_ Hlen]]]].
  - split; reflexivity.
  - repeat constructor; eexists; reflexivity.
  - lia.
  - exists rest. split; [exact Hp|exact Hlen].
Defined.

Lemma graceful_degradation_witness :
  search_memories ListDb.db (ListDb.unavailable 50) [] "hello" None 5 = []
  /\ get_recent_memories ListDb.down (ListDb.fresh 50) [] None 10 = []
  /\ search_memories ListDb.db (ListDb.fresh 50) [] "hello" None 5 = [].
Proof.
  destruct (graceful_degradation ListDb.db (ListDb.unavailable 50) [])
    as [Hnone _].
  destruct (graceful_degradation ListDb.down (ListDb.fresh 50) [])
    as [_ Hdown].
  destruct (graceful_degradation ListDb.db (ListDb.fresh 50) [])
    as [_ Hempty].
  split; [apply (proj1 (Hnone eq_refl))|].
  split.
  - destruct (Hdown tt eq_refl) as [_ [_ [_ [H _]]]].
    apply (H None 10%Z ListDb.out_of_service). reflexivity.
  - destruct (Hempty tt eq_refl) as [_ [_ [H _]]].
    eapply H; reflexivity.
Defined.

(** C6 (at capacity 0): one [add_conversation] on a fresh store whose
    [max_buffer_size] is 0 leaves two entries in the buffer, which
    exceeds the capacity: the slice [buf[-0:]] keeps everything. *)
Theorem buffer_exceeds_zero_capacity :
  let st := fst (add_conversation ListDb.db (ListDb.fresh 0) []
                   (ListDb.tick 0) (ListDb.tick 1) "hi" "hello") in
  max_buffer_size st = 0%Z
  /\ map b_content (conversation_buffer st) = ["User: hi"; "Assistant: hello"]
  /\ (max_buffer_size st < Z.of_nat (length (conversation_buffer st)))%Z.
Proof.
  vm_compute. repeat split; reflexivity.
Qed.

End MemoryClaims.

(* ================================================================== *)
(** * The context composer: the claim *)
(* ================================================================== *)

Module ComposerClaims.

Import Memory MemorySpec Composer ComposerSpec PyFacts.

Lemma append_length (a b : string) : len (a ^^ b) = len a + len b.
Proof.
  unfold len. induction a as [|c a IH]; simpl; [reflexivity|].
  rewrite IH. reflexivity.
Qed.

Lemma substring_length_le (s : string) (n m : nat) : len (substring n m s) <= m.
Proof.
  unfold len. revert n m; induction s as [|c s IH]; intros n m; simpl.
  - destruct n, m; simpl; lia.
  - destruct n as [|n].
    + destruct m as [|m]; simpl; [lia|]. specialize (IH 0 m). lia.
    + apply IH.
Qed.

(** A preview shows at most 200 characters of the text. *)
Lemma preview_length (text : string) : len (preview text) <= 205.
Proof.
  unfold preview, prefix_to. rewrite !append_length.
  pose proof (substring_length_le text 0 200). simpl. lia.
Qed.

Lemma truthy_list {A : Type} (f : A -> value) (l : list A) :
  truthy (VList (map f l)) = match l with [] => false | _ => true end.
Proof. destruct l; reflexivity. Qed.

Section Claims.

Variables C W : Type.
Variable db : backend C W.

(** [get_context_for_conversation], read as the lines of (1) and (2). *)
Lemma memory_context_lines (st : store C) (w : W) (user_input : string) :
  get_context_for_conversation db st w user_input 5
  = match relevant_lines db st w user_input ++ recent_lines st with
    | [] => ""
    | lines => join nl lines
    end.
Proof.
  unfold get_context_for_conversation, relevant_lines, recent_lines.
  rewrite !truthy_list.
  assert (Hrecent : (if match conversation_buffer st with
                        | [] => false
                        | _ => true
                        end
                     then slice_from (- (5)) (conversation_buffer st)
                     else []) = last_n 5 (conversation_buffer st)).
  { destruct (conversation_buffer st) eqn:E; [reflexivity|].
    rewrite <- E. apply (@slice_from_neg _ 5%Z). lia. }
  rewrite Hrecent.
  destruct (search_memories db st w user_input (Some "conversation") 5)
    as [|m ms]; destruct (last_n 5 (conversation_buffer st)) as [|e es];
    cbn [app]; rewrite <- ?app_assoc, ?app_nil_r; cbn [app]; reflexivity.
Qed.

Lemma memory_context_truthy (st : store C) (w : W) (user_input : string) :
  truthy (VStr (get_context_for_conversation db st w user_input 5))
  = match relevant_lines db st w user_input ++ recent_lines st with
    | [] => false
    | _ => true
    end.
Proof.
  rewrite memory_context_lines.
  unfold relevant_lines, recent_lines.
  destruct (search_memories db st w user_input (Some "conversation") 5)
    as [|m ms]; destruct (last_n 5 (conversation_buffer st)) as [|e es];
    reflexivity.
Qed.

(** The section of the live observation never shows the sentinel. *)
Lemma webcam_section_not_sentinel (webcam : option string) (intent : dict) :
  ~ In ("Current Webcam: " ^^ no_feed) (webcam_section webcam intent).
Proof.
  unfold webcam_section. destruct webcam as [obs|]; [|intros []].
  destruct (Router.is_str "webcam_analyze" (get "type" intent)); [intros []|].
  destruct (String.eqb obs no_feed) eqn:E; [intros []|].
  intros [H|[]]. simpl in H. inversion H as [Hobs].
  apply String.eqb_neq in E. apply E. exact Hobs.
Qed.

(** C9 (amended): the composed context is, in this order, (1) the
    relevant past conversation memories and (2) the most recent buffer
    entries, each shown as a preview of at most 200 characters, (3) the
    live webcam observation when there is a webcam, the turn is not
    [webcam_analyze] and the observation is not the sentinel, then the
    tool result when the turn has one, and (4) the description of the
    detected intent; the memory sections are left out when they have no
    content, and a live observation equal to the sentinel is treated
    as absent: the section [Current Webcam: No webcam feed available]
    is never appended. *)
Theorem context_composition (st : store C) (w : W) (webcam : option string)
  (user_input : string) (intent : dict) (tool_result : option string)
  (description : string) :
  Router.get_intent_description (get_default "type" (VStr "unknown") intent)
  = Ok description ->
  _build_context db st w webcam user_input intent tool_result
  = Ok (composed_context db st w webcam user_input intent tool_result description)
  /\ (webcam = Some no_feed -> webcam_section webcam intent = [])
  /\ ~ In ("Current Webcam: " ^^ no_feed) (webcam_section webcam intent)
  /\ (search_memories db st w user_input (Some "conversation") 5 = [] ->
      conversation_buffer st = [] ->
      memory_section db st w user_input = [])
  /\ (forall text, len (preview text) <= 205).
Proof.
  intros Hdesc. split; [|split; [|split; [|split]]].
  - unfold _build_context, composed_context. rewrite Hdesc. cbn [bind].
    rewrite memory_context_truthy.
    unfold memory_section. rewrite memory_context_lines.
    f_equal. f_equal. rewrite app_nil_l.
    assert (Hcam : forall parts : list string,
              match webcam with
              | Some webcam_context =>
                  if negb (Router.is_str "webcam_analyze" (get "type" intent))
                  then
                    if negb (String.eqb webcam_context no_feed)
                    then parts ++ ["Current Webcam: " ^^ webcam_context]
                    else parts
                  else parts
              | None => parts
              end = parts ++ webcam_section webcam intent).
    { intros parts. unfold webcam_section. destruct webcam as [obs|];
        [|rewrite app_nil_r; reflexivity].
      destruct (Router.is_str "webcam_analyze" (get "type" intent)); simpl;
        [rewrite app_nil_r; reflexivity|].
      destruct (String.eqb obs no_feed); simpl;
        [rewrite app_nil_r; reflexivity|reflexivity]. }
    rewrite Hcam.
    assert (Htool : forall parts : list string,
              (if given_str tool_result
               then parts ++ ["Tool Result: "
                              ^^ match tool_result with Some x => x | None => "" end]
               else parts) = parts ++ tool_section tool_result).
    { intros parts. unfold tool_section, given_str. destruct tool_result as [x|];
        [|rewrite app_nil_r; reflexivity].
      simpl. destruct (String.eqb x ""); simpl;
        [rewrite app_nil_r; reflexivity|reflexivity]. }
    rewrite Htool. unfold intent_section.
    destruct (relevant_lines db st w user_input ++ recent_lines st);
      simpl; rewrite <- ?app_assoc; reflexivity.
  - intros ->. unfold webcam_section.
    destruct (Router.is_str "webcam_analyze" (get "type" intent)); reflexivity.
  - apply webcam_section_not_sentinel.
  - intros Hs Hb. unfold memory_section, relevant_lines, recent_lines.
    rewrite Hs, Hb. reflexivity.
  - apply preview_length.
Qed.

End Claims.


(** C9 (as stated) fails on a turn that ran a tool: the context then
    has a section the claim does not list, between the webcam
    observation and the intent. *)
Lemma context_has_tool_section :
  _build_context ListDb.db (ListDb.fresh 50) [] (Some lit_scene)
    "type: hi" typing_turn (Some "Typed: hi")
  = Ok ("Current Webcam: Webcam scene: Scene has normal lighting. " ^^ nl ^^ nl
        ^^ "Tool Result: Typed: hi" ^^ nl ^^ nl
        ^^ "Detected Intent: Type text input")
  /\ _build_context ListDb.db (ListDb.fresh 50) [] (Some lit_scene)
       "type: hi" typing_turn (Some "Typed: hi")
     <> Ok (claimed_context ListDb.db (ListDb.fresh 50) [] (Some lit_scene)
              "type: hi" "Type text input").
Proof.
  split; [vm_compute; reflexivity|].
  vm_compute. discriminate.
Qed.

(** The tool result is appended as it is.  On a [webcam_analyze] turn
    it is what the webcam answered, so that without a frame the
    sentinel reaches the context as the result of the tool. *)
Lemma sentinel_as_tool_result :
  let turn :=
    Executor._execute_intent ListDb.db (fun _ => "") (fun _ => "")
      (fun _ => "") "" (fun _ _ => "") [] (ListDb.tick 1)
      (Executor.Outside (Ok "") (Some (Ok no_feed)) (Ok "n")
         (Ok tt) (Ok tt) (Ok tt))
      [("type", VStr "webcam_analyze")]
      (Executor.Machine (ListDb.fresh 50) [] []) in
  snd turn = Some no_feed
  /\ _build_context ListDb.db (Executor.mem (fst turn))
       (Executor.service (fst turn)) (Some no_feed)
       "what do you see" [("type", VStr "webcam_analyze")] (snd turn)
     = Ok ("Tool Result: No webcam feed available" ^^ nl ^^ nl
           ^^ "Detected Intent: Analyze webcam feed").
Proof.
  split; vm_compute; reflexivity.
Qed.

Lemma context_composition_witness :
  _build_context ListDb.db (ListDb.fresh 50) [] (Some no_feed)
    "type: hi" typing_turn (Some "Typed: hi")
  = Ok ("Tool Result: Typed: hi" ^^ nl ^^ nl
        ^^ "Detected Intent: Type text input").
Proof.
  destruct (@context_composition unit ListDb.world ListDb.db (ListDb.fresh 50) []
              (Some no_feed) "type: hi" typing_turn (Some "Typed: hi")
              "Type text input" eq_refl) as [H _].
  rewrite H. vm_compute. reflexivity.
Defined.

End ComposerClaims.

(* ================================================================== *)
(** * The examples of the specification, evaluated *)
(* ================================================================== *)

Module Examples.

Import Router Memory.

Example click_500_400 :
  parse_intent "2024-05-01T10:00:00" "click 500 400"
  = Ok [ ("type", VStr "click"); ("confidence", VNum (8 # 10));
         ("entities", VDict []); ("raw_text", VStr "click 500 400");
         ("timestamp", VStr "2024-05-01T10:00:00");
         ("match", VStr "click 500 400");
         ("groups", VTuple [VStr "500"; VStr "400"]);
         ("x", VInt 500); ("y", VInt 400) ].
Proof. vm_compute. reflexivity. Qed.

Example type_hello_professor :
  parse_intent "2024-05-01T10:00:00" "type: Hello Professor"
  = Ok [ ("type", VStr "type_text"); ("confidence", VNum (8 # 10));
         ("entities", VDict []); ("raw_text", VStr "type: hello professor");
         ("timestamp", VStr "2024-05-01T10:00:00");
         ("match", VStr "type: hello professor");
         ("groups", VTuple [VStr "hello professor"]);
         ("text", VStr "hello professor") ].
Proof. vm_compute. reflexivity. Qed.

(** "help" occurs in the text, so the pattern tier answers before the
    keyword tier is asked. *)
Example please_help_me :
  parse_intent "2024-05-01T10:00:00" "please help me"
  = Ok [ ("type", VStr "help_request"); ("confidence", VNum (8 # 10));
         ("entities", VDict []); ("raw_text", VStr "please help me");
         ("timestamp", VStr "2024-05-01T10:00:00");
         ("match", VStr "help"); ("groups", VTuple [VStr "help"]) ].
Proof. vm_compute. reflexivity. Qed.

Example how_what :
  parse_intent "2024-05-01T10:00:00" "how what"
  = Ok [ ("type", VStr "help_request"); ("confidence", VNum (6 # 10));
         ("entities", VDict []); ("raw_text", VStr "how what");
         ("timestamp", VStr "2024-05-01T10:00:00");
         ("keyword_score", VNum (2 # 5)) ].
Proof. vm_compute. reflexivity. Qed.

Example unknown_with_entities :
  parse_intent "2024-05-01T10:00:00" "xyzzy bob@example.com 10:30 PM"
  = Ok [ ("type", VStr "unknown"); ("confidence", VNum 0);
         ("entities",
          VDict [ ("coordinates",
                   VList [VTuple [VStr "1"; VStr "0"]; VTuple [VStr "3"; VStr "0"]]);
                  ("email", VList [VStr "bob@example.com"]);
                  ("time", VList [VStr "10:30 pm"]) ]);
         ("raw_text", VStr "xyzzy bob@example.com 10:30 pm");
         ("timestamp", VStr "2024-05-01T10:00:00") ].
Proof. vm_compute. reflexivity. Qed.

Example validate_empty_text :
  snd (validate_intent [("type", VStr "type_text"); ("text", VStr "")])
  = Ok (Validation false ["No text specified for typing"]
          ["Extract text to type"; "Confirm text content";
           "Execute typing action"]).
Proof. vm_compute. reflexivity. Qed.

(** A capacity of 3: after two conversation turns the buffer holds the
    last three of the four entries. *)
Example buffer_of_three :
  map b_content
    (conversation_buffer
       (fst (add_conversation ListDb.db
               (fst (add_conversation ListDb.db (ListDb.fresh 3) []
                       (ListDb.tick 0) (ListDb.tick 1) "one" "two"))
               (snd (add_conversation ListDb.db (ListDb.fresh 3) []
                       (ListDb.tick 0) (ListDb.tick 1) "one" "two"))
               (ListDb.tick 2) (ListDb.tick 3) "three" "four")))
  = ["Assistant: two"; "User: three"; "Assistant: four"].
Proof. vm_compute. reflexivity. Qed.

End Examples.

(* ================================================================== *)
(** * More about the router: the record, the tiers, normalization *)
(* ================================================================== *)

Module RouterMore.

Import Regex Catalog Router Spec Notions PyFacts RegexFacts LoopFacts
  PatternFacts KeywordFacts EntityFacts RouterFacts.

(** ** Normalization *)

Lemma lower_char_idem (c : ascii) : lower_char (lower_char c) = lower_char c.
Proof. destruct c as [[] [] [] [] [] [] [] []]; reflexivity. Qed.

Lemma lower_char_space (c : ascii) : is_space (lower_char c) = is_space c.
Proof. destruct c as [[] [] [] [] [] [] [] []]; reflexivity. Qed.

Lemma chars_str (l : list ascii) : chars (str l) = l.
Proof. apply list_ascii_of_string_of_list_ascii. Qed.

Lemma lstrip_lower (l : list ascii) :
  lstrip_chars (map lower_char l) = map lower_char (lstrip_chars l).
Proof.
  induction l as [|c l IH]; simpl; [reflexivity|].
  rewrite lower_char_space. destruct (is_space c); [exact IH|reflexivity].
Qed.


Lemma lstrip_trimmed (l : list ascii) : trimmed (lstrip_chars l).
Proof.
  induction l as [|c l IH]; simpl; [exact I|].
  destruct (is_space c) eqn:E; [exact IH|exact E].
Qed.

Lemma lstrip_of_trimmed (l : list ascii) : trimmed l -> lstrip_chars l = l.
Proof. destruct l as [|c l]; simpl; [reflexivity|]. intros ->. reflexivity. Qed.

Lemma lstrip_suffix (l : list ascii) : exists p, l = p ++ lstrip_chars l.
Proof.
  induction l as [|c l [p IH]]; simpl; [exists []; reflexivity|].
  destruct (is_space c); [|exists []; reflexivity].
  exists (c :: p). simpl. f_equal. exact IH.
Qed.


Lemma strip_chars_trimmed (l : list ascii) : trimmed (strip_chars l).
Proof.
  unfold strip_chars.
  pose proof (lstrip_trimmed l) as Hm.
  destruct (lstrip_suffix (rev (lstrip_chars l))) as [p Hp].
  set (q := lstrip_chars (rev (lstrip_chars l))) in *.
  assert (Hmq : lstrip_chars l = rev q ++ rev p).
  { rewrite <- rev_app_distr, <- Hp, rev_involutive. reflexivity. }
  destruct (rev q) as [|c rq]; [exact I|].
  rewrite Hmq in Hm. exact Hm.
Qed.

Lemma strip_chars_idem (l : list ascii) : strip_chars (strip_chars l) = strip_chars l.
Proof.
  unfold strip_chars at 1.
  rewrite (lstrip_of_trimmed _ (strip_chars_trimmed l)).
  unfold strip_chars. rewrite rev_involutive.
  rewrite (lstrip_of_trimmed _ (lstrip_trimmed _)). reflexivity.
Qed.

Lemma strip_chars_lower (l : list ascii) :
  strip_chars (map lower_char l) = map lower_char (strip_chars l).
Proof.
  unfold strip_chars.
  rewrite lstrip_lower, <- map_rev, lstrip_lower, <- map_rev. reflexivity.
Qed.

Lemma normalize_chars (text : string) :
  normalize text = str (strip_chars (map lower_char (chars text))).
Proof. unfold normalize, strip, lower. rewrite chars_str. reflexivity. Qed.

(** X3: normalizing is idempotent, and [parse_intent] only depends on
    the normalized text: a text and its lower-cased, trimmed form are
    classified alike. *)
Theorem parse_intent_normalized (now text : string) :
  normalize (normalize text) = normalize text
  /\ parse_intent now (normalize text) = parse_intent now text.
Proof.
  assert (Hidem : normalize (normalize text) = normalize text).
  { rewrite (normalize_chars (normalize text)), (normalize_chars text).
    rewrite chars_str. f_equal.
    rewrite <- strip_chars_lower, map_map.
    rewrite (map_ext _ lower_char lower_char_idem).
    rewrite strip_chars_lower, <- strip_chars_lower.
    rewrite strip_chars_lower.
    rewrite <- strip_chars_lower, strip_chars_idem. reflexivity. }
  split; [exact Hidem|].
  unfold parse_intent. cbv zeta.
  change (strip (lower (normalize text))) with (normalize (normalize text)).
  rewrite Hidem. reflexivity.
Qed.

(** ** The record *)

Lemma pattern_record_rest (now text : string) (c : candidate) (data : dict) :
  slot_data data ->
  let r := dict_set "confidence" (VNum (8 # 10))
             (dict_update (blank now text)
                (dict_update (candidate_dict c) data)) in
  get "timestamp" r = VStr now
  /\ dict_get "match" r = Some (VStr (c_match c))
  /\ dict_get "keyword_score" r = None
  /\ dict_get "subtype" r = None.
Proof.
  intros H. destruct H; cbn; repeat split; reflexivity.
Qed.

(** X1: [parse_intent] never raises; the record it returns carries a
    kind, a confidence, an entity dictionary, the normalized text as
    [raw_text] and the time stamp it was given. *)
Theorem parse_intent_record (now text : string) :
  exists r ty c es,
    parse_intent now text = Ok r
    /\ get "type" r = VStr ty
    /\ get "confidence" r = VNum c
    /\ get "entities" r = VDict es
    /\ get "raw_text" r = VStr (normalize text)
    /\ get "timestamp" r = VStr now.
Proof.
  destruct (parse_intent_outcome now text)
    as [d Hd Hin|c data Hx Hc Hs Hty|k entry q Hx Hp Hbest Hq Hk
       |k entry q Hx Hp Hbest Hq Hk].
  - generalize dependent (normalize text). intros t Hd Hin. simpl in Hin.
    repeat (destruct Hin as [Hin|Hin];
            [inversion Hin; subst;
             eexists; eexists; eexists; eexists;
             split; [reflexivity|cbn; repeat split; reflexivity]|]).
    contradiction.
  - destruct (pattern_record now (normalize text) c Hs)
      as [_ [H1 [_ [H2 [H3 H4]]]]].
    cbv zeta in H1, H2, H3, H4.
    change (weight "pattern_match") with (8 # 10)%Q in H1, H2, H3, H4.
    destruct (pattern_record_rest now (normalize text) c Hs) as [H5 _].
    cbv zeta in H5.
    eexists. exists (c_type c), (8 # 10)%Q, [].
    split; [reflexivity|]. repeat split; assumption.
  - eexists. exists (fst entry), (6 # 10)%Q, [].
    split; [reflexivity|]. cbn. repeat split; reflexivity.
  - eexists. exists "unknown", 0%Q, (_extract_entities (normalize text)).
    split; [reflexivity|]. cbn. repeat split; reflexivity.
Qed.

Lemma exact_record (now t : string) (d : dict) :
  In (t, d) exact_phrases ->
  let r := dict_set "confidence" (VNum 1) (dict_update (blank now t) d) in
  get "confidence" r = VNum 1 /\ get "type" r <> VStr "unknown".
Proof.
  intros Hin. simpl in Hin.
  repeat (destruct Hin as [Hin|Hin];
          [inversion Hin; subst; cbn; split; [reflexivity|discriminate]|]).
  contradiction.
Qed.

(** X2: the confidence names the tier that answered: 1.0 exactly when
    the text is an exact phrase, 0.8 exactly when it is not but a
    pattern matched, 0.6 exactly when only the keyword tier answered,
    and 0.0 exactly when none did, which is also exactly when the kind
    is [unknown]. *)
Theorem confidence_names_tier (now text : string) :
  let t := normalize text in
  exists r,
    parse_intent now text = Ok r
    /\ (get "confidence" r = VNum 1 <-> _check_exact_matches t <> None)
    /\ (get "confidence" r = VNum (8 # 10)
        <-> _check_exact_matches t = None
            /\ _check_pattern_matches t <> Ok None)
    /\ (get "confidence" r = VNum (6 # 10)
        <-> _check_exact_matches t = None
            /\ _check_pattern_matches t = Ok None
            /\ _check_keyword_matches t <> Ok None)
    /\ (get "confidence" r = VNum 0
        <-> _check_exact_matches t = None
            /\ _check_pattern_matches t = Ok None
            /\ _check_keyword_matches t = Ok None)
    /\ (get "confidence" r = VNum 0 <-> get "type" r = VStr "unknown").
Proof.
  cbv zeta.
  destruct (parse_intent_outcome now text)
    as [d Hd Hin|c data Hx Hc Hs Hty|k entry q Hx Hp Hbest Hq Hk
       |k entry q Hx Hp Hbest Hq Hk].
  - destruct (exact_record now Hin) as [H1 H2]. cbv zeta in H1, H2.
    eexists. split; [reflexivity|]. rewrite H1, Hd. clear H1 Hin.
    split; [split; [discriminate|reflexivity]|].
    split; [split; [discriminate|intros [H _]; discriminate]|].
    split; [split; [discriminate|intros [H _]; discriminate]|].
    split; [split; [discriminate|intros [H _]; discriminate]|].
    split; [discriminate|]. intros H. contradiction.
  - destruct (pattern_record now (normalize text) c Hs)
      as [_ [H1 [_ [H2 _]]]].
    cbv zeta in H1, H2.
    change (weight "pattern_match") with (8 # 10)%Q in H1, H2.
    assert (Hne : c_type c <> "unknown").
    { apply in_map_iff in Hty. destruct Hty as [[ty p] [Heq Hin]].
      simpl in Heq. subst ty. exact (catalog_types Hin). }
    eexists. split; [reflexivity|]. rewrite H1, H2, Hx, Hc. clear H1 H2 Hty Hs.
    split; [split; [discriminate|intros H; contradiction]|].
    split; [split; [intros _; split; [reflexivity|discriminate]|reflexivity]|].
    split; [split; [discriminate|intros [_ [H _]]; discriminate]|].
    split; [split; [discriminate|intros [_ [H _]]; discriminate]|].
    split; [discriminate|]. intros H. inversion H. contradiction.
  - assert (Hin : In entry keywords)
      by (destruct Hbest as [Hn _]; eapply nth_error_In; exact Hn).
    destruct (keywords_sizes Hin) as [_ [Hname _]].
    eexists. split; [reflexivity|]. rewrite Hx, Hp, Hk.
    change (get "confidence" _) with (VNum (6 # 10)).
    change (get "type" _) with (VStr (fst entry)).
    clear Hbest Hin.
    split; [split; [discriminate|intros H; contradiction]|].
    split; [split; [discriminate|intros [_ H]; contradiction]|].
    split; [split; [intros _; repeat split; discriminate|reflexivity]|].
    split; [split; [discriminate|intros [_ [_ H]]; discriminate]|].
    split; [discriminate|]. intros H. inversion H. contradiction.
  - eexists. split; [reflexivity|]. rewrite Hx, Hp, Hk.
    change (get "confidence" _) with (VNum 0).
    change (get "type" _) with (VStr "unknown").
    split; [split; [discriminate|intros H; contradiction]|].
    split; [split; [discriminate|intros [_ H]; contradiction]|].
    split; [split; [discriminate|intros [_ [_ H]]; contradiction]|].
    split; [split; [intros _; repeat split; reflexivity|reflexivity]|].
    split; reflexivity.
Qed.

(** ** The descriptions *)

Lemma kinds_described :
  forallb (fun ty => match lookup ty descriptions with
                     | Some d => negb (String.eqb d "Unknown intent")
                                 && negb (String.eqb d "")
                     | None => false
                     end)
    ("unknown"
     :: map (fun pd => match get "type" (snd pd) with VStr ty => ty | _ => "" end)
          exact_phrases
     ++ map fst intent_patterns ++ map fst keywords) = true.
Proof. vm_compute. reflexivity. Qed.

(** X4: every kind [parse_intent] can return has its own entry in the
    table of descriptions: [get_intent_description] never raises on the
    kind of a record of the router, and never falls back on its default
    ['Unknown intent']. *)
Theorem router_kinds_described (now text : string) :
  exists r d,
    parse_intent now text = Ok r
    /\ get_intent_description (get_default "type" (VStr "unknown") r) = Ok d
    /\ d <> "Unknown intent" /\ d <> "".
Proof.
  assert (Hall : forall ty,
            In ty ("unknown"
                   :: map (fun pd => match get "type" (snd pd) with
                                     | VStr ty => ty | _ => "" end) exact_phrases
                   ++ map fst intent_patterns ++ map fst keywords) ->
            exists d, get_intent_description (VStr ty) = Ok d
                      /\ d <> "Unknown intent" /\ d <> "").
  { intros ty Hin. pose proof kinds_described as E.
    rewrite forallb_forall in E. specialize (E ty Hin).
    unfold get_intent_description. cbn [hashable].
    destruct (lookup ty descriptions) as [d|]; [|discriminate].
    apply andb_true_iff in E. destruct E as [E1 E2].
    apply negb_true_iff, String.eqb_neq in E1.
    apply negb_true_iff, String.eqb_neq in E2.
    exists d. auto. }
  destruct (parse_intent_outcome now text)
    as [d Hd Hin|c data Hx Hc Hs Hty|k entry q Hx Hp Hbest Hq Hk
       |k entry q Hx Hp Hbest Hq Hk].
  - generalize dependent (normalize text). intros t Hd Hin. simpl in Hin.
    repeat (destruct Hin as [Hin|Hin];
            [inversion Hin; subst; eexists; eexists;
             split; [reflexivity|cbn; repeat split; discriminate]|]).
    contradiction.
  - destruct (pattern_record now (normalize text) c Hs) as [_ [H1 _]].
    cbv zeta in H1. change (weight "pattern_match") with (8 # 10)%Q in H1.
    assert (Hg : get_default "type" (VStr "unknown")
                   (dict_set "confidence" (VNum (8 # 10))
                      (dict_update (blank now (normalize text))
                         (dict_update (candidate_dict c) data)))
                 = VStr (c_type c)).
    { destruct Hs; reflexivity. }
    destruct (Hall (c_type c)) as [d [Hd1 Hd2]].
    { right. apply in_or_app. right. apply in_or_app. left.
      apply in_map_iff in Hty. destruct Hty as [[ty p] [Heq Hin]].
      simpl in Heq. subst ty. unfold flat_patterns in Hin.
      apply in_flat_map in Hin. destruct Hin as [[ty' ps] [Hin1 Hin2]].
      apply in_map_iff in Hin2. destruct Hin2 as [p' [Heq' _]].
      inversion Heq'; subst. apply (in_map fst) in Hin1. exact Hin1. }
    eexists. exists d. split; [reflexivity|]. rewrite Hg. auto.
  - assert (Hin : In entry keywords)
      by (destruct Hbest as [Hn _]; eapply nth_error_In; exact Hn).
    destruct (Hall (fst entry)) as [d [Hd1 Hd2]].
    { right. apply in_or_app. right. apply in_or_app. right.
      apply (in_map fst) in Hin. exact Hin. }
    eexists. exists d. split; [reflexivity|]. cbn [get_default dict_get].
    split; [exact Hd1|exact Hd2].
  - destruct (Hall "unknown") as [d [Hd1 Hd2]]; [left; reflexivity|].
    eexists. exists d. split; [reflexivity|]. split; [exact Hd1|exact Hd2].
Qed.

End RouterMore.

(* ================================================================== *)
(** * What a capturing group holds *)
(* ================================================================== *)

Module CaptureFacts.

Import Regex Catalog Router Spec Notions PyFacts RegexFacts.

Lemma set_capture_other n k sp caps :
  n <> k -> nth_error (set_capture k sp caps) n = nth_error caps n.
Proof.
  revert n k; induction caps as [|c caps IH]; intros n k Hne.
  - destruct k; reflexivity.
  - destruct k as [|k]; destruct n as [|n]; simpl; try reflexivity;
      try congruence.
    apply IH. congruence.
Qed.

Lemma set_capture_at n sp caps :
  n < length caps -> nth_error (set_capture n sp caps) n = Some (Some sp).
Proof.
  revert n; induction caps as [|c caps IH]; intros n H; simpl in H; [lia|].
  destruct n as [|n]; simpl; [reflexivity|]. apply IH. lia.
Qed.

Lemma rounds_frames n body lo hi :
  frames n body ->
  forall fuel cnt i caps m,
    In m (rounds body lo hi fuel cnt i caps) ->
    nth_error (snd m) n = nth_error caps n.
Proof.
  intros Hbody. induction fuel as [|fuel IH]; intros cnt i caps m H; simpl in H.
  - destruct (lo <=? cnt); [|contradiction]. destruct H as [<-|[]]. reflexivity.
  - apply in_app_or in H. destruct H as [H|H].
    + destruct (under cnt hi); [|contradiction].
      apply in_flat_map in H. destruct H as [m1 [Hm1 H]].
      destruct (i <? fst m1); [|contradiction].
      rewrite (IH _ _ _ _ H). apply (Hbody _ _ _ Hm1).
    + destruct (lo <=? cnt); [|contradiction]. destruct H as [<-|[]]. reflexivity.
Qed.

(** A pattern in which group [n] does not occur leaves it alone. *)
Lemma matches_frames (s : string) (n : nat) (r : regex) :
  defines n r = false -> frames n (matches s r).
Proof.
  induction r as [| c | | neg items | | r1 IH1 r2 IH2 | r1 IH1 r2 IH2
                 | r1 IH1 lo hi | k r1 IH1];
    intros Hd i caps m H; cbn [matches defines] in *.
  - destruct H as [<-|[]]. reflexivity.
  - unfold step_char in H. destruct (String.get i s); [|contradiction].
    destruct (char_eq_nocase c a); [|contradiction].
    destruct H as [<-|[]]. reflexivity.
  - unfold step_char in H. destruct (String.get i s); [|contradiction].
    destruct (negb _); [|contradiction]. destruct H as [<-|[]]. reflexivity.
  - unfold step_char in H. destruct (String.get i s); [|contradiction].
    destruct (xorb _ _); [|contradiction]. destruct H as [<-|[]]. reflexivity.
  - destruct (at_boundary s i); [|contradiction].
    destruct H as [<-|[]]. reflexivity.
  - apply orb_false_iff in Hd. destruct Hd as [Hd1 Hd2].
    apply in_flat_map in H. destruct H as [m1 [Hm1 H]].
    rewrite (IH2 Hd2 _ _ _ H). apply (IH1 Hd1 _ _ _ Hm1).
  - apply orb_false_iff in Hd. destruct Hd as [Hd1 Hd2].
    apply in_app_or in H. destruct H as [H|H].
    + apply (IH1 Hd1 _ _ _ H).
    + apply (IH2 Hd2 _ _ _ H).
  - apply (rounds_frames lo hi (IH1 Hd) _ _ _ _ _ H).
  - apply orb_false_iff in Hd. destruct Hd as [Hk Hd].
    apply Nat.eqb_neq in Hk.
    apply in_map_iff in H. destruct H as [m1 [<- Hm1]]. simpl.
    rewrite set_capture_other by congruence. apply (IH1 Hd _ _ _ Hm1).
Qed.

(** The span a group records is a span its sub-pattern matched. *)
Lemma capture_span (s : string) (n : nat) (r : regex) :
  forall b, capture_body n r = Some b ->
  forall i caps m, i <= len s -> n < length caps ->
    In m (matches s r i caps) ->
    exists a caps1 m1,
      a <= len s /\ In m1 (matches s b a caps1)
      /\ nth_error (snd m) n = Some (Some (a, fst m1)).
Proof.
  induction r as [| c | | neg items | | r1 IH1 r2 IH2 | r1 IH1 r2 IH2
                 | r1 IH1 lo hi | k r1 IH1];
    intros b Hb i caps m Hi Hn H; cbn [matches capture_body] in *;
    try discriminate.
  - apply in_flat_map in H. destruct H as [m1 [Hm1 H]].
    destruct (@matches_spans s r1 _ _ _ Hi Hm1) as [_ Hlen1].
    destruct (@matches_records s n r1 _ _ _ Hm1) as [Hl1 _].
    destruct (defines n r2) eqn:E2.
    + destruct (defines n r1) eqn:E1; [discriminate|].
      apply (IH2 b Hb (fst m1) (snd m1) m Hlen1); [lia|exact H].
    + destruct (IH1 b Hb i caps m1 Hi Hn Hm1) as [a [caps1 [m0 [Ha [Hm0 Hcap]]]]].
      exists a, caps1, m0. split; [exact Ha|]. split; [exact Hm0|].
      rewrite (@matches_frames s n r2 E2 _ _ _ H). exact Hcap.
  - apply in_map_iff in H. destruct H as [m1 [<- Hm1]]. simpl.
    destruct (@matches_records s n r1 _ _ _ Hm1) as [Hl1 _].
    destruct (Nat.eqb_spec k n) as [->|Hne].
    + destruct (defines n r1); [discriminate|]. inversion Hb; subst b.
      exists i, caps, m1. split; [exact Hi|]. split; [exact Hm1|].
      apply set_capture_at. lia.
    + destruct (IH1 b Hb i caps m1 Hi Hn Hm1) as [a [caps1 [m0 [Ha [Hm0 Hcap]]]]].
      exists a, caps1, m0. split; [exact Ha|]. split; [exact Hm0|].
      rewrite set_capture_other by congruence. exact Hcap.
Qed.

(** ** Runs of digits *)

Lemma rounds_digits (s : string) body lo hi :
  (forall i caps m, In m (body i caps) ->
     fst m = S i /\ exists d, String.get i s = Some d /\ is_digit d = true) ->
  forall fuel cnt i caps m,
    In m (rounds body lo hi fuel cnt i caps) ->
    i <= fst m /\ digits_at s i (fst m).
Proof.
  intros Hbody. induction fuel as [|fuel IH]; intros cnt i caps m H; simpl in H.
  - destruct (lo <=? cnt); [|contradiction]. destruct H as [<-|[]]. simpl.
    split; [lia|]. intros k Hk. lia.
  - apply in_app_or in H. destruct H as [H|H].
    + destruct (under cnt hi); [|contradiction].
      apply in_flat_map in H. destruct H as [m1 [Hm1 H]].
      destruct (i <? fst m1); [|contradiction].
      destruct (Hbody _ _ _ Hm1) as [Hs Hd].
      destruct (IH _ _ _ _ H) as [Hle Hrun].
      split; [lia|]. intros k Hk.
      destruct (Nat.eq_dec k i) as [->|Hne]; [exact Hd|].
      apply Hrun. lia.
    + destruct (lo <=? cnt); [|contradiction]. destruct H as [<-|[]]. simpl.
      split; [lia|]. intros k Hk. lia.
Qed.

(** A match of [\d+] is a run of at least one digit. *)
Lemma digit_run_span (s : string) (b : regex) a caps m :
  digit_run b = true -> a <= len s -> In m (matches s b a caps) ->
  a < fst m /\ fst m <= len s /\ digits_at s a (fst m).
Proof.
  intros Hb Ha H.
  assert (Eb : b = plus digit).
  { destruct b as [| | | | | | |r1 lo hi|]; try discriminate.
    destruct r1 as [| | |neg items| | | | |]; try discriminate.
    destruct neg; try discriminate.
    destruct items as [|[| | |] [|? ?]]; try discriminate.
    destruct lo as [|[|lo]]; try discriminate.
    destruct hi; try discriminate. reflexivity. }
  subst b.
  destruct (@matches_spans s (plus digit) _ _ _ Ha H) as [Hw Hlen].
  simpl in Hw. split; [lia|]. split; [exact Hlen|].
  unfold plus, digit in H. cbn [matches] in H.
  refine (proj2 (rounds_digits s _ 1 None _ _ _ _ _ _ H)).
  intros i caps0 m0 H0. unfold step_char in H0.
  destruct (String.get i s) as [d|]; [|contradiction].
  destruct (xorb false (existsb (item_matches d) [SDigit])) eqn:E;
    [|contradiction].
  destruct H0 as [<-|[]]. simpl. split; [reflexivity|].
  exists d. split; [reflexivity|]. simpl in E.
  rewrite orb_false_r in E. exact E.
Qed.

(** ** [int] of a run of digits *)

Lemma digits_value_ok (l : list ascii) :
  Forall (fun d => is_digit d = true) l ->
  forall acc, (0 <= acc)%Z ->
    exists z, digits_value acc l = Some z /\ (0 <= z)%Z.
Proof.
  induction 1 as [|d l Hd _ IH]; intros acc Hacc; simpl.
  - exists acc. auto.
  - rewrite Hd. apply IH. lia.
Qed.

Lemma substring_digits (s : string) :
  forall a n, digits_at s a (a + n) ->
    Forall (fun d => is_digit d = true) (chars (substring a n s))
    /\ length (chars (substring a n s)) = n.
Proof.
  induction s as [|c s IH]; intros a n H.
  - destruct n as [|n].
    + destruct a; simpl; auto.
    + exfalso. destruct (H a ltac:(lia)) as [d [Hd _]].
      destruct a; discriminate.
  - destruct a as [|a].
    + destruct n as [|n]; simpl; [auto|].
      destruct (H 0 ltac:(lia)) as [d [Hd Hdig]]. simpl in Hd.
      inversion Hd; subst d.
      destruct (IH 0 n) as [Hall Hlen].
      { intros k Hk. destruct (H (S k) ltac:(lia)) as [d [Hd' Hdig']].
        exists d. auto. }
      split; [constructor; assumption|]. unfold chars in *. simpl. lia.
    + simpl. apply IH. intros k Hk.
      destruct (H (S k) ltac:(lia)) as [d [Hd' Hdig']]. exists d. auto.
Qed.

(** A non-empty run of digits of the text spells a number that is not
    negative; [int()] returns it when the run has at most
    [max_str_digits] digits, and raises [ValueError] otherwise. *)
Lemma int_of_digits (s : string) (a e : nat) :
  a < e -> digits_at s a e ->
  exists z,
    decimal (slice a e s) = Some z /\ (0 <= z)%Z
    /\ len (slice a e s) = e - a /\ e <= len s
    /\ int_of_str (slice a e s)
       = if e - a <=? max_str_digits then Ok z else Raise ValueError.
Proof.
  intros Hlt Hrun. unfold slice, int_of_str, decimal.
  destruct (@substring_digits s a (e - a)) as [Hall Hlen].
  { replace (a + (e - a)) with e by lia. exact Hrun. }
  assert (He : e <= len s).
  { destruct (Hrun (e - 1) ltac:(lia)) as [d [Hd _]].
    apply get_some_lt in Hd. lia. }
  rewrite <- chars_length, Hlen.
  destruct (chars (substring a (e - a) s)) as [|d l] eqn:E;
    [simpl in Hlen; lia|].
  destruct (@digits_value_ok _ Hall 0%Z ltac:(lia)) as [z [Hz Hpos]].
  rewrite Hz, Hlen. exists z.
  split; [reflexivity|]. split; [exact Hpos|]. split; [reflexivity|].
  split; [exact He|].
  destruct (Nat.leb_spec (e - a) max_str_digits) as [H|H].
  - rewrite (proj2 (Nat.ltb_ge _ _) H). reflexivity.
  - rewrite (proj2 (Nat.ltb_lt _ _) H). reflexivity.
Qed.

(** ** The pointing patterns *)

Lemma pointing_patterns ty p :
  In (ty, p) (flat_patterns intent_patterns) -> pointing ty = true ->
  ngroups p = 2
  /\ exists b0 b1, capture_body 0 (tree p) = Some b0 /\ digit_run b0 = true
                   /\ capture_body 1 (tree p) = Some b1 /\ digit_run b1 = true.
Proof.
  intros Hin Hty.
  assert (E : forallb
                (fun x => negb (pointing (fst x))
                          || ((ngroups (snd x) =? 2)
                              && match capture_body 0 (tree (snd x)),
                                       capture_body 1 (tree (snd x)) with
                                 | Some b0, Some b1 => digit_run b0 && digit_run b1
                                 | _, _ => false
                                 end))
                (flat_patterns intent_patterns) = true)
    by (vm_compute; reflexivity).
  rewrite forallb_forall in E. specialize (E _ Hin). simpl in E.
  rewrite Hty in E. simpl in E.
  apply andb_true_iff in E. destruct E as [E1 E2].
  apply Nat.eqb_eq in E1. split; [exact E1|].
  destruct (capture_body 0 (tree p)) as [b0|]; [|discriminate].
  destruct (capture_body 1 (tree p)) as [b1|]; [|discriminate].
  apply andb_true_iff in E2. destruct E2 as [E2 E3].
  exists b0, b1. auto.
Qed.

(** The two groups of a match of a pointing pattern are non-empty runs
    of digits of the text. *)
Lemma pointing_groups (text : string) ty p m :
  In (ty, p) (flat_patterns intent_patterns) -> pointing ty = true ->
  search p text = Some m ->
  exists a0 e0 a1 e1,
    groups text m = [Some (slice a0 e0 text); Some (slice a1 e1 text)]
    /\ a0 < e0 /\ digits_at text a0 e0
    /\ a1 < e1 /\ digits_at text a1 e1.
Proof.
  intros Hin Hty Hs.
  destruct (pointing_patterns Hin Hty) as [Hng [b0 [b1 [Hb0 [Hd0 [Hb1 Hd1]]]]]].
  pose proof (search_span _ _ Hs) as [_ Hend].
  pose proof (search_groups_length _ _ Hs) as Hlen.
  unfold search in Hs. apply scan_some in Hs. destruct Hs as [[_ Hstart] Hs].
  apply match_at_some in Hs. destruct Hs as [_ Hm].
  assert (Hi : m_start m <= len text) by lia.
  assert (Hcaps : forall n, n < length (repeat (@None (nat * nat)) (ngroups p)) <-> n < 2).
  { intros n. rewrite repeat_length, Hng. tauto. }
  destruct (@capture_span text 0 (tree p) b0 Hb0 _ _ _ Hi
              (proj2 (Hcaps 0) ltac:(lia)) Hm) as [a0 [c0 [m0 [Ha0 [Hm0 Hc0]]]]].
  destruct (@capture_span text 1 (tree p) b1 Hb1 _ _ _ Hi
              (proj2 (Hcaps 1) ltac:(lia)) Hm) as [a1 [c1 [m1 [Ha1 [Hm1 Hc1]]]]].
  simpl in Hc0, Hc1.
  destruct (@digit_run_span text b0 a0 c0 m0 Hd0 Ha0 Hm0) as [Hlt0 [_ Hrun0]].
  destruct (@digit_run_span text b1 a1 c1 m1 Hd1 Ha1 Hm1) as [Hlt1 [_ Hrun1]].
  exists a0, (fst m0), a1, (fst m1).
  split; [|auto].
  unfold groups in *. rewrite length_map, Hng in Hlen.
  destruct (m_caps m) as [|x0 [|x1 [|x2 rest]]]; simpl in Hlen; try lia.
  simpl in Hc0, Hc1. inversion Hc0; inversion Hc1; subst. reflexivity.
Qed.

End CaptureFacts.

(* ================================================================== *)
(** * From [parse_intent] to [validate_intent] *)
(* ================================================================== *)

Module PipelineFacts.

Import Regex Catalog Router Spec Notions PyFacts RegexFacts LoopFacts
  PatternFacts KeywordFacts EntityFacts RouterFacts CaptureFacts.

(** The answer of the pattern tier, with the match it comes from. *)
Lemma pattern_answer (text : string) :
  (exists x, In x (flat_patterns intent_patterns) /\ score_of text x <> None) ->
  exists ty p m data,
    _check_pattern_matches text
    = Ok (Some (dict_update
                  (candidate_dict (Candidate ty (group0 text m) (groups text m)))
                  data))
    /\ _extract_intent_data ty (groups text m) text = Ok data
    /\ search p text = Some m
    /\ In (ty, p) (flat_patterns intent_patterns).
Proof.
  intros Hhit.
  destruct (fold_keep_first_best (score_of text) (candidate_of text)
              (flat_patterns intent_patterns)) as [k [[ty p] [q [Hfold [Hbest Hq]]]]].
  { intros [ty p] c Hin. apply score_positive. exact Hin. }
  { exact Hhit. }
  destruct Hbest as [Hk [Hs Hmax]].
  pose proof (nth_error_In _ _ Hk) as Hin.
  unfold score_of, match_ratio in Hs. simpl in Hs.
  destruct (search p text) as [m|] eqn:E; [|discriminate].
  destruct (extract_shape ty text (catalog_groups_set _ Hin E)) as [data [Hd _]].
  exists ty, p, m, data.
  split; [|split; [exact Hd|split; [exact E|exact Hin]]].
  unfold _check_pattern_matches. rewrite best_pattern_fold, Hfold. simpl.
  unfold candidate_of. simpl. rewrite E. simpl. rewrite Hd. reflexivity.
Qed.

Lemma coordinates_data_typed (x0 x1 : string) (data : dict) :
  coordinates_data (Some x0) (Some x1) [] = Ok data -> typed_slots data.
Proof.
  unfold coordinates_data, int_group.
  destruct (int_of_str x0) as [z0|e0] eqn:E0.
  - destruct (int_of_str x1) as [z1|e1] eqn:E1.
    + intros H. inversion H. constructor.
    + apply int_of_str_error in E1. subst e1. intros H. inversion H. constructor.
  - apply int_of_str_error in E0. subst e0. intros H. inversion H. constructor.
Qed.

(** The slots have the types the validator expects. *)
Lemma extract_typed (ty : string) (gs : list (option string)) (text : string)
  (data : dict) :
  _extract_intent_data ty gs text = Ok data -> typed_slots data.
Proof.
  unfold _extract_intent_data.
  destruct (String.eqb ty "type_text").
  { destruct gs as [|[x0|] gs]; simpl; intros H; inversion H; constructor. }
  destruct (String.eqb ty "click").
  { destruct gs as [|[x0|] [|[x1|] gs]]; cbv beta iota zeta;
      try (intros H; inversion H; constructor; fail);
      try (apply coordinates_data_typed; fail);
      unfold coordinates_data, int_group;
      try (destruct (int_of_str x0) as [z|e] eqn:E;
           [discriminate
           |apply int_of_str_error in E; subst e; intros H; inversion H;
            constructor]);
      discriminate. }
  destruct (String.eqb ty "move_mouse").
  { destruct gs as [|[x0|] [|[x1|] gs]]; cbv beta iota zeta;
      try (intros H; inversion H; constructor; fail);
      try (apply coordinates_data_typed; fail);
      unfold coordinates_data, int_group;
      try (destruct (int_of_str x0) as [z|e] eqn:E;
           [discriminate
           |apply int_of_str_error in E; subst e; intros H; inversion H;
            constructor]);
      discriminate. }
  destruct (String.eqb ty "search_web").
  { destruct gs as [|g0 gs]; [intros H; inversion H; constructor|].
    destruct (last gs g0); simpl; intros H; inversion H. constructor. }
  destruct (String.eqb ty "open_app").
  { destruct gs as [|[x0|] gs]; simpl; intros H; inversion H; constructor. }
  destruct (String.eqb ty "file_operation").
  { destruct gs as [|[x0|] [|[x1|] gs]]; simpl; intros H; inversion H;
      constructor. }
  intros H. inversion H. constructor.
Qed.

(** A record whose kind is a string and whose slots have their types
    is validated without an exception. *)
Lemma validate_typed (r : dict) (ty : string) :
  get "type" r = VStr ty ->
  (get "x" r = VNone \/ exists x, get "x" r = VInt x) ->
  (get "y" r = VNone \/ exists y, get "y" r = VInt y) ->
  (exists t, get_default "text" (VStr "") r = VStr t) ->
  exists v, validate_intent r = (r, Ok v).
Proof.
  intros Hty Hx Hy [t Ht]. unfold validate_intent, check_intent.
  rewrite Hty, Ht. cbn [is_str get_suggested_actions hashable].
  assert (Hs : exists l, match lookup ty suggestions with
                         | Some l => Ok l | None => Ok []
                         end = Ok l)
    by (destruct (lookup ty suggestions); eauto).
  destruct Hs as [l Hs]. rewrite Hs.
  destruct (String.eqb ty "click").
  { destruct Hx as [->|[x ->]]; [eexists; reflexivity|].
    destruct Hy as [->|[y ->]]; [eexists; reflexivity|].
    cbn [is_none orb]. unfold within_screen, num_le_value, value_le_num.
    cbn [as_number bind].
    destruct (Qle_bool 0 (inject_Z x)); cbn [negb bind];
      [|eexists; reflexivity].
    destruct (Qle_bool (inject_Z x) (3000 # 1)); cbn [negb bind];
      [|eexists; reflexivity].
    destruct (Qle_bool 0 (inject_Z y)); cbn [negb bind];
      [|eexists; reflexivity].
    destruct (Qle_bool (inject_Z y) (2000 # 1)); eexists; reflexivity. }
  destruct (String.eqb ty "type_text").
  { cbn [truthy py_len]. destruct (negb (negb (String.eqb t "")));
      cbn [bind]; [eexists; reflexivity|].
    destruct (1000 <? len t); eexists; reflexivity. }
  destruct (String.eqb ty "search_web").
  { destruct (negb (truthy _)); eexists; reflexivity. }
  eexists. reflexivity.
Qed.

Lemma pattern_record_typed (now text : string) (c : candidate) (data : dict) :
  typed_slots data ->
  let r := dict_set "confidence" (VNum (8 # 10))
             (dict_update (blank now text)
                (dict_update (candidate_dict c) data)) in
  get "type" r = VStr (c_type c)
  /\ (get "x" r = VNone \/ exists x, get "x" r = VInt x)
  /\ (get "y" r = VNone \/ exists y, get "y" r = VInt y)
  /\ (exists t, get_default "text" (VStr "") r = VStr t).
Proof.
  intros H. destruct H; cbn; repeat split; eauto.
Qed.

(** The record of the router goes through the validator. *)
Lemma validation_total (now text : string) :
  exists r v, parse_intent now text = Ok r /\ validate_intent r = (r, Ok v).
Proof.
  destruct (parse_intent_outcome now text)
    as [d Hd Hin|c data Hx Hc Hs Hty|k entry q Hx Hp Hbest Hq Hk
       |k entry q Hx Hp Hbest Hq Hk].
  - generalize dependent (normalize text). intros t Hd Hin. simpl in Hin.
    repeat (destruct Hin as [Hin|Hin];
            [inversion Hin; subst; eexists; eexists;
             split; [reflexivity|reflexivity]|]).
    contradiction.
  - destruct (hit_or_miss (normalize text) (flat_patterns intent_patterns))
      as [Hhit|Hmiss];
      [|rewrite (pattern_tier_miss _ Hmiss) in Hc; discriminate].
    destruct (pattern_answer _ Hhit) as [ty [p [m [data' [Hc' [Hd' _]]]]]].
    assert (Heq : dict_update (candidate_dict c) data
                  = dict_update
                      (candidate_dict
                         (Candidate ty (group0 (normalize text) m)
                            (groups (normalize text) m))) data')
      by congruence.
    rewrite Heq.
    destruct (pattern_record_typed now (normalize text)
                (Candidate ty (group0 (normalize text) m)
                   (groups (normalize text) m)) (extract_typed _ _ _ Hd'))
      as [H1 [H2 [H3 H4]]].
    cbv zeta in H1, H2, H3, H4.
    destruct (validate_typed _ H1 H2 H3 H4) as [v Hv].
    eexists. exists v. split; [reflexivity|exact Hv].
  - eapply (fun r H => ex_intro _ r H).
    destruct (@validate_typed
                (dict_set "confidence" (VNum (6 # 10))
                   (dict_update (blank now (normalize text))
                      [("type", VStr (fst entry)); ("keyword_score", VNum q)]))
                (fst entry)) as [v Hv];
      [reflexivity|left; reflexivity|left; reflexivity
      |exists ""; reflexivity|].
    exists v. split; [reflexivity|exact Hv].
  - eexists. eexists. split; reflexivity.
Qed.

(** X5: whatever the text, the record [parse_intent] returns goes
    through [validate_intent] without an exception, and comes back
    unchanged. *)
Theorem validation_never_raises (now text : string) :
  exists r v, parse_intent now text = Ok r /\ validate_intent r = (r, Ok v).
Proof. apply validation_total. Qed.

(** ** The coordinates of a pointing intent *)

(** The record of an exact phrase has no [match] and no slot [x]. *)
Lemma exact_plain (now t : string) (d : dict) :
  In (t, d) exact_phrases ->
  dict_get "match"
    (dict_set "confidence" (VNum 1) (dict_update (blank now t) d)) = None.
Proof.
  intros Hin. simpl in Hin.
  repeat (destruct Hin as [Hin|Hin]; [inversion Hin; subst; reflexivity|]).
  contradiction.
Qed.

Lemma exact_no_x (now t : string) (d : dict) :
  In (t, d) exact_phrases ->
  get "x" (dict_set "confidence" (VNum 1) (dict_update (blank now t) d))
  = VNone.
Proof.
  intros Hin. simpl in Hin.
  repeat (destruct Hin as [Hin|Hin]; [inversion Hin; subst; reflexivity|]).
  contradiction.
Qed.

(** The length of the normalized text. *)
Lemma normalize_length (text : string) : len (normalize text) <= len text.
Proof.
  unfold normalize. etransitivity; [apply strip_length|].
  rewrite lower_length. lia.
Qed.

(** The record of a pointing intent that a pattern gave; the groups
    are pieces of the normalized text. *)
Lemma pointing_core (now text : string) (r : dict) :
  parse_intent now text = Ok r ->
  get "type" r = VStr "click" \/ get "type" r = VStr "move_mouse" ->
  dict_get "match" r <> None ->
  points_within (len (normalize text)) r.
Proof.
  intros Hr Hty Hmatch.
  destruct (parse_intent_outcome now text)
    as [d Hd Hin|c data Hx Hc Hs Htyc|k entry q Hx Hp Hbest Hq Hk
       |k entry q Hx Hp Hbest Hq Hk];
    inversion Hr; subst r; clear Hr.
  - exfalso. apply Hmatch. apply exact_plain. exact Hin.
  - destruct (hit_or_miss (normalize text) (flat_patterns intent_patterns))
      as [Hhit|Hmiss];
      [|rewrite (pattern_tier_miss _ Hmiss) in Hc; discriminate].
    destruct (pattern_answer _ Hhit) as [ty [p [m [data' [Hc' [Hd' [Hsearch Hin]]]]]]].
    assert (Heq : dict_update (candidate_dict c) data
                  = dict_update
                      (candidate_dict
                         (Candidate ty (group0 (normalize text) m)
                            (groups (normalize text) m))) data')
      by congruence.
    rewrite Heq in *. clear Heq Hc Hs Htyc.
    set (t := normalize text) in *.
    assert (Hkind : get "type"
                      (dict_set "confidence" (VNum (8 # 10))
                         (dict_update (blank now t)
                            (dict_update
                               (candidate_dict
                                  (Candidate ty (group0 t m) (groups t m))) data')))
                    = VStr ty).
    { destruct (extract_typed _ _ _ Hd'); reflexivity. }
    rewrite Hkind in Hty.
    assert (Hpt : pointing ty = true).
    { unfold pointing. destruct Hty as [Hty|Hty]; inversion Hty; reflexivity. }
    destruct (pointing_groups t Hin Hpt Hsearch)
      as [a0 [e0 [a1 [e1 [Hg [Hlt0 [Hrun0 [Hlt1 Hrun1]]]]]]]].
    destruct (int_of_digits Hlt0 Hrun0) as [x [Hdx [Hxpos [Hlx [Hex Hix]]]]].
    destruct (int_of_digits Hlt1 Hrun1) as [y [Hdy [Hypos [Hly [Hey Hiy]]]]].
    rewrite Hg in *.
    assert (Hcd : coordinates_data (Some (slice a0 e0 t))
                    (Some (slice a1 e1 t)) [] = Ok data').
    { unfold _extract_intent_data in Hd'. unfold pointing in Hpt.
      destruct (String.eqb ty "type_text") eqn:E1.
      { apply String.eqb_eq in E1. subst ty. discriminate. }
      destruct (String.eqb ty "click") eqn:E2; [exact Hd'|].
      destruct (String.eqb ty "move_mouse") eqn:E3; [exact Hd'|discriminate]. }
    unfold coordinates_data, int_group in Hcd. rewrite Hix, Hiy in Hcd.
    exists (slice a0 e0 t), (slice a1 e1 t), x, y.
    rewrite Hlx, Hly.
    destruct (e0 - a0 <=? max_str_digits) eqn:E0;
      destruct (e1 - a1 <=? max_str_digits) eqn:E1;
      cbv beta iota zeta in Hcd; inversion Hcd; subst data';
      (split; [reflexivity|]); (split; [lia|]); (split; [lia|]);
      (split; [exact Hdx|]); (split; [exact Hdy|]);
      (split; [exact Hxpos|]); (split; [exact Hypos|]);
      split; reflexivity.
  - exfalso. apply Hmatch. reflexivity.
  - exfalso. apply Hmatch. reflexivity.
Qed.

Lemma points_within_at (bound : nat) (r : dict) :
  points_within bound r -> points_at r.
Proof.
  intros [gx [gy [x [y [Hg [[Hx _] [[Hy _] H]]]]]]].
  exists gx, gy, x, y. split; [exact Hg|]. split; [exact Hx|].
  split; [exact Hy|exact H].
Qed.

(** With groups within the limit of [int()], both slots are there. *)
Lemma points_within_limit (bound : nat) (r : dict) :
  bound <= max_str_digits -> points_within bound r ->
  exists x y,
    dict_get "x" r = Some (VInt x) /\ dict_get "y" r = Some (VInt y)
    /\ (0 <= x)%Z /\ (0 <= y)%Z.
Proof.
  intros Hb [gx [gy [x [y [_ [[_ Hx] [[_ Hy] [_ [_ [Hxp [Hyp [Hsx Hsy]]]]]]]]]]]].
  rewrite (proj2 (Nat.leb_le (len gx) max_str_digits)) in Hsx, Hsy by lia.
  rewrite (proj2 (Nat.leb_le (len gy) max_str_digits)) in Hsy by lia.
  exists x, y. auto.
Qed.

(** The record of a pointing intent that a pattern gave. *)
Lemma pointing_record (now text : string) (r : dict) :
  parse_intent now text = Ok r ->
  get "type" r = VStr "click" \/ get "type" r = VStr "move_mouse" ->
  dict_get "match" r <> None ->
  points_at r.
Proof.
  intros Hr Hty Hm. eapply points_within_at, pointing_core; eassumption.
Qed.

(** X6: when [parse_intent] answers [click] or [move_mouse] from a
    pattern (the record has a [match]), the two captured groups are
    non-empty runs of digits.  The slot [x] is there exactly when the
    first group has at most 4300 digits, the limit of [int()], and the
    slot [y] exactly when both have; they then hold the non-negative
    integers the digits spell.  Past the limit the [ValueError] branch
    of the extraction runs, and the record has a [match] without the
    coordinates. *)
Theorem pointing_slots (now text : string) (r : dict) :
  parse_intent now text = Ok r ->
  get "type" r = VStr "click" \/ get "type" r = VStr "move_mouse" ->
  dict_get "match" r <> None ->
  points_at r.
Proof. apply pointing_record. Qed.

(** At the limit: [int()] takes a coordinate of 4300 digits and
    refuses one of 4301, and the extraction then keeps what it had set
    before. *)
Lemma coordinate_past_limit :
  _extract_intent_data "click"
    [Some (str (repeat "1"%char 4301)); Some "5"] "" = Ok []
  /\ _extract_intent_data "click"
       [Some "5"; Some (str (repeat "1"%char 4301))] "" = Ok [("x", VInt 5)]
  /\ exists x,
       _extract_intent_data "click"
         [Some (str (repeat "1"%char 4300)); Some "5"] ""
       = Ok [("x", VInt x); ("y", VInt 5)].
Proof.
  split; [vm_compute; reflexivity|].
  split; [vm_compute; reflexivity|].
  eexists. vm_compute. reflexivity.
Qed.

(** A record that no pattern gave has no slot [x]. *)
Lemma unmatched_no_x (now text : string) (r : dict) :
  parse_intent now text = Ok r -> dict_get "match" r = None ->
  get "x" r = VNone.
Proof.
  intros Hr Em.
  destruct (parse_intent_outcome now text)
    as [d Hd Hin|c data Hx Hc Hs Htyc|k entry q Hx Hp Hbest Hq Hk
       |k entry q Hx Hp Hbest Hq Hk];
    inversion Hr; subst r; clear Hr.
  - apply exact_no_x. exact Hin.
  - exfalso.
    destruct (@RouterMore.pattern_record_rest now (normalize text) c data Hs)
      as [_ [H _]].
    cbv zeta in H. congruence.
  - reflexivity.
  - reflexivity.
Qed.

Lemma pointing_slots_witness :
  points_at
    [ ("type", VStr "click"); ("confidence", VNum (8 # 10));
      ("entities", VDict []); ("raw_text", VStr "click at 12,34 now");
      ("timestamp", VStr "2024-05-01T10:00:00");
      ("match", VStr "click at 12,34");
      ("groups", VTuple [VStr "12"; VStr "34"]);
      ("x", VInt 12); ("y", VInt 34) ].
Proof.
  apply (@pointing_slots "2024-05-01T10:00:00" "Click at 12,34 now").
  - vm_compute. reflexivity.
  - left. reflexivity.
  - discriminate.
Defined.

(** A click with both coordinates, integers, is valid. *)
Lemma validate_pointed (r : dict) (x y : Z) :
  get "type" r = VStr "click" ->
  dict_get "x" r = Some (VInt x) -> dict_get "y" r = Some (VInt y) ->
  exists v, validate_intent r = (r, Ok v) /\ is_valid v = true.
Proof.
  intros Hty Hx Hy. unfold validate_intent, check_intent, get.
  rewrite Hx, Hy. fold (get "type" r). rewrite Hty.
  cbn [is_str String.eqb Ascii.eqb Bool.eqb is_none orb].
  unfold within_screen, num_le_value, value_le_num. cbn [as_number bind].
  destruct (Qle_bool 0 (inject_Z x)); cbn [negb bind];
    [|eexists; split; reflexivity].
  destruct (Qle_bool (inject_Z x) (3000 # 1)); cbn [negb bind];
    [|eexists; split; reflexivity].
  destruct (Qle_bool 0 (inject_Z y)); cbn [negb bind];
    [|eexists; split; reflexivity].
  destruct (Qle_bool (inject_Z y) (2000 # 1)); eexists; split; reflexivity.
Qed.

(** X7: for an input of at most 4300 characters, a [click] record of
    the router is valid exactly when it comes from a pattern: the
    keyword tier gives [click] without coordinates, which the validator
    rejects whatever the length of the input, and a pattern gives both
    coordinates when [int()] takes them, which it does for up to 4300
    digits. *)
Theorem click_valid_iff_pattern (now text : string) (r : dict) :
  parse_intent now text = Ok r ->
  get "type" r = VStr "click" ->
  exists v, validate_intent r = (r, Ok v)
            /\ (is_valid v = true -> dict_get "match" r <> None)
            /\ (len text <= max_str_digits ->
                (is_valid v = true <-> dict_get "match" r <> None)).
Proof.
  intros Hr Hty.
  assert (Hno : dict_get "match" r = None ->
                exists v, validate_intent r = (r, Ok v) /\ is_valid v = false).
  { intros Em. pose proof (unmatched_no_x _ _ Hr Em) as Hnox.
    unfold validate_intent, check_intent. rewrite Hty, Hnox.
    cbn [is_str String.eqb Ascii.eqb Bool.eqb is_none orb bind].
    eexists. split; reflexivity. }
  destruct (validation_total now text) as [r' [v [Hr' Hv]]].
  assert (r' = r) by congruence. subst r'.
  exists v. split; [exact Hv|]. split.
  - intros Hvalid Em. destruct (Hno Em) as [v' [Hv' Hf]].
    assert (v' = v) by congruence. subst v'. congruence.
  - intros Hlen. split.
    + intros Hvalid Em. destruct (Hno Em) as [v' [Hv' Hf]].
      assert (v' = v) by congruence. subst v'. congruence.
    + intros Hm.
      pose proof (pointing_core _ _ Hr (or_introl Hty) Hm) as Hp.
      destruct (@points_within_limit (len (normalize text)) r) as
        [x [y [Hx [Hy _]]]];
        [pose proof (normalize_length text); lia|exact Hp|].
      destruct (validate_pointed _ Hty Hx Hy) as [v' [Hv' Ht]].
      assert (v' = v) by congruence. subst v'. exact Ht.
Qed.

Lemma click_valid_iff_pattern_witness :
  exists v,
    validate_intent
      [ ("type", VStr "click"); ("confidence", VNum (8 # 10));
        ("entities", VDict []); ("raw_text", VStr "click at 12,34 now");
        ("timestamp", VStr "2024-05-01T10:00:00");
        ("match", VStr "click at 12,34");
        ("groups", VTuple [VStr "12"; VStr "34"]);
        ("x", VInt 12); ("y", VInt 34) ]
    = ([ ("type", VStr "click"); ("confidence", VNum (8 # 10));
         ("entities", VDict []); ("raw_text", VStr "click at 12,34 now");
         ("timestamp", VStr "2024-05-01T10:00:00");
         ("match", VStr "click at 12,34");
         ("groups", VTuple [VStr "12"; VStr "34"]);
         ("x", VInt 12); ("y", VInt 34) ], Ok v)
    /\ is_valid v = true.
Proof.
  destruct (@click_valid_iff_pattern "2024-05-01T10:00:00" "Click at 12,34 now"
              [ ("type", VStr "click"); ("confidence", VNum (8 # 10));
                ("entities", VDict []); ("raw_text", VStr "click at 12,34 now");
                ("timestamp", VStr "2024-05-01T10:00:00");
                ("match", VStr "click at 12,34");
                ("groups", VTuple [VStr "12"; VStr "34"]);
                ("x", VInt 12); ("y", VInt 34) ])
    as [v [Hv [_ Hiff]]].
  - vm_compute. reflexivity.
  - reflexivity.
  - exists v. split; [exact Hv|].
    apply (proj2 (Hiff ltac:(apply Nat.leb_le; vm_compute; reflexivity))).
    discriminate.
Defined.

End PipelineFacts.

(* ================================================================== *)
(** * The query of a search *)
(* ================================================================== *)

Module QueryFacts.

Import Regex Catalog Router Spec Notions PyFacts RegexFacts LoopFacts
  PatternFacts KeywordFacts EntityFacts RouterFacts CaptureFacts PipelineFacts.

Lemma step_accepted s ok p caps :
  accepted s ok p -> step_char s ok p caps = [(S p, caps)].
Proof.
  intros [d [Hd Hok]]. unfold step_char. rewrite Hd, Hok. reflexivity.
Qed.

Lemma step_stopped s ok p caps :
  stopped s ok p -> step_char s ok p caps = [].
Proof.
  unfold stopped, step_char. destruct (String.get p s) as [d|];
    [intros ->; reflexivity|reflexivity].
Qed.

Lemma accepted_or_stopped s ok p : accepted s ok p \/ stopped s ok p.
Proof.
  unfold accepted, stopped. destruct (String.get p s) as [d|]; [|right; exact I].
  destruct (ok d) eqn:E; [left; exists d; auto|right; reflexivity].
Qed.

(** The run of accepted characters from [j] ends somewhere. *)
Lemma run_ends s ok : forall n j, len s - j <= n ->
  exists k, (forall p, j <= p < j + k -> accepted s ok p)
            /\ stopped s ok (j + k).
Proof.
  induction n as [|n IH]; intros j Hn.
  - exists 0. split; [intros p Hp; lia|].
    unfold stopped. destruct (String.get (j + 0) s) as [d|] eqn:E; [|exact I].
    apply get_some_lt in E. lia.
  - destruct (accepted_or_stopped s ok j) as [Ha|Hs].
    + destruct (IH (S j)) as [k [Hrun Hstop]].
      { destruct Ha as [d [Hd _]]. apply get_some_lt in Hd. lia. }
      exists (S k). split.
      * intros p Hp. destruct (Nat.eq_dec p j) as [->|Hne]; [exact Ha|].
        apply Hrun. lia.
      * replace (j + S k) with (S j + k) by lia. exact Hstop.
    + exists 0. split; [intros p Hp; lia|].
      replace (j + 0) with j by lia. exact Hs.
Qed.

(** A greedy [ok*] before [cont]: when [cont] fails after the whole
    run and succeeds one character earlier, that success comes first. *)
Lemma greedy_head s ok (cont : nat -> captures -> list (nat * captures))
  caps x xs :
  forall k j fuel cnt,
    1 <= k -> k < fuel ->
    (forall p, j <= p < j + k -> accepted s ok p) ->
    stopped s ok (j + k) ->
    cont (j + k) caps = [] ->
    cont (j + k - 1) caps = x :: xs ->
    exists tl,
      flat_map (fun m => cont (fst m) (snd m))
        (rounds (step_char s ok) 0 None fuel cnt j caps) = x :: tl.
Proof.
  induction k as [|k IH]; intros j fuel cnt Hk Hfuel Hrun Hstop Hend Hlast;
    [lia|].
  destruct fuel as [|fuel]; [lia|].
  cbn [rounds under]. rewrite (@step_accepted s ok j caps (Hrun j ltac:(lia))).
  cbn [flat_map fst snd]. rewrite (proj2 (Nat.ltb_lt j (S j)) ltac:(lia)).
  rewrite app_nil_r. cbn [Nat.leb]. rewrite flat_map_app.
  destruct k as [|k].
  - destruct fuel as [|fuel]; [lia|].
    cbn [rounds under]. replace (j + 1) with (S j) in * by lia.
    rewrite (@step_stopped s ok (S j) caps Hstop). cbn [flat_map app Nat.leb fst snd].
    rewrite Hend. replace (S j - 1) with j in Hlast by lia.
    rewrite Hlast. simpl. eexists. reflexivity.
  - destruct (IH (S j) fuel (S cnt)) as [tl Htl]; try lia.
    + intros p Hp. apply Hrun. lia.
    + replace (S j + S k) with (j + S (S k)) by lia. exact Hstop.
    + replace (S j + S k) with (j + S (S k)) by lia. exact Hend.
    + replace (S j + S k - 1) with (j + S (S k) - 1) by lia. exact Hlast.
    + rewrite Htl. simpl. eexists. reflexivity.
Qed.


(** [(.+)] at the end of a line fails. *)
Lemma rest_stopped s n j caps :
  stopped s dot_ok j -> matches s (rest n) j caps = [].
Proof.
  intros Hs. unfold rest, plus. cbn [matches].
  change (fun (i : nat) (caps0 : captures) =>
            step_char s (fun d => negb (Ascii.eqb d newline)) i caps0)
    with (step_char s dot_ok).
  cbn [rounds under]. rewrite (@step_stopped s dot_ok j caps Hs).
  reflexivity.
Qed.

(** [(.+)] on the last character of a line takes that character. *)
Lemma rest_single s n j caps :
  accepted s dot_ok j -> stopped s dot_ok (S j) ->
  matches s (rest n) j caps = [(S j, set_capture n (j, S j) caps)].
Proof.
  intros Ha Hs. unfold rest, plus. cbn [matches].
  change (fun (i : nat) (caps0 : captures) =>
            step_char s (fun d => negb (Ascii.eqb d newline)) i caps0)
    with (step_char s dot_ok).
  assert (Hlt : j < len s) by (destruct Ha as [d [Hd _]]; eapply get_some_lt; eauto).
  destruct (len s - j) as [|f] eqn:E; [lia|].
  cbn [rounds under]. rewrite (@step_accepted s dot_ok j caps Ha).
  cbn [flat_map fst snd]. rewrite (proj2 (Nat.ltb_lt j (S j)) ltac:(lia)).
  rewrite (@step_stopped s dot_ok (S j) caps Hs).
  reflexivity.
Qed.

Lemma seq_fails s r1 r2 j caps :
  matches s r1 j caps = [] -> matches s (Seq r1 r2) j caps = [].
Proof. intros H. cbn [matches]. rewrite H. reflexivity. Qed.

Lemma opt_idle s r j caps :
  matches s r j caps = [] -> matches s (opt r) j caps = [(j, caps)].
Proof.
  intros H. unfold opt. cbn [matches]. cbn [rounds under Nat.ltb Nat.leb].
  rewrite H. reflexivity.
Qed.

(** A line that ends here or at the next character does not hold
    the word [for]. *)
Lemma no_for s j caps :
  stopped s dot_ok j \/ stopped s dot_ok (S j) ->
  matches s (lit "for") j caps = [].
Proof.
  intros H. unfold lit. cbn [chars list_ascii_of_string lit_chars matches].
  unfold stopped, dot_ok in H. unfold step_char at 3.
  destruct (String.get j s) as [d|] eqn:Ed; [|reflexivity].
  destruct H as [H|H].
  - apply negb_false_iff, Ascii.eqb_eq in H. subst d. reflexivity.
  - destruct (char_eq_nocase "f" d); [|reflexivity].
    cbn [flat_map fst snd]. unfold step_char at 2.
    destruct (String.get (S j) s) as [d'|]; [|reflexivity].
    apply negb_false_iff, Ascii.eqb_eq in H. subst d'. reflexivity.
Qed.

(** [(?:for\s+)?] takes nothing when the line ends at the next
    character or here. *)
Lemma optional_for_idle s j caps :
  stopped s dot_ok j \/ stopped s dot_ok (S j) ->
  matches s (opt_word "for") j caps = [(j, caps)].
Proof.
  intros H. unfold opt_word. apply opt_idle. apply seq_fails.
  apply no_for. exact H.
Qed.


Lemma greedy_tail s n (cont : nat -> captures -> list (nat * captures)) :
  (forall p caps, stopped s dot_ok p -> cont p caps = []) ->
  (forall p caps, accepted s dot_ok p -> stopped s dot_ok (S p) ->
     cont p caps = [(S p, set_capture n (p, S p) caps)]) ->
  forall j caps,
    last_char_first n j caps
      (flat_map (fun m => cont (fst m) (snd m)) (matches s anything j caps)).
Proof.
  intros Hstop Hlast j caps.
  unfold anything, star. cbn [matches].
  change (fun (i : nat) (caps0 : captures) =>
            step_char s (fun d => negb (Ascii.eqb d newline)) i caps0)
    with (step_char s dot_ok).
  destruct (@run_ends s dot_ok (len s - j) j (le_n _)) as [k [Hrun Hend]].
  destruct k as [|k].
  - left. replace (j + 0) with j in Hend by lia.
    cbn [rounds under]. rewrite (@step_stopped s dot_ok j caps Hend).
    cbn [flat_map app Nat.leb fst snd]. rewrite (Hstop _ _ Hend). reflexivity.
  - right.
    assert (Ha : accepted s dot_ok (j + S k - 1)) by (apply Hrun; lia).
    assert (Hlt : j + S k - 1 < len s)
      by (destruct Ha as [d [Hd _]]; eapply get_some_lt; eauto).
    destruct (@greedy_head s dot_ok cont caps
                (j + S k, set_capture n (j + S k - 1, j + S k) caps) []
                (S k) j (S (len s - j)) 0) as [tl Htl]; try lia; try assumption.
    + apply Hstop. exact Hend.
    + rewrite (Hlast _ caps Ha).
      * replace (S (j + S k - 1)) with (j + S k) by lia. reflexivity.
      * replace (S (j + S k - 1)) with (j + S k) by lia. exact Hend.
    + exists (j + S k), tl. split; [lia|exact Htl].
Qed.

Lemma query_tail_first s n t :
  query_tail n t ->
  forall j caps, last_char_first n j caps (matches s t j caps).
Proof.
  intros [->| ->] j caps.
  - change (matches s (Seq anything (rest n)) j caps)
      with (flat_map (fun m => matches s (rest n) (fst m) (snd m))
              (matches s anything j caps)).
    apply greedy_tail.
    + intros p c Hp. apply rest_stopped. exact Hp.
    + intros p c Ha Hp. apply rest_single; assumption.
  - change (matches s (Seq anything (Seq (opt_word "for") (rest n))) j caps)
      with (flat_map
              (fun m => matches s (Seq (opt_word "for") (rest n)) (fst m) (snd m))
              (matches s anything j caps)).
    apply greedy_tail.
    + intros p c Hp.
      change (matches s (Seq (opt_word "for") (rest n)) p c)
        with (flat_map (fun m => matches s (rest n) (fst m) (snd m))
                (matches s (opt_word "for") p c)).
      rewrite optional_for_idle by (left; exact Hp).
      cbn [flat_map fst snd]. rewrite rest_stopped by exact Hp. reflexivity.
    + intros p c Ha Hp.
      change (matches s (Seq (opt_word "for") (rest n)) p c)
        with (flat_map (fun m => matches s (rest n) (fst m) (snd m))
                (matches s (opt_word "for") p c)).
      rewrite optional_for_idle by (right; exact Hp).
      cbn [flat_map fst snd]. rewrite rest_single by assumption. reflexivity.
Qed.

Lemma flat_map_first {A B : Type} (f : A -> list B) (P : A -> B -> Prop)
  (l : list A) :
  (forall a, In a l -> f a = [] \/ exists x tl, f a = x :: tl /\ P a x) ->
  flat_map f l = []
  \/ exists a x tl, In a l /\ flat_map f l = x :: tl /\ P a x.
Proof.
  induction l as [|a l IH]; intros H; [left; reflexivity|].
  simpl. destruct (H a (or_introl eq_refl)) as [E|[x [tl [E HP]]]].
  - rewrite E. simpl.
    destruct IH as [E'|[a' [x [tl [Hin [E' HP]]]]]].
    + intros b Hb. apply H. right. exact Hb.
    + left. exact E'.
    + right. exists a', x, tl. split; [right; exact Hin|]. split; assumption.
  - right. rewrite E. exists a, x, (tl ++ flat_map f l).
    split; [left; reflexivity|]. split; [reflexivity|exact HP].
Qed.

(** The three patterns of [search_web]. *)
Lemma search_patterns p :
  In ("search_web", p) (flat_patterns intent_patterns) ->
  ngroups p = 2 /\ exists g t, tree p = Seq g t /\ query_tail 1 t.
Proof.
  intros Hin. unfold flat_patterns, intent_patterns in Hin. simpl in Hin.
  repeat (destruct Hin as [Hin|Hin];
          [first
             [discriminate Hin
             |inversion Hin; subst; split; [reflexivity|];
              eexists; eexists; split; [reflexivity|];
              first [left; reflexivity|right; reflexivity]]|]).
  contradiction.
Qed.


Lemma match_at_head p s start m :
  match_at p s start = Some m ->
  exists tl,
    matches s (tree p) start (repeat None (ngroups p))
    = (m_end m, m_caps m) :: tl.
Proof.
  unfold match_at. intros H.
  destruct (matches s (tree p) start (repeat None (ngroups p))) as [|[e c] l];
    [discriminate|].
  inversion H; subst. simpl. eexists. reflexivity.
Qed.

(** The last group of a match of a [search_web] pattern is one
    character: the last one of the match. *)
Lemma search_query_group (text : string) p m :
  In ("search_web", p) (flat_patterns intent_patterns) ->
  search p text = Some m ->
  m_start m < m_end m
  /\ exists g0,
       groups text m = [g0; Some (slice (m_end m - 1) (m_end m) text)].
Proof.
  intros Hin Hs.
  destruct (search_patterns Hin) as [Hng [g [t [Ht Hq]]]].
  unfold search in Hs. apply scan_some in Hs. destruct Hs as [[_ Hstart] Hs].
  destruct (match_at_head _ _ _ Hs) as [tl Hhead].
  rewrite Ht, Hng in Hhead. cbn [matches] in Hhead.
  destruct (@flat_map_first _ _
              (fun m1 => matches text t (fst m1) (snd m1))
              (fun a x => m_start m <= fst a /\ length (snd a) = 2
                          /\ fst a < fst x
                          /\ snd x = set_capture 1 (fst x - 1, fst x) (snd a))
              (matches text g (m_start m) (repeat None 2)))
    as [E|[a [x [tl' [Ha [E [Hle [Hlen [Hlt Hx]]]]]]]]].
  - intros a Ha.
    destruct (@query_tail_first text 1 t Hq (fst a) (snd a))
      as [E|[e [tl' [Hlt E]]]]; [left; exact E|].
    right. exists (e, set_capture 1 (e - 1, e) (snd a)), tl'.
    split; [exact E|]. simpl.
    destruct (@matches_records text 0 g _ _ _ Ha) as [Hl _].
    destruct (@matches_spans text g _ _ _ Hstart Ha) as [Hsp _].
    rewrite Hl. simpl. repeat split; try reflexivity; try assumption; lia.
  - rewrite E in Hhead. discriminate.
  - rewrite E in Hhead. inversion Hhead; subst x. simpl in *.
    split; [lia|].
    destruct (snd a) as [|c0 [|c1 [|c2 l]]]; simpl in Hlen; try lia.
    unfold groups. rewrite Hx. simpl. eexists. reflexivity.
Qed.

Lemma substring_short (s : string) (a n : nat) : len (substring a n s) <= n.
Proof.
  unfold len. revert a n; induction s as [|c s IH]; intros a n.
  - destruct a, n; simpl; lia.
  - destruct a as [|a].
    + destruct n as [|n]; simpl; [lia|]. specialize (IH 0 n). lia.
    + simpl. apply IH.
Qed.

(** A piece of a piece of [s] is a piece of [s]. *)
Lemma substring_substring (s : string) :
  forall a n i k, i + k <= n ->
    substring i k (substring a n s) = substring (a + i) k s.
Proof.
  induction s as [|c s IH]; intros a n i k H.
  - destruct a, n, i, k; reflexivity.
  - destruct a as [|a].
    + destruct n as [|n].
      * assert (i = 0) by lia. assert (k = 0) by lia. subst. reflexivity.
      * destruct i as [|i].
        -- destruct k as [|k]; [reflexivity|]. simpl. f_equal.
           apply (IH 0 n 0 k). lia.
        -- simpl. apply (IH 0 n i k). lia.
    + simpl. apply IH. exact H.
Qed.


(** X8: when [parse_intent] answers [search_web] from a pattern, the
    slot [query] is never the words to search for: the greedy [.*]
    leaves the group [(.+)] one character, the last one of the match,
    and the query is that character stripped (empty when it is white
    space). *)
Theorem search_query_last_char (now text : string) (r : dict) :
  parse_intent now text = Ok r ->
  get "type" r = VStr "search_web" ->
  dict_get "match" r <> None ->
  last_char_query r.
Proof.
  intros Hr Hty Hmatch.
  destruct (parse_intent_outcome now text)
    as [d Hd Hin|c data Hx Hc Hs Htyc|k entry q Hx Hp Hbest Hq Hk
       |k entry q Hx Hp Hbest Hq Hk];
    inversion Hr; subst r; clear Hr.
  - exfalso. apply Hmatch. apply exact_plain. exact Hin.
  - destruct (hit_or_miss (normalize text) (flat_patterns intent_patterns))
      as [Hhit|Hmiss];
      [|rewrite (pattern_tier_miss _ Hmiss) in Hc; discriminate].
    destruct (pattern_answer _ Hhit)
      as [ty [p [m [data' [Hc' [Hd' [Hsearch Hin]]]]]]].
    assert (Heq : dict_update (candidate_dict c) data
                  = dict_update
                      (candidate_dict
                         (Candidate ty (group0 (normalize text) m)
                            (groups (normalize text) m))) data')
      by congruence.
    rewrite Heq in *. clear Heq Hc Hs Htyc.
    set (t := normalize text) in *.
    assert (Hkind : get "type"
                      (dict_set "confidence" (VNum (8 # 10))
                         (dict_update (blank now t)
                            (dict_update
                               (candidate_dict
                                  (Candidate ty (group0 t m) (groups t m))) data')))
                    = VStr ty).
    { destruct (extract_typed _ _ _ Hd'); reflexivity. }
    rewrite Hkind in Hty. inversion Hty; subst ty. clear Hty Hkind.
    destruct (search_query_group _ Hin Hsearch) as [Hlt [g0 Hg]].
    pose proof (search_span _ _ Hsearch) as [_ Hend].
    pose proof (group0_length _ _ Hsearch) as Hlen.
    rewrite Hg in *.
    assert (Hdata : data'
                    = [("query",
                        VStr (strip (slice (m_end m - 1) (m_end m) t)))]).
    { unfold _extract_intent_data in Hd'. simpl in Hd'. inversion Hd'.
      reflexivity. }
    subst data'.
    exists (group0 t m), (strip (slice (m_end m - 1) (m_end m) t)).
    split; [reflexivity|]. split; [reflexivity|].
    split; [lia|]. split.
    + f_equal. rewrite Hlen. unfold group0, slice.
      rewrite substring_substring by lia. f_equal; lia.
    + etransitivity; [apply strip_length|]. unfold slice.
      etransitivity; [apply substring_short|]. lia.
  - exfalso. apply Hmatch. reflexivity.
  - exfalso. apply Hmatch. reflexivity.
Qed.

Lemma search_query_last_char_witness :
  last_char_query
    [ ("type", VStr "search_web"); ("confidence", VNum (8 # 10));
      ("entities", VDict []); ("raw_text", VStr "search for cats");
      ("timestamp", VStr "2024-05-01T10:00:00");
      ("match", VStr "search for cats");
      ("groups", VTuple [VStr "search"; VStr "s"]);
      ("query", VStr "s") ].
Proof.
  apply (@search_query_last_char "2024-05-01T10:00:00" "Search for cats").
  - vm_compute. reflexivity.
  - reflexivity.
  - discriminate.
Defined.

End QueryFacts.

(* ================================================================== *)
(** * What the executor does, and with whose consent *)
(* ================================================================== *)

Module ExecutorFacts.

Import Regex Catalog Router Memory Spec Notions Executor PyFacts RouterFacts
  PipelineFacts.

(** A writer whose category is not [conversation] leaves the object as
    it is. *)
Lemma add_memory_elsewhere {C W : Type} (db : backend C W) st w ck
  content category metadata embedding :
  String.eqb category "conversation" = false ->
  fst (fst (add_memory db st w ck content category metadata embedding)) = st.
Proof.
  intros H. unfold add_memory.
  destruct (collection st) as [c|]; [|reflexivity].
  destruct (coll_add db c w content _ _ _) as [w' [u|e]]; [|reflexivity].
  rewrite H. reflexivity.
Qed.

Section Executor.

Variables C W : Type.
Variable db : backend C W.
Variable py_str : value -> string.
Variable py_repr : value -> string.
Variable exn_text : exn -> string.
Variable help_text : string.
Variable stats_text : store C -> W -> string.

Local Abbreviation run_intent :=
  (_execute_intent db py_str py_repr exn_text help_text stats_text).

Local Abbreviation run_body :=
  (execute db py_str py_repr help_text stats_text).

Lemma add_observation_keeps st w ck observation source :
  fst (add_observation db st w ck observation source) = st.
Proof.
  unfold add_observation.
  pose proof (@add_memory_elsewhere C W db st w ck observation "observation"
                (Some [("source", VStr source); ("type", VStr "visual")]) None
                eq_refl) as H.
  destruct (add_memory db st w ck observation "observation" _ None)
    as [[st' w'] i]. exact H.
Qed.

Lemma add_action_keeps st w ck action result :
  fst (add_action db st w ck action result) = st.
Proof.
  unfold add_action.
  match goal with
  | |- context [add_memory db st w ck ?c "action" ?md None] =>
      pose proof (@add_memory_elsewhere C W db st w ck c "action" md None
                    eq_refl) as H;
      destruct (add_memory db st w ck c "action" md None) as [[st' w'] i]
  end.
  exact H.
Qed.

Lemma add_user_preference_keeps st w ck preference v :
  fst (add_user_preference db py_str st w ck preference v) = st.
Proof.
  unfold add_user_preference.
  match goal with
  | |- context [add_memory db st w ck ?c "user_preference" ?md None] =>
      pose proof (@add_memory_elsewhere C W db st w ck c "user_preference" md
                    None eq_refl) as H;
      destruct (add_memory db st w ck c "user_preference" md None)
        as [[st' w'] i]
  end.
  exact H.
Qed.

(** A click without both coordinates clicks where the pointer is,
    at once. *)
Lemma click_without_coordinates cfg ck env intent (m : machine C W) :
  get "type" intent = VStr "click" ->
  get "x" intent = VNone \/ get "y" intent = VNone ->
  exists rest,
    trace (fst (run_intent cfg ck env intent m))
    = trace m ++ ClickedHere :: rest
    /\ (rest = [] \/ exists msg, rest = [Logged msg]).
Proof.
  intros Hty Hxy. unfold _execute_intent, execute. rewrite Hty.
  cbn [is_str String.eqb Ascii.eqb Bool.eqb].
  assert (E : negb (is_none (get "x" intent)) && negb (is_none (get "y" intent))
              = false).
  { destruct Hxy as [-> | ->]; [reflexivity|].
    rewrite andb_false_r. reflexivity. }
  rewrite E. unfold and_then, emit, outcome_of, remember, ret.
  cbn [desktop_click is_none negb andb mem service trace].
  destruct (click env) as [[]|e].
  - destruct (add_action db (mem m) (service m) ck "click"
                (Some "Clicked at current position")) as [st' w'].
    cbn [fst trace]. exists []. split; [reflexivity|left; reflexivity].
  - cbn [fst trace mem service]. eexists. rewrite <- app_assoc.
    split; [reflexivity|right; eexists; reflexivity].
Qed.

Lemma reads_ret {A : Type} (a : A) : reads (@ret C W A a).
Proof. intros m. reflexivity. Qed.

Lemma reads_outcome {A : Type} (r : result A) : reads (@outcome_of C W A r).
Proof. intros m. reflexivity. Qed.

Lemma reads_recall {A : Type} (read : store C -> W -> A) : reads (recall read).
Proof. intros m. reflexivity. Qed.

Lemma reads_then {A B : Type} (step : run C W A) (k : A -> run C W B) :
  reads step -> (forall a, reads (k a)) -> reads (and_then step k).
Proof.
  intros Hs Hk m. unfold and_then. specialize (Hs m).
  destruct (step m) as [m' [a|e]]; simpl in Hs; subst m'.
  - apply Hk.
  - reflexivity.
Qed.

(** [_handle_memory_query] only reads. *)
Lemma memory_query_reads intent :
  reads (_handle_memory_query db py_str stats_text intent).
Proof.
  unfold _handle_memory_query.
  repeat first
    [ apply reads_ret | apply reads_outcome | apply reads_recall
    | apply reads_then; [|intros ?]
    | match goal with
      | |- reads (if ?b then _ else _) => destruct b
      | |- reads (match ?v with _ => _ end) => destruct v
      end ].
Qed.

(** ** Events *)

Lemma emits_ret P {A : Type} (a : A) : emits P (@ret C W A a).
Proof. intros m. exists []. rewrite app_nil_r. split; [reflexivity|constructor]. Qed.

Lemma emits_outcome P {A : Type} (r : result A) : emits P (@outcome_of C W A r).
Proof. intros m. exists []. rewrite app_nil_r. split; [reflexivity|constructor]. Qed.

Lemma emits_reads P {A : Type} (step : run C W A) : reads step -> emits P step.
Proof.
  intros H m. exists []. rewrite H, app_nil_r. split; [reflexivity|constructor].
Qed.

Lemma emits_remember P write : emits P (@remember C W write).
Proof.
  intros m. exists []. unfold remember.
  destruct (write (mem m) (service m)) as [st' w']. simpl.
  rewrite app_nil_r. split; [reflexivity|constructor].
Qed.

Lemma emits_emit (P : event -> Prop) e : P e -> emits P (@emit C W e).
Proof.
  intros H m. exists [e]. split; [reflexivity|]. constructor; [exact H|constructor].
Qed.

(** The continuation only has to behave on the values the step can
    return. *)
Lemma emits_then P {A B : Type} (step : run C W A) (k : A -> run C W B) :
  emits P step ->
  (forall a, (exists m, snd (step m) = Ok a) -> emits P (k a)) ->
  emits P (and_then step k).
Proof.
  intros Hs Hk m. unfold and_then. destruct (Hs m) as [evs [E HP]].
  destruct (step m) as [m' [a|e]] eqn:Em; simpl in E.
  - assert (Ha : exists m0, snd (step m0) = Ok a)
      by (exists m; rewrite Em; reflexivity).
    destruct (Hk a Ha m') as [evs' [E' HP']].
    exists (evs ++ evs'). rewrite E', E, app_assoc. split; [reflexivity|].
    apply Forall_app. split; assumption.
  - exists evs. simpl. split; assumption.
Qed.

Lemma emits_weaken (P Q : event -> Prop) {A : Type} (step : run C W A) :
  (forall e, P e -> Q e) -> emits P step -> emits Q step.
Proof.
  intros H Hs m. destruct (Hs m) as [evs [E HP]]. exists evs.
  split; [exact E|]. eapply Forall_impl; eassumption.
Qed.

Ltac quiet_step :=
  first
    [ apply emits_ret | apply emits_outcome | apply emits_remember
    | apply emits_emit; exact I
    | apply emits_emit; reflexivity
    | apply emits_reads; apply memory_query_reads ].

(** ** Consent *)

Lemma confirmed_true cfg env kind prompt :
  (exists m : machine C W, snd (confirmed cfg env kind prompt m) = Ok true) ->
  consent cfg env kind.
Proof.
  intros [m H]. unfold confirmed, and_then, outcome_of, emit, ret in H.
  unfold consent.
  destruct (_should_confirm_action cfg kind) as [v|e]; [|discriminate].
  destruct (truthy v) eqn:Ev; [|left; exists v; split; [reflexivity|exact Ev]].
  destruct (reply env) as [answer|e]; [|discriminate].
  simpl in H.
  assert (Heq : String.eqb (lower (strip answer)) "y" = true) by congruence.
  apply String.eqb_eq in Heq.
  right. exists answer. split; [reflexivity|exact Heq].
Qed.

Lemma confirmed_emits P cfg env kind prompt :
  P (Printed prompt) -> P Asked ->
  emits P (@confirmed C W cfg env kind prompt).
Proof.
  intros Hp Ha. unfold confirmed.
  apply emits_then; [apply emits_outcome|intros ask _].
  destruct (truthy ask); [|apply emits_ret].
  apply emits_then; [apply emits_emit; exact Hp|intros _ _].
  apply emits_then; [apply emits_emit; exact Ha|intros _ _].
  apply emits_then; [apply emits_outcome|intros answer _]. apply emits_ret.
Qed.

Lemma execute_consented cfg ck env intent :
  emits (consented cfg env) (run_body cfg ck env intent).
Proof.
  unfold execute.
  destruct (is_str "screen_read" (get "type" intent)).
  { repeat first [quiet_step | apply emits_then; [|intros ? _]]. }
  destruct (is_str "webcam_analyze" (get "type" intent)).
  { destruct (webcam env);
      repeat first [quiet_step | apply emits_then; [|intros ? _]]. }
  destruct (is_str "type_text" (get "type" intent)).
  { destruct (truthy (get_default "text" (VStr "") intent)); [|quiet_step].
    apply emits_then; [apply confirmed_emits; exact I|intros go Hgo].
    destruct go; [|quiet_step]. apply confirmed_true in Hgo.
    cbn [negb].
    apply emits_then; [apply emits_emit; exact Hgo|intros ? _].
    repeat first [quiet_step | apply emits_then; [|intros ? _]]. }
  destruct (is_str "click" (get "type" intent)).
  { destruct (negb (is_none (get "x" intent))
              && negb (is_none (get "y" intent))) eqn:E.
    - apply emits_then; [apply confirmed_emits; exact I|intros go Hgo].
      destruct go; [|quiet_step]. apply confirmed_true in Hgo.
      cbn [negb]. unfold desktop_click. rewrite E.
      apply emits_then; [apply emits_emit; exact Hgo|intros ? _].
      repeat first [quiet_step | apply emits_then; [|intros ? _]].
    - repeat first [quiet_step | apply emits_then; [|intros ? _]]. }
  destruct (is_str "move_mouse" (get "type" intent)).
  { destruct (negb (is_none (get "x" intent))
              && negb (is_none (get "y" intent)));
      repeat first [quiet_step | apply emits_then; [|intros ? _]]. }
  destruct (is_str "help_request" (get "type" intent)); [quiet_step|].
  destruct (is_str "memory_query" (get "type" intent)); [quiet_step|].
  destruct (is_str "general_chat" (get "type" intent)); quiet_step.
Qed.

(** The whole of [_execute_intent] adds at most a log line. *)
Lemma run_intent_emits (P : event -> Prop) cfg ck env intent :
  (forall msg, P (Logged msg)) ->
  emits P (run_body cfg ck env intent) ->
  forall m, exists evs,
    trace (fst (run_intent cfg ck env intent m)) = trace m ++ evs
    /\ Forall P evs.
Proof.
  intros Hlog H m. unfold _execute_intent. destruct (H m) as [evs [E HP]].
  destruct (run_body cfg ck env intent m) as [m' [r|e]]; simpl in *.
  - exists evs. split; assumption.
  - exists (evs ++ [Logged ("Error executing intent "
                            ^^ show py_str (get "type" intent)
                            ^^ ": " ^^ exn_text e)]).
    rewrite E, app_assoc. split; [reflexivity|].
    apply Forall_app. split; [exact HP|]. constructor; [apply Hlog|constructor].
Qed.

(** X10: whatever the intent, the configuration and the answers of the
    outside, [_execute_intent] types text or clicks at given
    coordinates only with the user's consent: either
    [_should_confirm_action] answered a false value, or the reply to
    the prompt, stripped and lower-cased, was [y]. *)
Theorem actions_have_consent cfg ck env intent (m : machine C W) :
  exists evs,
    trace (fst (run_intent cfg ck env intent m)) = trace m ++ evs
    /\ Forall (consented cfg env) evs.
Proof.
  apply run_intent_emits; [intros msg; exact I|apply execute_consented].
Qed.

(** ** The memory object *)

Lemma steady_ret {A : Type} (a : A) : steady (@ret C W A a).
Proof. intros m. reflexivity. Qed.

Lemma steady_outcome {A : Type} (r : result A) : steady (@outcome_of C W A r).
Proof. intros m. reflexivity. Qed.

Lemma steady_emit e : steady (@emit C W e).
Proof. intros m. reflexivity. Qed.

Lemma steady_reads {A : Type} (step : run C W A) : reads step -> steady step.
Proof. intros H m. rewrite H. reflexivity. Qed.

Lemma steady_remember write :
  (forall st w, fst (write st w) = st) -> steady (@remember C W write).
Proof.
  intros H m. unfold remember. specialize (H (mem m) (service m)).
  destruct (write (mem m) (service m)) as [st' w']. exact H.
Qed.

Lemma steady_then {A B : Type} (step : run C W A) (k : A -> run C W B) :
  steady step -> (forall a, steady (k a)) -> steady (and_then step k).
Proof.
  intros Hs Hk m. unfold and_then. specialize (Hs m).
  destruct (step m) as [m' [a|e]]; simpl in Hs.
  - rewrite Hk. exact Hs.
  - exact Hs.
Qed.

Lemma confirmed_steady cfg env kind prompt :
  steady (@confirmed C W cfg env kind prompt).
Proof.
  unfold confirmed.
  apply steady_then; [apply steady_outcome|intros ask].
  destruct (truthy ask); [|apply steady_ret].
  repeat first [apply steady_ret | apply steady_outcome | apply steady_emit
               | apply steady_then; [|intros ?]].
Qed.

Ltac steady_step :=
  first
    [ apply steady_ret | apply steady_outcome | apply steady_emit
    | apply confirmed_steady
    | apply steady_reads; apply memory_query_reads
    | apply steady_remember; intros ? ?; apply add_observation_keeps
    | apply steady_remember; intros ? ?; apply add_action_keeps
    | apply steady_then; [|intros ?]
    | match goal with
      | |- steady (if ?b then _ else _) => destruct b
      | |- steady (match ?v with Some _ => _ | None => _ end) => destruct v
      end ].

Lemma execute_steady cfg ck env intent :
  steady (run_body cfg ck env intent).
Proof. unfold execute. repeat steady_step. Qed.

(** X14: [_execute_intent] leaves the memory object as it is, whatever
    it does: the observations and actions it records go to the
    collection, never to the conversation buffer. *)
Theorem executor_keeps_buffer cfg ck env intent (m : machine C W) :
  mem (fst (run_intent cfg ck env intent m)) = mem m.
Proof.
  unfold _execute_intent. pose proof (execute_steady cfg ck env intent m) as H.
  destruct (run_body cfg ck env intent m) as [m' [r|e]]; exact H.
Qed.

(** ** The kinds that act *)

Lemma is_str_false name v : v <> VStr name -> is_str name v = false.
Proof.
  intros H. destruct v; try reflexivity. simpl.
  destruct (String.eqb s name) eqn:E; [|reflexivity].
  apply String.eqb_eq in E. subst. congruence.
Qed.

(** X13: only [type_text], [click] and [move_mouse] act on the desktop:
    a turn of any other kind neither types, nor clicks, nor moves the
    pointer. *)
Theorem other_kinds_do_not_act cfg ck env intent (m : machine C W) :
  get "type" intent <> VStr "type_text" ->
  get "type" intent <> VStr "click" ->
  get "type" intent <> VStr "move_mouse" ->
  exists evs,
    trace (fst (run_intent cfg ck env intent m)) = trace m ++ evs
    /\ Forall (fun e => acts e = false) evs.
Proof.
  intros H1 H2 H3.
  apply run_intent_emits; [intros msg; reflexivity|].
  unfold execute.
  rewrite (is_str_false H1), (is_str_false H2), (is_str_false H3).
  destruct (is_str "screen_read" (get "type" intent)).
  { repeat first [quiet_step | apply emits_then; [|intros ? _]]. }
  destruct (is_str "webcam_analyze" (get "type" intent)).
  { destruct (webcam env);
      repeat first [quiet_step | apply emits_then; [|intros ? _]]. }
  destruct (is_str "help_request" (get "type" intent)); [quiet_step|].
  destruct (is_str "memory_query" (get "type" intent)); [quiet_step|].
  destruct (is_str "general_chat" (get "type" intent)); quiet_step.
Qed.

(** ** From the router to the desktop *)

(** X11: a text that [parse_intent] classifies as [click] by its keywords
    alone (no pattern matched) is reported invalid by
    [validate_intent], and [_execute_intent] clicks all the same, at
    the current position of the pointer and without asking, whatever
    the configuration says about confirmation. *)
Theorem keyword_click_is_performed cfg ck env now text r (m : machine C W) :
  parse_intent now text = Ok r ->
  get "type" r = VStr "click" ->
  dict_get "match" r = None ->
  (exists v, validate_intent r = (r, Ok v) /\ is_valid v = false)
  /\ exists rest,
       trace (fst (run_intent cfg ck env r m)) = trace m ++ ClickedHere :: rest
       /\ (rest = [] \/ exists msg, rest = [Logged msg]).
Proof.
  intros Hr Hty Hm. pose proof (unmatched_no_x _ _ Hr Hm) as Hx. split.
  - unfold validate_intent, check_intent. rewrite Hty, Hx.
    cbn [is_str String.eqb Ascii.eqb Bool.eqb is_none orb bind].
    eexists. split; reflexivity.
  - apply click_without_coordinates; [exact Hty|left; exact Hx].
Qed.

(** X12: [_execute_intent] never submits a move to confirmation: for
    a [move_mouse] record of the router it neither prints a prompt nor
    asks, whatever the configuration.  When the record comes from a
    pattern on an input of at most 4300 characters (so that [int()]
    takes both coordinates), the first thing it does is to move the
    pointer to the non-negative coordinates the text names. *)
Theorem move_is_not_confirmed cfg ck env now text r (m : machine C W) :
  parse_intent now text = Ok r ->
  get "type" r = VStr "move_mouse" ->
  (exists evs,
     trace (fst (run_intent cfg ck env r m)) = trace m ++ evs
     /\ Forall (fun e => prompts e = false) evs)
  /\ (dict_get "match" r <> None -> len text <= max_str_digits ->
      exists x y rest,
        get "x" r = VInt x /\ get "y" r = VInt y /\ (0 <= x)%Z /\ (0 <= y)%Z
        /\ trace (fst (run_intent cfg ck env r m))
           = trace m ++ Moved (VInt x) (VInt y) :: rest
        /\ (rest = [] \/ exists msg, rest = [Logged msg])).
Proof.
  intros Hr Hty. split.
  - apply run_intent_emits; [intros msg; reflexivity|].
    unfold execute. rewrite Hty.
    cbn [is_str String.eqb Ascii.eqb Bool.eqb].
    destruct (negb (is_none (get "x" r)) && negb (is_none (get "y" r)));
      repeat first [quiet_step | apply emits_then; [|intros ? _]].
  - intros Hm Hlen.
    pose proof (pointing_core _ _ Hr (or_intror Hty) Hm) as Hp.
    destruct (@points_within_limit (len (normalize text)) r)
      as [x [y [Hx [Hy [Hxp Hyp]]]]];
      [pose proof (normalize_length text); lia|exact Hp|].
    assert (Hgx : get "x" r = VInt x) by (unfold get; rewrite Hx; reflexivity).
    assert (Hgy : get "y" r = VInt y) by (unfold get; rewrite Hy; reflexivity).
    exists x, y.
    unfold _execute_intent, execute. rewrite Hty, Hgx, Hgy.
    cbn [is_str String.eqb Ascii.eqb Bool.eqb is_none negb andb].
    unfold and_then, emit, outcome_of, remember, ret.
    cbn [mem service trace].
    destruct (move_to env) as [[]|e].
    + match goal with
      | |- context [add_action db ?a ?b ?c ?d ?e] =>
          destruct (add_action db a b c d e) as [st' w']
      end.
      cbn [fst trace]. exists []. repeat split; auto.
    + cbn [fst trace mem service]. eexists. rewrite <- app_assoc.
      repeat split; auto. right. eexists. reflexivity.
Qed.

End Executor.

Lemma other_kinds_do_not_act_witness :
  exists evs,
    trace (fst (_execute_intent ListDb.db (fun _ => "") (fun _ => "")
                  (fun _ => "") "" (fun _ _ => "")
                  [] (ListDb.tick 1) (calm "Hello" "" "n")
                  [("type", VStr "screen_read")]
                  (Machine (ListDb.fresh 50) [] [])))
    = [] ++ evs
    /\ Forall (fun e => acts e = false) evs.
Proof.
  apply (@other_kinds_do_not_act unit ListDb.world ListDb.db
           (fun _ => "") (fun _ => "") (fun _ => "") "" (fun _ _ => "")
           [] (ListDb.tick 1) (calm "Hello" "" "n")
           [("type", VStr "screen_read")]
           (Machine (ListDb.fresh 50) [] []));
    discriminate.
Defined.

Lemma keyword_click_is_performed_witness :
  (exists v,
     validate_intent
       [ ("type", VStr "click"); ("confidence", VNum (6 # 10));
         ("entities", VDict []); ("raw_text", VStr "tap or press");
         ("timestamp", VStr "2024-05-01T10:00:00");
         ("keyword_score", VNum (2 # 4)) ]
     = ([ ("type", VStr "click"); ("confidence", VNum (6 # 10));
          ("entities", VDict []); ("raw_text", VStr "tap or press");
          ("timestamp", VStr "2024-05-01T10:00:00");
          ("keyword_score", VNum (2 # 4)) ], Ok v)
     /\ is_valid v = false)
  /\ exists rest,
       trace (fst (_execute_intent ListDb.db (fun _ => "") (fun _ => "")
                     (fun _ => "") "" (fun _ _ => "")
                     [("controls", VDict [("confirm_actions", VBool true)])]
                     (ListDb.tick 1) (calm "" "" "n")
                     [ ("type", VStr "click"); ("confidence", VNum (6 # 10));
                       ("entities", VDict []);
                       ("raw_text", VStr "tap or press");
                       ("timestamp", VStr "2024-05-01T10:00:00");
                       ("keyword_score", VNum (2 # 4)) ]
                     (Machine (ListDb.fresh 50) [] [])))
       = [] ++ ClickedHere :: rest
       /\ (rest = [] \/ exists msg, rest = [Logged msg]).
Proof.
  apply (@keyword_click_is_performed unit ListDb.world ListDb.db
           (fun _ => "") (fun _ => "") (fun _ => "") "" (fun _ _ => "")
           [("controls", VDict [("confirm_actions", VBool true)])]
           (ListDb.tick 1) (calm "" "" "n")
           "2024-05-01T10:00:00" "Tap or press").
  - vm_compute. reflexivity.
  - reflexivity.
  - reflexivity.
Defined.

Lemma move_is_not_confirmed_witness :
  exists x y rest,
    trace (fst (_execute_intent ListDb.db (fun _ => "") (fun _ => "")
                  (fun _ => "") "" (fun _ _ => "")
                  [("controls", VDict [("confirm_actions", VBool true)])]
                  (ListDb.tick 1) (calm "" "" "n")
                  [ ("type", VStr "move_mouse"); ("confidence", VNum (8 # 10));
                    ("entities", VDict []);
                    ("raw_text", VStr "move to 100, 200");
                    ("timestamp", VStr "2024-05-01T10:00:00");
                    ("match", VStr "move to 100, 200");
                    ("groups", VTuple [VStr "100"; VStr "200"]);
                    ("x", VInt 100); ("y", VInt 200) ]
                  (Machine (ListDb.fresh 50) [] [])))
    = [] ++ Moved (VInt x) (VInt y) :: rest
    /\ (rest = [] \/ exists msg, rest = [Logged msg]).
Proof.
  destruct (@move_is_not_confirmed unit ListDb.world ListDb.db
              (fun _ => "") (fun _ => "") (fun _ => "") "" (fun _ _ => "")
              [("controls", VDict [("confirm_actions", VBool true)])]
              (ListDb.tick 1) (calm "" "" "n")
              "2024-05-01T10:00:00" "Move to 100, 200"
              [ ("type", VStr "move_mouse"); ("confidence", VNum (8 # 10));
                ("entities", VDict []);
                ("raw_text", VStr "move to 100, 200");
                ("timestamp", VStr "2024-05-01T10:00:00");
                ("match", VStr "move to 100, 200");
                ("groups", VTuple [VStr "100"; VStr "200"]);
                ("x", VInt 100); ("y", VInt 200) ]
              (Machine (ListDb.fresh 50) [] []))
    as [_ H].
  - vm_compute. reflexivity.
  - reflexivity.
  - destruct H as [x [y [rest [_ [_ [_ [_ [Ht Hrest]]]]]]]].
    + discriminate.
    + apply Nat.leb_le. vm_compute. reflexivity.
    + exists x, y, rest. split; [exact Ht|exact Hrest].
Defined.

End ExecutorFacts.

(* ================================================================== *)
(** * The text to type *)
(* ================================================================== *)

Module TypedFacts.

Import Regex Catalog Router Spec Notions PyFacts RegexFacts LoopFacts
  PatternFacts KeywordFacts EntityFacts RouterFacts CaptureFacts PipelineFacts
  QueryFacts.

(** A greedy repetition of one character class: the longest run
    comes first. *)
Lemma greedy_top s ok lo caps :
  forall k j fuel cnt,
    k < fuel -> lo <= cnt + k ->
    (forall p, j <= p < j + k -> accepted s ok p) ->
    stopped s ok (j + k) ->
    exists tl,
      rounds (step_char s ok) lo None fuel cnt j caps = (j + k, caps) :: tl.
Proof.
  induction k as [|k IH]; intros j fuel cnt Hfuel Hlo Hrun Hstop;
    (destruct fuel as [|fuel]; [lia|]); cbn [rounds under].
  - replace (j + 0) with j in * by lia.
    rewrite (@step_stopped s ok j caps Hstop). cbn [flat_map app].
    rewrite (proj2 (Nat.leb_le lo cnt) ltac:(lia)). eexists. reflexivity.
  - rewrite (@step_accepted s ok j caps (Hrun j ltac:(lia))).
    cbn [flat_map fst snd]. rewrite (proj2 (Nat.ltb_lt j (S j)) ltac:(lia)).
    destruct (IH (S j) fuel (S cnt)) as [tl Htl]; try lia.
    + intros p Hp. apply Hrun. lia.
    + replace (S j + k) with (j + S k) by lia. exact Hstop.
    + rewrite Htl. replace (S j + k) with (j + S k) by lia.
      simpl. eexists. reflexivity.
Qed.


Lemma space_ok_eq d : space_ok d = is_space d.
Proof. unfold space_ok. simpl. destruct (is_space d); reflexivity. Qed.

Lemma accepted_not_stopped s ok p : accepted s ok p -> stopped s ok p -> False.
Proof.
  intros [d [Hd Hok]] Hs. unfold stopped in Hs. rewrite Hd in Hs. congruence.
Qed.

Lemma accepted_lt s ok p : accepted s ok p -> p < len s.
Proof. intros [d [Hd _]]. eapply get_some_lt; eauto. Qed.

(** A character that is not white space is one [.] accepts. *)
Lemma solid_dot s p d :
  String.get p s = Some d -> is_space d = false -> accepted s dot_ok p.
Proof.
  intros Hd Hs. exists d. split; [exact Hd|]. unfold dot_ok.
  destruct (Ascii.eqb d newline) eqn:E; [|reflexivity].
  apply Ascii.eqb_eq in E. subst d. discriminate.
Qed.

(** [\s*]: the whole run of white space first. *)
Lemma star_space_head s j k caps :
  (forall p, j <= p < j + k -> accepted s space_ok p) ->
  stopped s space_ok (j + k) ->
  exists tl, matches s (star space) j caps = (j + k, caps) :: tl.
Proof.
  intros Hrun Hstop.
  change (matches s (star space) j caps)
    with (rounds (step_char s space_ok) 0 None (S (len s - j)) 0 j caps).
  apply greedy_top; try assumption; try lia.
  destruct k as [|k]; [lia|].
  pose proof (accepted_lt (Hrun (j + k) ltac:(lia))). lia.
Qed.

Lemma star_space_stopped s j caps :
  stopped s space_ok j -> matches s (star space) j caps = [(j, caps)].
Proof.
  intros Hstop.
  change (matches s (star space) j caps)
    with (rounds (step_char s space_ok) 0 None (S (len s - j)) 0 j caps).
  cbn [rounds under]. rewrite (@step_stopped s space_ok j caps Hstop).
  reflexivity.
Qed.

(** [(.+)] from a character it accepts: the rest of the line. *)
Lemma rest_head s n c caps :
  accepted s dot_ok c ->
  exists e tl,
    matches s (rest n) c caps = (e, set_capture n (c, e) caps) :: tl /\ c < e.
Proof.
  intros Ha.
  destruct (@run_ends s dot_ok (len s - c) c (le_n _)) as [k [Hrun Hstop]].
  destruct k as [|k].
  { exfalso. replace (c + 0) with c in Hstop by lia.
    eapply accepted_not_stopped; eassumption. }
  assert (Hlt : S k < S (len s - c)).
  { pose proof (accepted_lt (Hrun (c + k) ltac:(lia))). lia. }
  destruct (@greedy_top s dot_ok 1 caps (S k) c (S (len s - c)) 0 Hlt
              ltac:(lia) Hrun Hstop) as [tl Htl].
  unfold rest, plus. cbn [matches].
  change (fun (i : nat) (caps0 : captures) =>
            step_char s (fun d => negb (Ascii.eqb d newline)) i caps0)
    with (step_char s dot_ok).
  rewrite Htl. simpl. eexists. eexists. split; [reflexivity|lia].
Qed.

(** [[:.]?] *)
Lemma opt_mark s p caps :
  matches s (opt (one_of ":.")) p caps = [(S p, caps); (p, caps)]
  \/ matches s (opt (one_of ":.")) p caps = [(p, caps)].
Proof.
  change (matches s (opt (one_of ":.")) p caps)
    with (rounds (step_char s mark_ok) 0 (Some 1) (S (len s - p)) 0 p caps).
  cbn [rounds under].
  change (0 <? 1) with true. change (0 <=? 0) with true. cbv iota.
  destruct (accepted_or_stopped s mark_ok p) as [Ha|Hs].
  - left. rewrite (@step_accepted s mark_ok p caps Ha).
    cbn [flat_map fst snd]. rewrite (proj2 (Nat.ltb_lt p (S p)) ltac:(lia)).
    pose proof (accepted_lt Ha) as Hlt.
    destruct (len s - p) as [|f] eqn:E; [lia|].
    cbn [rounds under].
    change (1 <? 1) with false. change (0 <=? 1) with true. reflexivity.
  - right. rewrite (@step_stopped s mark_ok p caps Hs). reflexivity.
Qed.

Lemma ends_clean_run s j k :
  ends_clean s ->
  (forall p, j <= p < j + k -> accepted s space_ok p) ->
  String.get (j + k) s = None -> k = 0.
Proof.
  intros Hc Hrun Hend. destruct k as [|k]; [reflexivity|exfalso].
  destruct (Hrun (j + k) ltac:(lia)) as [d [Hd Hok]].
  rewrite space_ok_eq in Hok.
  replace (j + S k) with (S (j + k)) in Hend by lia.
  rewrite (Hc _ _ Hd Hend) in Hok. discriminate.
Qed.

Lemma stopped_end s ok p : String.get p s = None -> stopped s ok p.
Proof. intros H. unfold stopped. rewrite H. exact I. Qed.

(** [\s*(.+)] from a character that is not white space. *)
Lemma spaces_rest_here s p d caps :
  String.get p s = Some d -> is_space d = false ->
  exists e tl,
    matches s (Seq (star space) (rest 0)) p caps
    = (e, set_capture 0 (p, e) caps) :: tl /\ p < e.
Proof.
  intros Hd Hs. cbn [matches].
  rewrite star_space_stopped.
  - cbn [flat_map fst snd]. rewrite app_nil_r.
    apply rest_head. eapply solid_dot; eassumption.
  - unfold stopped. rewrite Hd, space_ok_eq. exact Hs.
Qed.

(** [\s*(.+)] anywhere in a text that does not end in white space. *)
Lemma spaces_rest_first s p caps :
  ends_clean s ->
  solid_first s 0 caps (matches s (Seq (star space) (rest 0)) p caps).
Proof.
  intros Hc.
  destruct (@run_ends s space_ok (len s - p) p (le_n _)) as [k [Hrun Hstop]].
  destruct (String.get (p + k) s) as [d|] eqn:Ed.
  - right. destruct (@star_space_head s p k caps Hrun Hstop) as [tl Htl].
    assert (Hs : is_space d = false).
    { unfold stopped in Hstop. rewrite Ed, space_ok_eq in Hstop. exact Hstop. }
    destruct (@rest_head s 0 (p + k) caps (@solid_dot s (p + k) d Ed Hs))
      as [e [tl' [He Hlt]]].
    cbn [matches]. rewrite Htl. cbn [flat_map fst snd]. rewrite He.
    exists (p + k), e, d. eexists. split; [reflexivity|]. auto.
  - left. pose proof (@ends_clean_run s p k Hc Hrun Ed) as ->.
    replace (p + 0) with p in * by lia.
    cbn [matches]. rewrite star_space_stopped by exact Hstop.
    cbn [flat_map fst snd]. rewrite app_nil_r.
    apply rest_stopped. apply stopped_end. exact Ed.
Qed.

(** The tail of a typing pattern in a text that does not end in white
    space. *)
Lemma typed_tail_first s j caps :
  ends_clean s -> solid_first s 0 caps (matches s typed_tail j caps).
Proof.
  intros Hc.
  assert (HR : forall p,
             solid_first s 0 caps
               (matches s (Seq (opt (one_of ":."))
                             (Seq (star space) (rest 0))) p caps)
             /\ (forall d, String.get p s = Some d -> is_space d = false ->
                   matches s (Seq (opt (one_of ":."))
                                (Seq (star space) (rest 0))) p caps <> [])).
  { intros p.
    change (matches s (Seq (opt (one_of ":.")) (Seq (star space) (rest 0)))
              p caps)
      with (flat_map
              (fun m => matches s (Seq (star space) (rest 0)) (fst m) (snd m))
              (matches s (opt (one_of ":.")) p caps)).
    destruct (opt_mark s p caps) as [-> | ->]; cbn [flat_map fst snd];
      rewrite app_nil_r.
    - destruct (@spaces_rest_first s (S p) caps Hc)
        as [E|[c [e [d [tl [E H]]]]]].
      + rewrite E. cbn [app]. split; [apply spaces_rest_first; exact Hc|].
        intros d Hd Hs.
        destruct (@spaces_rest_here s p d caps Hd Hs) as [e [tl [E' _]]].
        rewrite E'. discriminate.
      + rewrite E. split; [|discriminate].
        right. exists c, e, d. eexists. split; [reflexivity|exact H].
    - split; [apply spaces_rest_first; exact Hc|].
      intros d Hd Hs.
      destruct (@spaces_rest_here s p d caps Hd Hs) as [e [tl [E' _]]].
      rewrite E'. discriminate. }
  destruct (@run_ends s space_ok (len s - j) j (le_n _)) as [k [Hrun Hstop]].
  unfold typed_tail.
  change (matches s (Seq (star space)
                       (Seq (opt (one_of ":.")) (Seq (star space) (rest 0))))
            j caps)
    with (flat_map
            (fun m => matches s (Seq (opt (one_of ":."))
                                   (Seq (star space) (rest 0))) (fst m) (snd m))
            (matches s (star space) j caps)).
  destruct (String.get (j + k) s) as [d|] eqn:Ed.
  - destruct (@star_space_head s j k caps Hrun Hstop) as [tl Htl].
    rewrite Htl. cbn [flat_map fst snd].
    assert (Hs : is_space d = false).
    { unfold stopped in Hstop. rewrite Ed, space_ok_eq in Hstop. exact Hstop. }
    destruct (HR (j + k)) as [[E|[c [e [d' [tl' [E H]]]]]] Hne].
    + exfalso. exact (Hne d Ed Hs E).
    + rewrite E. right. exists c, e, d'. eexists. split; [reflexivity|exact H].
  - pose proof (@ends_clean_run s j k Hc Hrun Ed) as ->.
    replace (j + 0) with j in * by lia.
    rewrite star_space_stopped by exact Hstop.
    cbn [flat_map fst snd]. rewrite app_nil_r. apply (HR j).
Qed.


(** ** A normalized text does not end in white space *)

Lemma get_str (l : list ascii) (p : nat) : String.get p (str l) = nth_error l p.
Proof.
  unfold str. revert p; induction l as [|c l IH]; intros p; simpl.
  - destruct p; reflexivity.
  - destruct p as [|p]; [reflexivity|apply IH].
Qed.

Lemma rev_last_head (l : list ascii) (p : nat) (d : ascii) :
  nth_error (rev l) p = Some d -> nth_error (rev l) (S p) = None ->
  exists l', l = d :: l'.
Proof.
  intros Hd Hn. destruct l as [|d0 l]; [destruct p; discriminate|].
  exists l. f_equal. cbn [rev] in *.
  apply nth_error_None in Hn. rewrite length_app, length_rev in Hn.
  cbn [length] in Hn.
  assert (Hp : p < length (rev l ++ [d0]))
    by (apply nth_error_Some; congruence).
  rewrite length_app, length_rev in Hp. cbn [length] in Hp.
  assert (p = length (rev l)) by (rewrite length_rev; lia). subst p.
  rewrite nth_error_app2 in Hd by lia. rewrite Nat.sub_diag in Hd.
  simpl in Hd. congruence.
Qed.

Lemma strip_ends_clean (s : string) : ends_clean (strip s).
Proof.
  unfold strip. intros p d Hd Hn. rewrite get_str in Hd, Hn.
  destruct (rev_last_head _ _ Hd Hn) as [l' E].
  pose proof (RouterMore.lstrip_trimmed (rev (lstrip_chars (chars s)))) as Ht.
  rewrite E in Ht. exact Ht.
Qed.

(** ** The typing patterns *)

Lemma typing_patterns p :
  In ("type_text", p) (flat_patterns intent_patterns) ->
  ngroups p = 1 /\ exists verb, tree p = Seq (lit verb) typed_tail.
Proof.
  intros Hin. unfold flat_patterns, intent_patterns in Hin. simpl in Hin.
  repeat (destruct Hin as [Hin|Hin];
          [first
             [discriminate Hin
             |inversion Hin; subst; split; [reflexivity|];
              eexists; reflexivity]|]).
  contradiction.
Qed.

(** The group of a match of a typing pattern starts with a character
    that is not white space. *)
Lemma typing_group (text : string) p m :
  In ("type_text", p) (flat_patterns intent_patterns) ->
  ends_clean text ->
  search p text = Some m ->
  exists c e d,
    groups text m = [Some (slice c e text)]
    /\ c < e /\ String.get c text = Some d /\ is_space d = false.
Proof.
  intros Hin Hc Hs.
  destruct (typing_patterns Hin) as [Hng [verb Ht]].
  unfold search in Hs. apply scan_some in Hs. destruct Hs as [[_ Hstart] Hs].
  destruct (match_at_head _ _ _ Hs) as [tl Hhead].
  rewrite Ht, Hng in Hhead. cbn [matches] in Hhead.
  destruct (@flat_map_first _ _
              (fun m1 => matches text typed_tail (fst m1) (snd m1))
              (fun a x => length (snd a) = 1
                          /\ exists c d,
                               snd x = set_capture 0 (c, fst x) (snd a)
                               /\ c < fst x /\ String.get c text = Some d
                               /\ is_space d = false)
              (matches text (lit verb) (m_start m) (repeat None 1)))
    as [E|[a [x [tl' [Ha [E [Hlen [c [d [Hx H]]]]]]]]]].
  - intros a Ha.
    destruct (@typed_tail_first text (fst a) (snd a) Hc)
      as [E|[c [e [d [tl' [E H]]]]]]; [left; exact E|].
    right. exists (e, set_capture 0 (c, e) (snd a)), tl'.
    split; [exact E|]. simpl.
    destruct (@matches_records text 0 (lit verb) _ _ _ Ha) as [Hl _].
    rewrite Hl. split; [reflexivity|]. exists c, d. split; [reflexivity|exact H].
  - rewrite E in Hhead. discriminate.
  - rewrite E in Hhead. inversion Hhead; subst x. simpl in *.
    destruct (snd a) as [|c0 [|c1 l]]; simpl in Hlen; try lia.
    exists c, (m_end m), d. split; [|exact H].
    unfold groups. rewrite Hx. reflexivity.
Qed.

(** ** The text to type *)

Lemma lstrip_keeps (l : list ascii) (d : ascii) :
  In d l -> is_space d = false -> lstrip_chars l <> [].
Proof.
  induction l as [|c l IH]; intros Hin Hs; [destruct Hin|].
  simpl. destruct (is_space c) eqn:E; [|discriminate].
  destruct Hin as [->|Hin]; [congruence|]. apply IH; assumption.
Qed.

Lemma substring_first (s : string) :
  forall c n, String.get 0 (substring c (S n) s) = String.get c s.
Proof.
  induction s as [|a s IH]; intros c n.
  - destruct c; reflexivity.
  - destruct c as [|c]; [reflexivity|]. simpl. apply IH.
Qed.

(** A string that starts with a character that is not white space
    does not strip to nothing. *)
Lemma strip_solid (x : string) (d : ascii) :
  String.get 0 x = Some d -> is_space d = false -> strip x <> "".
Proof.
  intros Hd Hs. destruct x as [|c x]; [discriminate|].
  simpl in Hd. inversion Hd; subst c. unfold strip.
  cbn [chars list_ascii_of_string lstrip_chars]. rewrite Hs.
  pose proof (@lstrip_keeps (rev (d :: list_ascii_of_string x)) d) as Hk.
  destruct (lstrip_chars (rev (d :: list_ascii_of_string x))) as [|c l].
  - exfalso. apply Hk; [|exact Hs|reflexivity].
    apply in_rev. rewrite rev_involutive. left. reflexivity.
  - intros H. apply (f_equal len) in H. rewrite str_length, length_rev in H.
    simpl in H. discriminate.
Qed.


Lemma exact_no_text (now t : string) (d : dict) :
  In (t, d) exact_phrases ->
  dict_get "text"
    (dict_set "confidence" (VNum 1) (dict_update (blank now t) d)) = None.
Proof.
  intros Hin. simpl in Hin.
  repeat (destruct Hin as [Hin|Hin]; [inversion Hin; subst; reflexivity|]).
  contradiction.
Qed.

(** A record that no pattern gave has no slot [text]. *)
Lemma unmatched_no_text (now text : string) (r : dict) :
  parse_intent now text = Ok r -> dict_get "match" r = None ->
  dict_get "text" r = None.
Proof.
  intros Hr Em.
  destruct (parse_intent_outcome now text)
    as [d Hd Hin|c data Hx Hc Hs Htyc|k entry q Hx Hp Hbest Hq Hk
       |k entry q Hx Hp Hbest Hq Hk];
    inversion Hr; subst r; clear Hr.
  - apply exact_no_text. exact Hin.
  - exfalso.
    destruct (@RouterMore.pattern_record_rest now (normalize text) c data Hs)
      as [_ [H _]].
    cbv zeta in H. congruence.
  - reflexivity.
  - reflexivity.
Qed.

(** The record of a typing intent that a pattern gave: the text to
    type is there and is not empty. *)
Lemma typing_record (now text : string) (r : dict) :
  parse_intent now text = Ok r ->
  get "type" r = VStr "type_text" ->
  dict_get "match" r <> None ->
  exists tx, dict_get "text" r = Some (VStr tx) /\ tx <> "".
Proof.
  intros Hr Hty Hmatch.
  destruct (parse_intent_outcome now text)
    as [d Hd Hin|c data Hx Hc Hs Htyc|k entry q Hx Hp Hbest Hq Hk
       |k entry q Hx Hp Hbest Hq Hk];
    inversion Hr; subst r; clear Hr.
  - exfalso. apply Hmatch. apply exact_plain. exact Hin.
  - destruct (hit_or_miss (normalize text) (flat_patterns intent_patterns))
      as [Hhit|Hmiss];
      [|rewrite (pattern_tier_miss _ Hmiss) in Hc; discriminate].
    destruct (pattern_answer _ Hhit)
      as [ty [p [m [data' [Hc' [Hd' [Hsearch Hin]]]]]]].
    assert (Heq : dict_update (candidate_dict c) data
                  = dict_update
                      (candidate_dict
                         (Candidate ty (group0 (normalize text) m)
                            (groups (normalize text) m))) data')
      by congruence.
    rewrite Heq in *. clear Heq Hc Hs Htyc.
    assert (Hclean : ends_clean (normalize text))
      by (apply strip_ends_clean).
    set (t := normalize text) in *.
    assert (Hkind : get "type"
                      (dict_set "confidence" (VNum (8 # 10))
                         (dict_update (blank now t)
                            (dict_update
                               (candidate_dict
                                  (Candidate ty (group0 t m) (groups t m))) data')))
                    = VStr ty).
    { destruct (extract_typed _ _ _ Hd'); reflexivity. }
    rewrite Hkind in Hty. inversion Hty; subst ty. clear Hty Hkind.
    destruct (@typing_group t p m Hin Hclean Hsearch)
      as [c0 [e [d [Hg [Hlt [Hd Hsp]]]]]].
    rewrite Hg in *.
    assert (Hdata : data' = [("text", VStr (strip (slice c0 e t)))]).
    { unfold _extract_intent_data in Hd'. simpl in Hd'. inversion Hd'.
      reflexivity. }
    subst data'.
    exists (strip (slice c0 e t)). split; [reflexivity|].
    apply (@strip_solid _ d); [|exact Hsp].
    unfold slice. destruct (e - c0) as [|n] eqn:E; [lia|].
    rewrite substring_first. exact Hd.
  - exfalso. apply Hmatch. reflexivity.
  - exfalso. apply Hmatch. reflexivity.
Qed.

(** X9: a [type_text] record of the router passes [validate_intent]
    exactly when it comes from a pattern.  The text a pattern captures
    is never empty, even after stripping, because the normalized input
    does not end in white space; the keyword tier gives [type_text]
    without a text, which the validator rejects. *)
Theorem typing_valid_iff_pattern (now text : string) (r : dict) :
  parse_intent now text = Ok r ->
  get "type" r = VStr "type_text" ->
  exists v, validate_intent r = (r, Ok v)
            /\ (is_valid v = true <-> dict_get "match" r <> None).
Proof.
  intros Hr Hty.
  destruct (dict_get "match" r) as [mv|] eqn:Em.
  - destruct (typing_record _ _ Hr Hty) as [tx [Htx Hne]]; [congruence|].
    unfold validate_intent, check_intent, get_default. rewrite Hty, Htx.
    cbn [is_str String.eqb Ascii.eqb Bool.eqb truthy py_len bind].
    apply String.eqb_neq in Hne. rewrite Hne. cbn [negb].
    destruct (1000 <? len tx);
      eexists; (split; [reflexivity|split; [discriminate|reflexivity]]).
  - pose proof (unmatched_no_text _ _ Hr Em) as Hno.
    unfold validate_intent, check_intent, get_default. rewrite Hty, Hno.
    cbn [is_str String.eqb Ascii.eqb Bool.eqb truthy negb bind].
    eexists. split; [reflexivity|]. simpl. split; [discriminate|congruence].
Qed.

Lemma typing_valid_iff_pattern_witness :
  exists v,
    validate_intent
      [ ("type", VStr "type_text"); ("confidence", VNum (8 # 10));
        ("entities", VDict []); ("raw_text", VStr "type: hello there");
        ("timestamp", VStr "2024-05-01T10:00:00");
        ("match", VStr "type: hello there");
        ("groups", VTuple [VStr "hello there"]);
        ("text", VStr "hello there") ]
    = ([ ("type", VStr "type_text"); ("confidence", VNum (8 # 10));
         ("entities", VDict []); ("raw_text", VStr "type: hello there");
         ("timestamp", VStr "2024-05-01T10:00:00");
         ("match", VStr "type: hello there");
         ("groups", VTuple [VStr "hello there"]);
         ("text", VStr "hello there") ], Ok v)
    /\ is_valid v = true.
Proof.
  destruct (@typing_valid_iff_pattern "2024-05-01T10:00:00"
              "  Type: Hello there "
              [ ("type", VStr "type_text"); ("confidence", VNum (8 # 10));
                ("entities", VDict []); ("raw_text", VStr "type: hello there");
                ("timestamp", VStr "2024-05-01T10:00:00");
                ("match", VStr "type: hello there");
                ("groups", VTuple [VStr "hello there"]);
                ("text", VStr "hello there") ])
    as [v [Hv Hiff]].
  - vm_compute. reflexivity.
  - reflexivity.
  - exists v. split; [exact Hv|]. apply (proj2 Hiff). discriminate.
Defined.

End TypedFacts.
